(** * Business rules of the three micro-apps: commission calculator,
      time clock, and the Signed-to-Sealed envelope workflow.

    The development embeds the TypeScript sources shallowly:
    - A JavaScript number is an IEEE 754 double: [Number.number] is the
      binary64 instance of the Standard Library's [SpecFloat], and sums,
      products, quotients and [Math.round] are rounded as the code rounds
      them ([7 + 7 + 8.13 + 8.88 + 8.99 > 40]).  Two places compare a
      quotient of two integers and are read on the exact quotient ([Q]):
      the twelve hours of [isStale] and the progress of the signing page;
      the next employee number is computed on integers below 2^53 and on
      doubles from there on ([TimeClockNumbers.String_of_next]).
      The calculator of the commissions is not among the sources and is
      modelled from the spec, with exact amounts.
    - A string is the sequence of the bytes of its UTF-8 encoding.
    - A JavaScript [Date] is its time value, the milliseconds since the epoch
      ([Z]).  Local time is that of the host's time zone
      ([JSDate.TimeZone]), clock changes included: [setDate] and [setHours]
      work on the local wall-clock time.
    - Database tables are lists of rows.  A database call succeeds, except
      in the definitions that take the outcome of their calls as an argument
      ([SignedToSealed.handleSubmitWith]); React state is a record that the
      handlers transform.
    Part I holds the definitions, Part II the lemmas and theorems. *)

From Stdlib Require Import ZArith QArith Qround List String Ascii Bool Lia Lqa.
From Stdlib Require Import DecimalString DecimalZ SpecFloat Permutation.
From stdpp Require Import base gmap strings.
Import ListNotations.

Local Open Scope string_scope.
Local Open Scope Z_scope.

(* ===================================================================== *)
(** * Part I — definitions                                                *)
(* ===================================================================== *)

(** ** JavaScript helpers *)

Module JS.

(** A string is truthy unless it is empty. *)
Definition truthy (s : string) : bool := negb (String.eqb s "").

(** [a > b] on strings: comparison of the code units, left to right. *)
Definition str_gt (a b : string) : bool :=
  match String.compare a b with Gt => true | _ => false end.

Definition str_le (a b : string) : bool := negb (str_gt a b).

(** [x > y] on exact quotients. *)
Definition num_gt (x y : Q) : bool := negb (Qle_bool x y).

(** An optional value is present. *)
Definition isSome {A : Type} (o : option A) : bool :=
  match o with Some _ => true | None => false end.

(** The white space that [trim] and [parseInt] skip.  In UTF-8 the
    characters U+0009..U+000D and U+0020 are one byte, U+00A0 is the two
    bytes C2 A0, and U+1680, U+2000..U+200A, U+2028, U+2029, U+202F, U+205F,
    U+3000 and U+FEFF are three bytes each. *)
Definition isWhitespace (c : ascii) : bool :=
  let n := N_of_ascii c in ((n =? 32) || ((9 <=? n) && (n <=? 13)))%N.

Definition isNoBreakSpace (c1 c2 : ascii) : bool :=
  ((N_of_ascii c1 =? 194) && (N_of_ascii c2 =? 160))%N.

Definition isWideSpace (c1 c2 c3 : ascii) : bool :=
  let n1 := N_of_ascii c1 in
  let n2 := N_of_ascii c2 in
  let n3 := N_of_ascii c3 in
  ((n1 =? 225) && (n2 =? 154) && (n3 =? 128)
   || (n1 =? 226) && (n2 =? 128)
      && ((128 <=? n3) && (n3 <=? 138) || (n3 =? 168) || (n3 =? 169)
          || (n3 =? 175))
   || (n1 =? 226) && (n2 =? 129) && (n3 =? 159)
   || (n1 =? 227) && (n2 =? 128) && (n3 =? 128)
   || (n1 =? 239) && (n2 =? 187) && (n3 =? 191))%N.

(** [s.trimStart()]. *)
Fixpoint trimStart (s : string) : string :=
  match s with
  | EmptyString => s
  | String c1 s1 =>
      if isWhitespace c1 then trimStart s1
      else
        match s1 with
        | EmptyString => s
        | String c2 s2 =>
            if isNoBreakSpace c1 c2 then trimStart s2
            else
              match s2 with
              | EmptyString => s
              | String c3 s3 =>
                  if isWideSpace c1 c2 c3 then trimStart s3 else s
              end
        end
  end.

End JS.

(** ** JavaScript numbers *)

Module Number.

(** A number is a double: sign, 53-bit mantissa and exponent, with the two
    zeros, the infinities and NaN. *)
Definition number : Type := spec_float.

Definition prec : Z := 53.
Definition emax : Z := 1024.

(** The double of an integer literal or of an integer time value, rounded to
    nearest (ties to even) beyond 2^53. *)
Definition ofZ (n : Z) : number := binary_normalize prec emax n 0 false.

(** [x + y], [x * y], [x / y]. *)
Definition add : number -> number -> number := SFadd prec emax.
Definition mul : number -> number -> number := SFmul prec emax.
Definition div : number -> number -> number := SFdiv prec emax.

(** [x > y] and [x === y]; both are false when an operand is NaN. *)
Definition gt (x y : number) : bool := SFltb y x.
Definition eqb (x y : number) : bool := SFeqb x y.

(** [Math.round(x)]: the integer closest to [x], a tie going towards
    +infinity, and -0 for [-0.5 <= x < 0].  A finite [x] is
    [(-1)^s * m * 2^e]; for [e < 0] the result is
    [floor ((2 * x * 2^(-e) + 2^(-e)) / 2^(1-e))]. *)
Definition Math_round (x : number) : number :=
  match x with
  | S754_finite s m e =>
      if 0 <=? e then x
      else
        let n := Z.div (2 * cond_Zopp s (Zpos m) + 2 ^ (- e)) (2 ^ (1 - e)) in
        if n =? 0 then S754_zero s else ofZ n
  | _ => x
  end.

(** [Math.round(x * 100) / 100]. *)
Definition round2 (x : number) : number :=
  div (Math_round (mul x (ofZ 100))) (ofZ 100).

(** [xs.reduce((s, x) => s + f(x), 0)]. *)
Definition sumBy {A : Type} (f : A -> number) (xs : list A) : number :=
  List.fold_left (fun s x => add s (f x)) xs (ofZ 0).

(** The integer part of a finite number (0 for the others). *)
Definition toZ (x : number) : Z :=
  match x with
  | S754_finite s m e =>
      cond_Zopp s (if 0 <=? e then Zpos m * 2 ^ e
                   else Z.div (Zpos m) (2 ^ (- e)))
  | _ => 0
  end.

(** The decimal numeral of an integer. *)
Definition decimal (n : Z) : string := NilZero.string_of_int (Z.to_int n).

(** The integer of the fewest significant digits that reads back as the
    number [x], and of two such the closer to [v], the integer that [x]
    holds; the last [drop] digits are tried as zeros first. *)
Fixpoint shortest (drop : nat) (x : number) (v : Z) : Z :=
  match drop with
  | O => v
  | S drop' =>
      let p := 10 ^ Z.of_nat drop in
      let lo := Z.div v p * p in
      let hi := lo + p in
      let okLo := eqb (ofZ lo) x in
      let okHi := eqb (ofZ hi) x in
      if okLo && okHi
      then if v - lo <? hi - v then lo
           else if hi - v <? v - lo then hi
           else if Z.even (Z.div v p) then lo else hi
      else if okLo then lo
      else if okHi then hi
      else shortest drop' x v
  end.

Fixpoint dropZeros (fuel : nat) (w : Z) : Z :=
  match fuel with
  | O => w
  | S fuel' =>
      if (Z.modulo w 10 =? 0) && negb (w =? 0)
      then dropZeros fuel' (Z.div w 10) else w
  end.

(** [String(x)] for a number that holds an integer: the shortest numeral
    that reads back as [x], written out in full below 10^21 and with an
    exponent from there on. *)
Definition toString (x : number) : string :=
  match x with
  | S754_nan => "NaN"
  | S754_infinity s => if s then "-Infinity" else "Infinity"
  | S754_zero _ => "0"
  | S754_finite s _ _ =>
      let v := Z.abs (toZ x) in
      let w := shortest (String.length (decimal v) - 1) (ofZ v) v in
      let sign := if s then "-" else "" in
      if w <? 10 ^ 21 then sign ++ decimal w
      else
        let n := String.length (decimal w) in
        match decimal (dropZeros n w) with
        | String d rest =>
            sign ++ String d (if String.eqb rest "" then "" else "." ++ rest)
                 ++ "e+" ++ decimal (Z.of_nat n - 1)
        | EmptyString => ""
        end
  end.

(** The value of a finite number as a rational (0 for the others). *)
Definition toQ (x : number) : Q :=
  match x with
  | S754_finite s m e =>
      if 0 <=? e then inject_Z (cond_Zopp s (Zpos m) * 2 ^ e)
      else (inject_Z (cond_Zopp s (Zpos m)) / inject_Z (2 ^ (- e)))%Q
  | _ => 0%Q
  end.

End Number.

(** ** Exact sums, for the amounts of the spec *)

Module Exact.

(** The sum of [f x] over [xs] as a rational number. *)
Definition sumBy {A : Type} (f : A -> Q) (xs : list A) : Q :=
  List.fold_left (fun s x => (s + f x)%Q) xs 0%Q.

End Exact.

(** ** The part of [Date] the reports and the route use *)

Module JSDate.

Definition msPerHour : Z := 1000 * 60 * 60.
Definition msPerDay : Z := 86400000.

(** Days from 1970-01-01 to the civil date [y]-[m]-[d], [m] in 1..12. *)
Definition daysFromCivil (y m d : Z) : Z :=
  let y' := if m <=? 2 then y - 1 else y in
  let era := Z.div y' 400 in
  let yoe := y' - era * 400 in
  let mp := if 2 <? m then m - 3 else m + 9 in
  let doy := Z.div (153 * mp + 2) 5 + d - 1 in
  let doe := yoe * 365 + Z.div yoe 4 - Z.div yoe 100 + doy in
  era * 146097 + doe - 719468.

(** The time zone of the host.  [offsetAt t] is the offset of local time
    from UTC at the instant [t], in milliseconds (the getters use it);
    [offsetOfLocal x] is the offset that the host applies to the local time
    value [x] (the setters and the constructor use it), which also settles
    the local times that a clock change skips or repeats. *)
Record TimeZone := {
  offsetAt : Z -> Z;
  offsetOfLocal : Z -> Z
}.

(** A zone without clock changes. *)
Definition fixedOffset (off : Z) : TimeZone :=
  {| offsetAt := fun _ => off; offsetOfLocal := fun _ => off |}.

Section LocalTime.

Variable tz : TimeZone.

(** The local time value of an instant, and the instant of a local time
    value. *)
Definition LocalTime (t : Z) : Z := t + offsetAt tz t.

Definition UTC (x : Z) : Z := x - offsetOfLocal tz x.

(** Index of the local calendar day that contains [t]. *)
Definition localDay (t : Z) : Z := Z.div (LocalTime t) msPerDay.

(** [d.getDay()]: 0 is Sunday; 1970-01-01 was a Thursday. *)
Definition getDay (t : Z) : Z := Z.modulo (localDay t + 4) 7.

(** The instants of 00:00:00.000 and of 23:59:59.999 of the local calendar
    day [D]. *)
Definition midnight (D : Z) : Z := UTC (D * msPerDay).

Definition lastMs (D : Z) : Z := UTC (D * msPerDay + (msPerDay - 1)).

(** [d.setHours(0, 0, 0, 0)]: the local date is kept, the time of day set. *)
Definition startOfDay (t : Z) : Z := midnight (localDay t).

(** [d.setHours(23, 59, 59, 999)]. *)
Definition endOfDay (t : Z) : Z := lastMs (localDay t).

(** [d.setDate(d.getDate() + n)]: the local date moves by [n] days, the
    local time of day is kept. *)
Definition addDays (t n : Z) : Z := UTC (LocalTime t + n * msPerDay).

(** [d.setHours(d.getHours() + n)]: the local time moves by [n] hours. *)
Definition addHours (t n : Z) : Z := UTC (LocalTime t + n * msPerHour).

(** Day index of the civil date that [new Date(year, month, date)] means:
    months count from 0 and overflow into the years, [date] may be 0 or
    negative, years 0..99 mean 1900..1999. *)
Definition civilDay (year month date : Z) : Z :=
  let year := if (0 <=? year) && (year <=? 99) then 1900 + year else year in
  let ym := year + Z.div month 12 in
  let mn := Z.modulo month 12 in
  daysFromCivil ym (mn + 1) 1 + date - 1.

(** [new Date(year, month, date)]. *)
Definition newDate (year month date : Z) : Z :=
  midnight (civilDay year month date).

(** [new Date(year, month, date, hours, minutes, seconds, ms)]. *)
Definition newDateTime (year month date hours minutes seconds ms : Z) : Z :=
  UTC (civilDay year month date * msPerDay
       + (hours * msPerHour + minutes * 60000 + seconds * 1000 + ms)).

(** The clock changes of the zone neither fall on midnight nor reach across
    it: the first and the last millisecond of every local day exist, a setter
    never leaves the local day it asks for, the instants of a local day are
    those from its first to its last millisecond, and the next day starts a
    millisecond after the last one. *)
Definition wholeDays : Prop :=
  (forall D, LocalTime (midnight D) = D * msPerDay)
  /\ (forall D, LocalTime (lastMs D) = D * msPerDay + (msPerDay - 1))
  /\ (forall x, localDay (UTC x) = Z.div x msPerDay)
  /\ (forall t D, localDay t = D <-> midnight D <= t <= lastMs D)
  /\ (forall D, lastMs D + 1 = midnight (D + 1)).

End LocalTime.

(** New York in 2026: UTC-5 until the clocks go forward at 07:00 UTC on
    8 March, UTC-4 until they go back at 06:00 UTC on 1 November.  A local
    time that the change in March skips is read with the offset before the
    change, one that the change in November repeats is the first of the
    two. *)
Definition springForward : Z := 1772953200000.
Definition fallBack : Z := 1793512800000.

Definition newYork2026 : TimeZone :=
  {| offsetAt := fun t =>
       if t <? springForward then -5 * msPerHour
       else if t <? fallBack then -4 * msPerHour
       else -5 * msPerHour;
     offsetOfLocal := fun x =>
       if x <? springForward - 4 * msPerHour then -5 * msPerHour
       else if x <? fallBack - 4 * msPerHour then -4 * msPerHour
       else -5 * msPerHour |}.

End JSDate.

(** ** Time clock: [src/types/timeclock.ts], [src/lib/timeClockHooks.ts]
     and the kiosk component *)

Module TimeClock.

Import JS JSDate.

(** [created_at] is never read by the code below and is left out;
    [clock_in] and [clock_out] hold the time value [new Date(s).getTime()]
    of the stored timestamp. *)
Record TCEmployee := {
  emp_id : string;
  employee_number : string;
  first_name : string;
  last_name : string;
  is_active : bool
}.

Record TCTimeEntry := {
  entry_id : string;
  employee_id : string;
  clock_in : Z;
  clock_out : option Z;
  notes : string
}.

Record TCOvertimeSettings := {
  daily_threshold : Number.number;
  weekly_threshold : Number.number
}.

Record TCDailyEntry := {
  de_employee : TCEmployee;
  de_entry : TCTimeEntry;
  de_hours : Number.number;
  de_isOvertime : bool;
  de_isStale : bool
}.

Record TCWeeklySummary := {
  ws_employee : TCEmployee;
  dailyHours : list Number.number;
  weeklyTotal : Number.number;
  isWeeklyOvertime : bool;
  dailyOvertimeFlags : list bool
}.

Record TCMonthlySummary := {
  ms_employee : TCEmployee;
  weeklyHours : list Number.number;
  monthlyTotal : Number.number
}.

(** *** [useTimeEntries] *)

Definition isOpenFor (employeeId : string) (e : TCTimeEntry) : bool :=
  String.eqb (employee_id e) employeeId
  && match clock_out e with None => true | Some _ => false end.

Definition getOpenEntry (entries : list TCTimeEntry) (employeeId : string)
  : option TCTimeEntry :=
  List.find (isOpenFor employeeId) entries.

(** The inserted row gets its [id] from the database ([newId]); the new row
    is put in front of the list. *)
Definition clockIn (entries : list TCTimeEntry) (newId employeeId : string)
    (now : Z) : list TCTimeEntry :=
  {| entry_id := newId; employee_id := employeeId; clock_in := now;
     clock_out := None; notes := "" |} :: entries.

Definition clockOut (entries : list TCTimeEntry) (entryId : string) (now : Z)
  : list TCTimeEntry :=
  List.map (fun e =>
    if String.eqb (entry_id e) entryId
    then {| entry_id := entry_id e; employee_id := employee_id e;
            clock_in := clock_in e; clock_out := Some now;
            notes := notes e |}
    else e) entries.

(** *** [useEmployees] *)

Definition findByNumber (employees : list TCEmployee) (num : string)
  : option TCEmployee :=
  List.find (fun e => String.eqb (employee_number e) num && is_active e)
            employees.

(** Number of open entries of one employee, and the convention that it is
    at most one for every employee. *)
Definition openCount (entries : list TCTimeEntry) (employeeId : string)
  : nat :=
  List.length (List.filter (isOpenFor employeeId) entries).

Definition atMostOneOpen (entries : list TCTimeEntry) : Prop :=
  forall employeeId, (openCount entries employeeId <= 1)%nat.

End TimeClock.

(** ** The kiosk component [TimeClock] *)

Module TimeClockKiosk.

Import JS TimeClock.

Inductive Screen := ScreenInput | ScreenConfirm | ScreenAction.

Inductive MessageType := MsgSuccess | MsgError.

(** The state of the component: its own [useState] cells and the two hook
    states it reads.  A message keeps its type only. *)
Record Kiosk := {
  employees : list TCEmployee;
  entries : list TCTimeEntry;
  screen : Screen;
  employeeNumber : string;
  matchedEmployee : option TCEmployee;
  openEntry : option TCTimeEntry;
  message : option MessageType
}.

Inductive Key := KeyDigit (d : ascii) | KeyClear | KeyBack.

(** What can happen to the kiosk: a button is pressed, or a timer fires.
    [ClickClockIn] carries the id the database gives to the new row and
    both clock actions carry the time of the click. *)
Inductive Action :=
| PressKey (k : Key)
| ClickEnter
| ClickYes
| ClickNo
| ClickClockIn (newId : string) (now : Z)
| ClickClockOut (now : Z)
| ClickCancel
| TimerReset
| TimerClearMessage.

(** [prev.slice(0, -1)]. *)
Definition dropLast (s : string) : string :=
  String.substring 0 (String.length s - 1) s.

Definition setKiosk (k : Kiosk) (en : list TCTimeEntry) (sc : Screen)
    (num : string) (me : option TCEmployee) (oe : option TCTimeEntry)
    (msg : option MessageType) : Kiosk :=
  {| employees := employees k; entries := en; screen := sc;
     employeeNumber := num; matchedEmployee := me; openEntry := oe;
     message := msg |}.

Definition handleKeyPress (digit : Key) (k : Kiosk) : Kiosk :=
  match digit with
  | KeyClear =>
      setKiosk k (entries k) (screen k) "" (matchedEmployee k) (openEntry k)
               (message k)
  | KeyBack =>
      setKiosk k (entries k) (screen k) (dropLast (employeeNumber k))
               (matchedEmployee k) (openEntry k) (message k)
  | KeyDigit d =>
      if (String.length (employeeNumber k) <? 4)%nat
      then setKiosk k (entries k) (screen k)
                    (employeeNumber k ++ String d EmptyString)
                    (matchedEmployee k) (openEntry k) (message k)
      else k
  end.

Definition handleSubmitNumber (k : Kiosk) : Kiosk :=
  match findByNumber (employees k) (employeeNumber k) with
  | None =>
      setKiosk k (entries k) (screen k) (employeeNumber k)
               (matchedEmployee k) (openEntry k) (Some MsgError)
  | Some emp =>
      setKiosk k (entries k) ScreenConfirm (employeeNumber k) (Some emp)
               (openEntry k) (message k)
  end.

Definition handleConfirmYes (k : Kiosk) : Kiosk :=
  match matchedEmployee k with
  | None => k
  | Some emp =>
      setKiosk k (entries k) ScreenAction (employeeNumber k) (Some emp)
               (getOpenEntry (entries k) (emp_id emp)) (message k)
  end.

Definition handleConfirmNo (k : Kiosk) : Kiosk :=
  setKiosk k (entries k) ScreenInput "" None (openEntry k) (message k).

Definition handleClockIn (newId : string) (now : Z) (k : Kiosk) : Kiosk :=
  match matchedEmployee k with
  | None => k
  | Some emp =>
      setKiosk k (clockIn (entries k) newId (emp_id emp) now) (screen k)
               (employeeNumber k) (Some emp) (openEntry k) (Some MsgSuccess)
  end.

Definition handleClockOut (now : Z) (k : Kiosk) : Kiosk :=
  match openEntry k with
  | None => k
  | Some oe =>
      setKiosk k (clockOut (entries k) (entry_id oe) now) (screen k)
               (employeeNumber k) (matchedEmployee k) (Some oe)
               (Some MsgSuccess)
  end.

(** The callback of the 30 s inactivity timer and of the 4 s timer started
    after a clock-in or a clock-out. *)
Definition resetKiosk (k : Kiosk) : Kiosk :=
  setKiosk k (entries k) ScreenInput "" None None None.

(** The controls the component renders in state [k]. *)
Definition offered (a : Action) (k : Kiosk) : bool :=
  match a, screen k with
  | PressKey _, ScreenInput => true
  | ClickEnter, ScreenInput => negb (String.length (employeeNumber k) <? 4)%nat
  | ClickYes, ScreenConfirm => isSome (matchedEmployee k)
  | ClickNo, ScreenConfirm => isSome (matchedEmployee k)
  | ClickClockOut _, ScreenAction =>
      isSome (matchedEmployee k) && isSome (openEntry k)
  | ClickClockIn _ _, ScreenAction =>
      isSome (matchedEmployee k) && negb (isSome (openEntry k))
  | ClickCancel, ScreenAction => isSome (matchedEmployee k)
  | TimerReset, _ => true
  | TimerClearMessage, _ => true
  | _, _ => false
  end.

Definition handle (a : Action) (k : Kiosk) : Kiosk :=
  match a with
  | PressKey key => handleKeyPress key k
  | ClickEnter => handleSubmitNumber k
  | ClickYes => handleConfirmYes k
  | ClickNo => handleConfirmNo k
  | ClickClockIn newId now => handleClockIn newId now k
  | ClickClockOut now => handleClockOut now k
  | ClickCancel => handleConfirmNo k
  | TimerReset => resetKiosk k
  | TimerClearMessage =>
      setKiosk k (entries k) (screen k) (employeeNumber k)
               (matchedEmployee k) (openEntry k) None
  end.

(** One kiosk action: defined when the control is on the screen. *)
Definition step (a : Action) (k : Kiosk) : option Kiosk :=
  if offered a k then Some (handle a k) else None.

Fixpoint run (acts : list Action) (k : Kiosk) : option Kiosk :=
  match acts with
  | [] => Some k
  | a :: rest =>
      match step a k with
      | Some k' => run rest k'
      | None => None
      end
  end.

(** The snapshot [openEntry] taken by the Yes button still tells whether
    the matched employee has an open entry. *)
Definition snapshotCurrent (k : Kiosk) : Prop :=
  match matchedEmployee k with
  | Some emp => openEntry k = getOpenEntry (entries k) (emp_id emp)
  | None => True
  end.

End TimeClockKiosk.

(** ** [useTimeClockReports] *)

Module TimeClockReports.

Import JS JSDate TimeClock.

Section Reports.

(** The time zone of the host, the hook's arguments and the value of
    [Date.now()] while one report is computed. *)
Variable tz : TimeZone.
Variable employees : list TCEmployee.
Variable entries : list TCTimeEntry.
Variable overtime : TCOvertimeSettings.
Variable now : Z.

(** The quotient [(end - start) / (1000 * 60 * 60)] before it is rounded to
    a double. *)
Definition getHours (entry : TCTimeEntry) : Q :=
  let start := clock_in entry in
  let end_ := match clock_out entry with Some t => t | None => now end in
  (inject_Z (end_ - start) / inject_Z msPerHour)%Q.

(** The number that [getHours] returns: the difference of the two time
    values divided by 3 600 000, in doubles. *)
Definition getHoursNumber (entry : TCTimeEntry) : Number.number :=
  let start := clock_in entry in
  let end_ := match clock_out entry with Some t => t | None => now end in
  Number.div (Number.ofZ (end_ - start)) (Number.ofZ msPerHour).

(** [getHours(entry) > 12], read on the exact quotient: rounding to the
    nearest double is monotone and 12 is a double. *)
Definition isStale (entry : TCTimeEntry) : bool :=
  match clock_out entry with
  | Some _ => false
  | None => num_gt (getHours entry) 12
  end.

(** [ci >= lo && ci <= hi]. *)
Definition between (lo hi ci : Z) : bool := (lo <=? ci) && (ci <=? hi).

Definition getDailyEntries (date : Z) : list TCDailyEntry :=
  let dayStart := startOfDay tz date in
  let dayEnd := endOfDay tz date in
  List.flat_map (fun entry =>
    match List.find (fun emp => String.eqb (emp_id emp) (employee_id entry))
                    employees with
    | None => []
    | Some employee =>
        let hours := getHoursNumber entry in
        let employeeDayEntries :=
          List.filter (fun e =>
            String.eqb (employee_id e) (employee_id entry)
            && between dayStart dayEnd (clock_in e)) entries in
        let totalDayHours := Number.sumBy getHoursNumber employeeDayEntries in
        [ {| de_employee := employee;
             de_entry := entry;
             de_hours := hours;
             de_isOvertime :=
               Number.gt totalDayHours (daily_threshold overtime);
             de_isStale := isStale entry |} ]
    end)
    (List.filter (fun e => between dayStart dayEnd (clock_in e)) entries).

Definition getWeekRange (date : Z) : Z * Z :=
  let day := getDay tz date in
  let start :=
    startOfDay tz (addDays tz date (- day + (if day =? 0 then -6 else 1))) in
  let end_ := endOfDay tz (addDays tz start 6) in
  (start, end_).

(** Body of the loop [for (let i = 0; i < 7; i++)] for one value of [i]. *)
Definition dayTotal (empEntries : list TCTimeEntry) (start i : Z)
  : Number.number :=
  let dayDate := addDays tz start i in
  let dayStart := startOfDay tz dayDate in
  let dayEnd := endOfDay tz dayDate in
  let dayEntries :=
    List.filter (fun e => between dayStart dayEnd (clock_in e)) empEntries in
  Number.sumBy getHoursNumber dayEntries.

Definition weekDays : list Z := [0; 1; 2; 3; 4; 5; 6].

Definition weeklyRow (start end_ : Z) (employee : TCEmployee)
  : TCWeeklySummary :=
  let empEntries :=
    List.filter (fun e =>
      String.eqb (employee_id e) (emp_id employee)
      && between start end_ (clock_in e)) entries in
  let dailyHours :=
    List.map (fun i => Number.round2 (dayTotal empEntries start i))
             weekDays in
  let dailyOvertimeFlags :=
    List.map (fun i => Number.gt (dayTotal empEntries start i)
                                 (daily_threshold overtime)) weekDays in
  let weeklyTotal := Number.sumBy (fun h => h) dailyHours in
  {| ws_employee := employee;
     dailyHours := dailyHours;
     weeklyTotal := Number.round2 weeklyTotal;
     isWeeklyOvertime := Number.gt weeklyTotal (weekly_threshold overtime);
     dailyOvertimeFlags := dailyOvertimeFlags |}.

Definition getWeeklySummary (weekStart : Z) : list TCWeeklySummary :=
  let '(start, end_) := getWeekRange weekStart in
  let activeEmployees := List.filter is_active employees in
  List.map (weeklyRow start end_) activeEmployees.

(** The loop [while (d <= monthEnd)]: [fuel] bounds the number of rounds. *)
Fixpoint weeksLoop (fuel : nat) (d monthEnd : Z) : list (Z * Z) :=
  match fuel with
  | O => []
  | S fuel' =>
      if d <=? monthEnd
      then (d, endOfDay tz (addDays tz d 6))
             :: weeksLoop fuel' (addDays tz d 7) monthEnd
      else []
  end.

Definition monthStartOf (year month : Z) : Z := newDate tz year month 1.

(** [new Date(year, month + 1, 0, 23, 59, 59, 999)]. *)
Definition monthEndOf (year month : Z) : Z :=
  newDateTime tz year (month + 1) 0 23 59 59 999.

(** First Monday on or before the start of the month. *)
Definition firstWeekStart (year month : Z) : Z :=
  let d := monthStartOf year month in
  let day := getDay tz d in
  addDays tz d (- (if day =? 0 then 6 else day - 1)).

(** Every round moves [d] seven local days ahead, so this many rounds pass
    the local day of [monthEnd]. *)
Definition weeksFuel (d monthEnd : Z) : nat :=
  Z.to_nat (Z.div (localDay tz monthEnd - localDay tz d) 7 + 1).

Definition monthWeeks (year month : Z) : list (Z * Z) :=
  let monthEnd := monthEndOf year month in
  let d := firstWeekStart year month in
  weeksLoop (weeksFuel d monthEnd) d monthEnd.

Definition weekHours (employee : TCEmployee) (w : Z * Z) : Number.number :=
  let '(start, end_) := w in
  let empEntries :=
    List.filter (fun e =>
      String.eqb (employee_id e) (emp_id employee)
      && between start end_ (clock_in e)) entries in
  let total := Number.sumBy getHoursNumber empEntries in
  Number.round2 total.

Definition monthlyRow (weeks : list (Z * Z)) (employee : TCEmployee)
  : TCMonthlySummary :=
  let weeklyHours := List.map (weekHours employee) weeks in
  {| ms_employee := employee;
     weeklyHours := weeklyHours;
     monthlyTotal := Number.round2 (Number.sumBy (fun h => h) weeklyHours) |}.

Definition getMonthlySummary (year month : Z) : list TCMonthlySummary :=
  let weeks := monthWeeks year month in
  let activeEmployees := List.filter is_active employees in
  List.map (monthlyRow weeks) activeEmployees.

(** The entries of one employee clocked in on the local days [first] to
    [last] (day indices), in the order of the entry list, and the sum of
    their hours as the code adds them up. *)
Definition entriesOnDays (employeeId : string) (first last : Z)
  : list TCTimeEntry :=
  List.filter (fun e =>
    String.eqb (employee_id e) employeeId
    && ((first <=? localDay tz (clock_in e))
        && (localDay tz (clock_in e) <=? last))) entries.

Definition hoursOnDays (employeeId : string) (first last : Z)
  : Number.number :=
  Number.sumBy getHoursNumber (entriesOnDays employeeId first last).

End Reports.

End TimeClockReports.

(** ** Commission calculator: the records of [src/types/phorest.ts] and
       the calculation the route calls *)

Module Phorest.

Import JS Exact.

(** Optional display fields of the API records that nothing below reads
    ([timeZone], [city], [state], [serviceId], [startTime], [clientSince],
    [archived] and [deleted] of a client) are left out. *)
Record PhorestBranch := {
  branchId : string;
  branch_name : string
}.

Record PhorestStaff := {
  staff_staffId : string;
  staff_branchId : string;
  staff_firstName : string;
  staff_lastName : string;
  archived : bool
}.

Inductive AppointmentState := BOOKED | CHECKED_IN | PAID.
Inductive ActivationState := RESERVED | ACTIVE | CANCELED.

(** [price] is [None] for a null price, [deleted] is [None] when absent. *)
Record PhorestAppointment := {
  appt_appointmentId : string;
  appt_branchId : string;
  appt_clientId : string;
  appt_staffId : string;
  appt_serviceName : option string;
  appt_appointmentDate : string;
  appt_price : option Q;
  appt_state : AppointmentState;
  activationState : ActivationState;
  deleted : option bool
}.

Record PhorestClient := {
  clientId : string;
  firstName : string;
  lastName : string;
  firstVisit : option string
}.

Record ServiceCommission := {
  appointmentId : string;
  serviceName : string;
  appointmentDate : string;
  price : Q;
  commission : Q
}.

Record ClientCommission := {
  client_clientId : string;
  clientName : string;
  firstVisitDate : string;
  services : list ServiceCommission;
  clientTotal : Q
}.

Record StylistCommission := {
  stylist_staffId : string;
  staffName : string;
  clients : list ClientCommission;
  stylistTotal : Q
}.

Record BranchCommission := {
  branch_branchId : string;
  branchName : string;
  stylists : list StylistCommission;
  branchTotal : Q
}.

Record CommissionResult := {
  branches : list BranchCommission;
  totalCommission : Q;
  totalNewClients : Z;
  fetchedAt : string
}.

(** One element of [branchDataList] in the route. *)
Record BranchData := {
  branch : PhorestBranch;
  staff : list PhorestStaff;
  appointments : list PhorestAppointment
}.

(** Keys in the order of their first occurrence, as a JavaScript [Set] or
    [Map] keeps them. *)
Fixpoint dedupFrom (seen : list string) (l : list string) : list string :=
  match l with
  | [] => []
  | x :: xs =>
      if List.existsb (String.eqb x) seen then dedupFrom seen xs
      else x :: dedupFrom (x :: seen) xs
  end.

Definition dedup (l : list string) : list string := dedupFrom [] l.

(** Modelled from the spec: [calculateCommissions] of
    [src/lib/commissionCalculator.ts] is imported by the route and is not
    among the sources; the definitions from here to [calculateCommissions]
    model it.  The rate is 20% of the billed price. *)
Definition COMMISSION_RATE : Q := 2 # 10.

(** Modelled from the spec: the client of an appointment among the clients
    fetched for the request ([src/lib/commissionCalculator.ts] is missing). *)
Definition findClient (clients : list PhorestClient) (id : string)
  : option PhorestClient :=
  List.find (fun c => String.eqb (clientId c) id) clients.

(** Modelled from the spec: the first-visit date of the appointment's
    client when it lies in [startDate, endDate] (part of the missing
    [calculateCommissions]); a client without first-visit date does not
    qualify.  Dates are compared as strings, like the route compares
    [startDate] with [endDate]. *)
Definition qualifyingFirstVisit (clients : list PhorestClient)
    (startDate endDate : string) (a : PhorestAppointment) : option string :=
  match findClient clients (appt_clientId a) with
  | None => None
  | Some c =>
      match firstVisit c with
      | None => None
      | Some fv =>
          if str_le startDate fv && str_le fv endDate then Some fv else None
      end
  end.

(** Modelled from the spec: the price of an appointment when it is neither
    null nor zero (part of the missing [calculateCommissions]). *)
Definition billedPrice (a : PhorestAppointment) : option Q :=
  match appt_price a with
  | None => None
  | Some p => if Qeq_bool p 0 then None else Some p
  end.

(** Modelled from the spec: [activationState !== 'CANCELED'] and
    [deleted !== true] (part of the missing [calculateCommissions]). *)
Definition notCanceledOrDeleted (a : PhorestAppointment) : bool :=
  match activationState a with CANCELED => false | _ => true end
  && match deleted a with Some true => false | _ => true end.

(** Modelled from the spec: the filter of the missing
    [calculateCommissions].  An appointment is commission-eligible when it is
    neither canceled nor deleted, its price is neither null nor zero, and its
    client has a first-visit date inside the requested range. *)
Definition eligible (clients : list PhorestClient) (startDate endDate : string)
    (a : PhorestAppointment) : bool :=
  notCanceledOrDeleted a
  && isSome (billedPrice a)
  && isSome (qualifyingFirstVisit clients startDate endDate a).

(** Modelled from the spec: the billed price as a number (part of the
    missing [calculateCommissions]). *)
Definition priceOf (a : PhorestAppointment) : Q :=
  match appt_price a with Some p => p | None => 0%Q end.

(** Modelled from the spec: the service line of an eligible appointment in
    the missing [calculateCommissions], with commission = price * 0.2. *)
Definition toService (a : PhorestAppointment) : ServiceCommission :=
  {| appointmentId := appt_appointmentId a;
     serviceName := match appt_serviceName a with Some n => n | None => "" end;
     appointmentDate := appt_appointmentDate a;
     price := priceOf a;
     commission := (priceOf a * COMMISSION_RATE)%Q |}.

(** Modelled from the spec: the rollup of one client under one stylist in
    the missing [calculateCommissions].  The display name is not fixed by
    the spec; the client's first and last name are used. *)
Definition clientRollup (clients : list PhorestClient)
    (appts : list PhorestAppointment) (cid : string) : ClientCommission :=
  let mine := List.filter (fun a => String.eqb (appt_clientId a) cid) appts in
  let svcs := List.map toService mine in
  let c := findClient clients cid in
  {| client_clientId := cid;
     clientName :=
       match c with Some c => firstName c ++ " " ++ lastName c | None => "" end;
     firstVisitDate :=
       match c with
       | Some c => match firstVisit c with Some fv => fv | None => "" end
       | None => ""
       end;
     services := svcs;
     clientTotal := sumBy commission svcs |}.

(** Modelled from the spec: the rollup of one stylist inside one branch in
    the missing [calculateCommissions]; archived staff are kept. *)
Definition stylistRollup (clients : list PhorestClient)
    (staffList : list PhorestStaff) (appts : list PhorestAppointment)
    (sid : string) : StylistCommission :=
  let mine := List.filter (fun a => String.eqb (appt_staffId a) sid) appts in
  let cls :=
    List.map (clientRollup clients mine) (dedup (List.map appt_clientId mine)) in
  {| stylist_staffId := sid;
     staffName :=
       match List.find (fun s => String.eqb (staff_staffId s) sid) staffList with
       | Some s => staff_firstName s ++ " " ++ staff_lastName s
       | None => ""
       end;
     clients := cls;
     stylistTotal := sumBy clientTotal cls |}.

(** Modelled from the spec: the rollup of one branch over its eligible
    appointments in the missing [calculateCommissions]. *)
Definition branchRollup (clients : list PhorestClient)
    (startDate endDate : string) (bd : BranchData) : BranchCommission :=
  let elig := List.filter (eligible clients startDate endDate)
                          (appointments bd) in
  let sts :=
    List.map (stylistRollup clients (staff bd) elig)
             (dedup (List.map appt_staffId elig)) in
  {| branch_branchId := branchId (branch bd);
     branchName := branch_name (branch bd);
     stylists := sts;
     branchTotal := sumBy stylistTotal sts |}.

(** Modelled from the spec: [calculateCommissions(branchDataList, clients,
    startDate, endDate)] of the missing [src/lib/commissionCalculator.ts]:
    the eligible appointments rolled up by branch, stylist, client and
    service.  The time stamp of the result is passed in; [totalNewClients]
    counts the distinct clients with an eligible appointment. *)
Definition calculateCommissions (stamp : string)
    (branchDataList : list BranchData) (clients : list PhorestClient)
    (startDate endDate : string) : CommissionResult :=
  let brs := List.map (branchRollup clients startDate endDate)
                      branchDataList in
  let eligAll :=
    List.flat_map (fun bd => List.filter (eligible clients startDate endDate)
                                         (appointments bd)) branchDataList in
  {| branches := brs;
     totalCommission := sumBy branchTotal brs;
     totalNewClients :=
       Z.of_nat (List.length (dedup (List.map appt_clientId eligAll)));
     fetchedAt := stamp |}.

(** Modelled from the spec: the commission of one appointment, 20% of its
    price (part of the missing [calculateCommissions]). *)
Definition lineCommission (a : PhorestAppointment) : Q :=
  (priceOf a * COMMISSION_RATE)%Q.

(** All service lines of a branch rollup and of a result. *)
Definition branchLines (b : BranchCommission) : list ServiceCommission :=
  List.flat_map (fun s => List.flat_map services (clients s)) (stylists b).

Definition resultLines (r : CommissionResult) : list ServiceCommission :=
  List.flat_map branchLines (branches r).

End Phorest.

(** ** The route [POST /api/phorest/commissions] *)

Module CommissionRoute.

Import JS Phorest.

Definition CACHE_TTL_HOURS : Z := 1.

(** A row of [phorest_commission_cache], found by its [date_range_key]. *)
Record CacheRow := {
  results : CommissionResult;
  fetched_at : Z;
  expires_at : Z
}.

(** What the handler does to the outside, in order. *)
Inductive Event :=
| CacheSelect (dateRangeKey : string)
| CacheUpsert (dateRangeKey : string)
| FetchBranches
| FetchStaff (branchId : string)
| FetchAppointments (branchId startDate endDate : string)
| FetchClientsBatch (clientIds : list string).

(** The cache table, the number of clock readings made so far, and the
    effects performed so far (latest last). *)
Record World := {
  cache : gmap string CacheRow;
  clockReads : nat;
  trace : list Event
}.

(** A promise settles with a value or rejects; a rejection carries the
    message the catch clause of the route reports for it ([error.message],
    or "Failed to calculate commissions" when the value thrown is not an
    [Error]). *)
Inductive Outcome (A : Type) :=
| Resolved (a : A)
| Rejected (message : string).
Arguments Resolved {A} a.
Arguments Rejected {A} message.

Definition Async (A : Type) : Type := World -> Outcome A * World.

Definition ret {A : Type} (a : A) : Async A := fun w => (Resolved a, w).

Definition throw {A : Type} (msg : string) : Async A :=
  fun w => (Rejected msg, w).

Definition bind {A B : Type} (m : Async A) (k : A -> Async B) : Async B :=
  fun w =>
    match m w with
    | (Resolved a, w') => k a w'
    | (Rejected msg, w') => (Rejected msg, w')
    end.

Notation "x <- m ;; k" := (bind m (fun x => k))
  (at level 100, m at next level, right associativity).

(** [try { m } catch (error) { h(error.message) }]. *)
Definition tryCatch {A : Type} (m : Async A) (h : string -> Async A)
  : Async A :=
  fun w =>
    match m w with
    | (Resolved a, w') => (Resolved a, w')
    | (Rejected msg, w') => h msg w'
    end.

Definition emit (e : Event) : Async unit :=
  fun w => (Resolved tt,
            {| cache := cache w; clockReads := clockReads w;
               trace := trace w ++ [e] |}).

(** A computation that only talks to the Phorest API: it leaves the cache
    and the clock alone and only adds events. *)
Definition apiOnly {A : Type} (m : Async A) : Prop :=
  forall w, cache (snd (m w)) = cache w
            /\ clockReads (snd (m w)) = clockReads w
            /\ exists evs, trace (snd (m w)) = (trace w ++ evs)%list.

(** A computation only adds events to the trace. *)
Definition extends {A : Type} (m : Async A) : Prop :=
  forall w, exists evs, trace (snd (m w)) = (trace w ++ evs)%list.

(** The request body after [await request.json()]: an object whose date
    properties are absent ([None]) or strings. *)
Record Body := {
  startDate : option string;
  endDate : option string;
  forceRefresh : bool
}.

Inductive Payload :=
| ErrorBody (error : string)
| ResultBody (r : CommissionResult).

(** [NextResponse.json(payload, { status })]. *)
Record Response := {
  status : Z;
  payload : Payload
}.

Definition json (p : Payload) (st : Z) : Response :=
  {| status := st; payload := p |}.

Definition isDigit (c : ascii) : bool :=
  let n := N_of_ascii c in ((48 <=? n) && (n <=? 57))%N.

Definition isHyphen (c : ascii) : bool := Ascii.eqb c "-"%char.

(** [/^\d{4}-\d{2}-\d{2}$/.test(s)]. *)
Definition dateRegex_test (s : string) : bool :=
  match list_ascii_of_string s with
  | [y1; y2; y3; y4; h1; m1; m2; h2; d1; d2] =>
      isDigit y1 && isDigit y2 && isDigit y3 && isDigit y4 && isHyphen h1
      && isDigit m1 && isDigit m2 && isHyphen h2 && isDigit d1 && isDigit d2
  | _ => false
  end.

(** [`${startDate}_${endDate}`]. *)
Definition dateRangeKeyOf (startDate endDate : string) : string :=
  startDate ++ "_" ++ endDate.

Section Handler.

(** The deployment: whether Supabase is configured, the four calls of
    [src/lib/phorestClient.ts] (each resolves or rejects), the calculator,
    the value of the n-th [new Date()] of the process, and the time zone of
    the server. *)
Variable isSupabaseConfigured : bool.
Variable fetchBranches : Outcome (list PhorestBranch).
Variable fetchStaff : string -> Outcome (list PhorestStaff).
Variable fetchAppointments :
  string -> string -> string -> Outcome (list PhorestAppointment).
Variable fetchClientsBatch : list string -> Outcome (list PhorestClient).
Variable calculateCommissions :
  list BranchData -> list PhorestClient -> string -> string ->
  CommissionResult.
Variable clock : nat -> Z.
Variable tz : JSDate.TimeZone.

(** [new Date()]. *)
Definition newDate : Async Z :=
  fun w => (Resolved (clock (clockReads w)),
            {| cache := cache w; clockReads := S (clockReads w);
               trace := trace w |}).

Definition call {A : Type} (e : Event) (r : Outcome A) : Async A :=
  _ <- emit e ;; fun w => (r, w).

(** [.from("phorest_commission_cache").select(..).eq("date_range_key", k)
    .single()]: the row, or null. *)
Definition cacheSelect (k : string) : Async (option CacheRow) :=
  _ <- emit (CacheSelect k) ;; fun w => (Resolved (cache w !! k), w).

(** [.upsert(row, { onConflict: "date_range_key" })]. *)
Definition cacheUpsert (k : string) (row : CacheRow) : Async unit :=
  _ <- emit (CacheUpsert k) ;;
  fun w => (Resolved tt,
            {| cache := <[k := row]> (cache w); clockReads := clockReads w;
               trace := trace w |}).

(** [await Promise.all([fetchStaff(id), fetchAppointments(id, s, e)])]: both
    calls are made; a rejection of the first is reported before one of the
    second. *)
Definition fetchStaffAndAppointments (id s e : string)
  : Async (list PhorestStaff * list PhorestAppointment) :=
  _ <- emit (FetchStaff id) ;;
  _ <- emit (FetchAppointments id s e) ;;
  match fetchStaff id, fetchAppointments id s e with
  | Resolved st, Resolved ap => ret (st, ap)
  | Rejected msg, _ => throw msg
  | _, Rejected msg => throw msg
  end.

(** [for (const branch of branches) { ... branchDataList.push(..) }]. *)
Fixpoint fetchBranchData (bs : list PhorestBranch) (s e : string)
  : Async (list BranchData) :=
  match bs with
  | [] => ret []
  | b :: rest =>
      sa <- fetchStaffAndAppointments (branchId b) s e ;;
      more <- fetchBranchData rest s e ;;
      ret ({| branch := b; staff := fst sa; appointments := snd sa |} :: more)
  end.

(** The [Set] of the truthy client ids of all appointments, as an array. *)
Definition collectClientIds (branchDataList : list BranchData)
  : list string :=
  dedup (List.filter truthy
           (List.flat_map (fun bd => List.map appt_clientId (appointments bd))
                          branchDataList)).

(** The cache check: the cached results when a row exists and is not yet
    expired. *)
Definition checkCache (dateRangeKey : string) (force : bool)
  : Async (option CommissionResult) :=
  if isSupabaseConfigured && negb force then
    cached <- cacheSelect dateRangeKey ;;
    match cached with
    | Some row =>
        now <- newDate ;;
        if now <? expires_at row then ret (Some (results row)) else ret None
    | None => ret None
    end
  else ret None.

(** Everything after the cache check. *)
Definition computeAndCache (s e dateRangeKey : string) : Async Response :=
  bs <- call FetchBranches fetchBranches ;;
  branchDataList <- fetchBranchData bs s e ;;
  let allClientIds := collectClientIds branchDataList in
  cl <- call (FetchClientsBatch allClientIds)
             (fetchClientsBatch allClientIds) ;;
  let res := calculateCommissions branchDataList cl s e in
  _ <- (if isSupabaseConfigured then
          expiresAt <- newDate ;;
          fetchedAt <- newDate ;;
          cacheUpsert dateRangeKey
            {| results := res;
               fetched_at := fetchedAt;
               expires_at := JSDate.addHours tz expiresAt CACHE_TTL_HOURS |}
        else ret tt) ;;
  ret (json (ResultBody res) 200).

Definition present (o : option string) : bool :=
  match o with Some s => truthy s | None => false end.

Definition text (o : option string) : string :=
  match o with Some s => s | None => "" end.

(** [request] is the outcome of reading the body as an object: rejected
    when [request.json()] rejects, or when it yields null and the
    destructuring throws. *)
Definition POST (request : Outcome Body) : Async Response :=
  tryCatch
    (match request with
     | Rejected msg => throw msg
     | Resolved body =>
         if negb (present (startDate body)) || negb (present (endDate body))
         then ret (json (ErrorBody "startDate and endDate are required") 400)
         else
           let s := text (startDate body) in
           let e := text (endDate body) in
           if negb (dateRegex_test s) || negb (dateRegex_test e)
           then ret (json (ErrorBody "Dates must be in YYYY-MM-DD format") 400)
           else if str_gt s e
           then ret (json (ErrorBody "startDate must be before endDate") 400)
           else
             let dateRangeKey := dateRangeKeyOf s e in
             hit <- checkCache dateRangeKey (forceRefresh body) ;;
             match hit with
             | Some r => ret (json (ResultBody r) 200)
             | None => computeAndCache s e dateRangeKey
             end
     end)
    (fun msg => ret (json (ErrorBody msg) 500)).

(** The handler behind the validation, for a well-formed range. *)
Definition afterValidation (s e : string) (force : bool) : Async Response :=
  tryCatch
    (bind (checkCache (dateRangeKeyOf s e) force)
          (fun hit =>
             match hit with
             | Some r => ret (json (ResultBody r) 200)
             | None => computeAndCache s e (dateRangeKeyOf s e)
             end))
    (fun msg => ret (json (ErrorBody msg) 500)).

End Handler.

End CommissionRoute.

(** ** Signed to Sealed: [src/types/signedtosealed.ts],
       [src/lib/signedToSealedHooks.ts], [SigningView], [EnvelopeDetail] *)

Module SignedToSealed.

Import JS.

Inductive EnvelopeStatus := draft | sent | in_progress | completed | voided.
Inductive RecipientRole := signer | cc | in_person.
Inductive RecipientStatus := pending | viewed | signed | declined.

Definition status_eqb (a b : EnvelopeStatus) : bool :=
  match a, b with
  | draft, draft | sent, sent | in_progress, in_progress
  | completed, completed | voided, voided => true
  | _, _ => false
  end.

Definition isSigner (r : RecipientRole) : bool :=
  match r with signer => true | _ => false end.

Definition isSigned (s : RecipientStatus) : bool :=
  match s with signed => true | _ => false end.

Definition isPending (s : RecipientStatus) : bool :=
  match s with pending => true | _ => false end.

(** Rows of the tables.  Time stamps are time values; [created_at],
    [updated_at] and the layout columns of documents and fields are left
    out. *)
Record STSEnvelope := {
  env_id : string;
  title : string;
  env_message : string;
  env_status : EnvelopeStatus;
  created_by : string;
  sent_at : option Z;
  completed_at : option Z;
  voided_at : option Z;
  void_reason : option string
}.

Record STSDocument := {
  doc_id : string;
  doc_envelope_id : string;
  file_name : string
}.

Record STSRecipient := {
  rec_id : string;
  rec_envelope_id : string;
  rec_name : string;
  email : string;
  role : RecipientRole;
  rec_status : RecipientStatus;
  access_token : string;
  viewed_at : option Z;
  signed_at : option Z
}.

Record STSField := {
  field_id : string;
  field_envelope_id : string;
  document_id : string;
  recipient_id : string;
  is_required : bool;
  field_value : option string
}.

Record STSAuditInsert := {
  audit_envelope_id : string;
  event_type : string;
  actor_name : string;
  actor_email : string;
  audit_recipient_id : option string
}.

(** [{ ...env, documents, recipients, fields }]. *)
Record STSEnvelopeDetail := {
  envelope : STSEnvelope;
  documents : list STSDocument;
  recipients : list STSRecipient;
  fields : list STSField
}.

(** [Partial<STSEnvelope>] as passed to [updateEnvelope]. *)
Record STSEnvelopeUpdate := {
  u_title : option string;
  u_message : option string;
  u_status : option EnvelopeStatus;
  u_sent_at : option Z;
  u_completed_at : option Z;
  u_voided_at : option Z;
  u_void_reason : option string
}.

Record DB := {
  sts_envelopes : list STSEnvelope;
  sts_documents : list STSDocument;
  sts_recipients : list STSRecipient;
  sts_fields : list STSField;
  sts_audit_log : list STSAuditInsert
}.

Definition orElse {A : Type} (o : option A) (d : A) : A :=
  match o with Some a => a | None => d end.

Definition orKeep {A : Type} (o : option A) (d : option A) : option A :=
  match o with Some a => Some a | None => d end.

(** [{ ...e, ...updates }]. *)
Definition applyUpdate (u : STSEnvelopeUpdate) (e : STSEnvelope)
  : STSEnvelope :=
  {| env_id := env_id e;
     title := orElse (u_title u) (title e);
     env_message := orElse (u_message u) (env_message e);
     env_status := orElse (u_status u) (env_status e);
     created_by := created_by e;
     sent_at := orKeep (u_sent_at u) (sent_at e);
     completed_at := orKeep (u_completed_at u) (completed_at e);
     voided_at := orKeep (u_voided_at u) (voided_at e);
     void_reason := orKeep (u_void_reason u) (void_reason e) |}.

Definition setEnvelopes (db : DB) (es : list STSEnvelope) : DB :=
  {| sts_envelopes := es; sts_documents := sts_documents db;
     sts_recipients := sts_recipients db; sts_fields := sts_fields db;
     sts_audit_log := sts_audit_log db |}.

Definition setRecipients (db : DB) (rs : list STSRecipient) : DB :=
  {| sts_envelopes := sts_envelopes db; sts_documents := sts_documents db;
     sts_recipients := rs; sts_fields := sts_fields db;
     sts_audit_log := sts_audit_log db |}.

Definition setFields (db : DB) (fs : list STSField) : DB :=
  {| sts_envelopes := sts_envelopes db; sts_documents := sts_documents db;
     sts_recipients := sts_recipients db; sts_fields := fs;
     sts_audit_log := sts_audit_log db |}.

(** [from("sts_envelopes").update(updates).eq("id", id)]. *)
Definition updateEnvelope (id : string) (u : STSEnvelopeUpdate) (db : DB)
  : DB :=
  setEnvelopes db
    (List.map (fun e => if String.eqb (env_id e) id then applyUpdate u e
                        else e) (sts_envelopes db)).

Definition sendEnvelope (id : string) (now : Z) (db : DB) : DB :=
  updateEnvelope id
    {| u_title := None; u_message := None; u_status := Some sent;
       u_sent_at := Some now; u_completed_at := None; u_voided_at := None;
       u_void_reason := None |} db.

Definition voidEnvelope (id reason : string) (now : Z) (db : DB) : DB :=
  updateEnvelope id
    {| u_title := None; u_message := None; u_status := Some voided;
       u_sent_at := None; u_completed_at := None; u_voided_at := Some now;
       u_void_reason := Some reason |} db.

(** [{ ...r, status: "signed", signed_at: now }] and
    [{ ...r, status: "viewed", viewed_at: now }]. *)
Definition setSigned (now : Z) (r : STSRecipient) : STSRecipient :=
  {| rec_id := rec_id r; rec_envelope_id := rec_envelope_id r;
     rec_name := rec_name r; email := email r; role := role r;
     rec_status := signed; access_token := access_token r;
     viewed_at := viewed_at r; signed_at := Some now |}.

Definition setViewed (now : Z) (r : STSRecipient) : STSRecipient :=
  {| rec_id := rec_id r; rec_envelope_id := rec_envelope_id r;
     rec_name := rec_name r; email := email r; role := role r;
     rec_status := viewed; access_token := access_token r;
     viewed_at := Some now; signed_at := signed_at r |}.

(** [from("sts_recipients").update(..).eq("id", id)]. *)
Definition updateRecipient (id : string) (f : STSRecipient -> STSRecipient)
    (db : DB) : DB :=
  setRecipients db
    (List.map (fun r => if String.eqb (rec_id r) id then f r else r)
              (sts_recipients db)).

(** [from("sts_fields").update({ field_value: value }).eq("id", fieldId)]. *)
Definition updateFieldValue (fieldId value : string) (fs : list STSField)
  : list STSField :=
  List.map (fun f =>
    if String.eqb (field_id f) fieldId
    then {| field_id := field_id f; field_envelope_id := field_envelope_id f;
            document_id := document_id f; recipient_id := recipient_id f;
            is_required := is_required f; field_value := Some value |}
    else f) fs.

Definition logEvent (a : STSAuditInsert) (db : DB) : DB :=
  {| sts_envelopes := sts_envelopes db; sts_documents := sts_documents db;
     sts_recipients := sts_recipients db; sts_fields := sts_fields db;
     sts_audit_log := sts_audit_log db ++ [a] |}.

(** [.single()]: the row when the query has exactly one. *)
Definition single {A : Type} (rows : list A) : option A :=
  match rows with
  | [x] => Some x
  | _ => None
  end.

Definition recipientsOf (db : DB) (envelopeId : string) : list STSRecipient :=
  List.filter (fun r => String.eqb (rec_envelope_id r) envelopeId)
              (sts_recipients db).

Definition envelopeRow (db : DB) (envelopeId : string) : option STSEnvelope :=
  single (List.filter (fun e => String.eqb (env_id e) envelopeId)
                      (sts_envelopes db)).

(** The four queries that build an envelope detail; the order of the rows
    plays no role below and the [.order(..)] clauses are left out. *)
Definition loadDetail (db : DB) (envelopeId : string)
  : option STSEnvelopeDetail :=
  match envelopeRow db envelopeId with
  | None => None
  | Some env =>
      Some {| envelope := env;
              documents :=
                List.filter (fun d => String.eqb (doc_envelope_id d) envelopeId)
                            (sts_documents db);
              recipients := recipientsOf db envelopeId;
              fields :=
                List.filter
                  (fun f => String.eqb (field_envelope_id f) envelopeId)
                  (sts_fields db) |}
  end.

(** *** [useSigningByToken] *)

(** The state cells of the hook after [fetchByToken]. *)
Record SigningState := {
  hook_recipient : option STSRecipient;
  hook_envelope : option STSEnvelopeDetail;
  hook_error : option string
}.

Definition initialSigningState : SigningState :=
  {| hook_recipient := None; hook_envelope := None; hook_error := None |}.

Definition failed (r : option STSRecipient) (msg : string) : SigningState :=
  {| hook_recipient := r; hook_envelope := None; hook_error := Some msg |}.

(** Stands for the message of the error that [.single()] reports when the
    envelope query does not yield exactly one row. *)
Definition envelopeQueryError : string :=
  "JSON object requested, multiple (or no) rows returned".

(** [token] is [None] for a null token; an empty token is falsy as well. *)
Definition fetchByToken (isSupabaseConfigured : bool) (token : option string)
    (now : Z) (db : DB) : SigningState * DB :=
  if negb isSupabaseConfigured || negb (truthy (orElse token ""))
  then (initialSigningState, db)
  else
    let tok := orElse token "" in
    match single (List.filter (fun r => String.eqb (access_token r) tok)
                              (sts_recipients db)) with
    | None => (failed None "Invalid or expired signing link", db)
    | Some rec =>
        match loadDetail db (rec_envelope_id rec) with
        | None => (failed (Some rec) envelopeQueryError, db)
        | Some det =>
            match env_status (envelope det) with
            | voided =>
                (failed (Some rec) "This envelope has been voided", db)
            | completed =>
                (failed (Some rec)
                        "This envelope has already been completed", db)
            | _ =>
                if isSigned (rec_status rec)
                then (failed (Some rec)
                             "You have already signed this document", db)
                else
                  ({| hook_recipient := Some rec; hook_envelope := Some det;
                      hook_error := None |},
                   if isPending (rec_status rec)
                   then updateRecipient (rec_id rec) (setViewed now) db
                   else db)
            end
        end
    end.

(** *** [SigningView] *)

(** The props of a signing page: the detail and the recipient as they were
    loaded. *)
Record Session := {
  s_envelope : STSEnvelopeDetail;
  s_recipient : STSRecipient
}.

(** [fieldValues[f.id]] is truthy. *)
Definition filled (fieldValues : gmap string string) (f : STSField) : bool :=
  match fieldValues !! field_id f with
  | Some v => truthy v
  | None => false
  end.

Definition unfilledRequired (s : Session) (fieldValues : gmap string string)
  : list STSField :=
  let myFields :=
    List.filter (fun f => String.eqb (recipient_id f) (rec_id (s_recipient s)))
                (fields (s_envelope s)) in
  let requiredFields := List.filter is_required myFields in
  List.filter (fun f => negb (filled fieldValues f)) requiredFields.

(** The submission is carried out: no required field is empty and the
    signer confirms the dialog. *)
Definition submits (s : Session) (fieldValues : gmap string string)
    (confirmed : bool) : bool :=
  (List.length (unfilledRequired s fieldValues) =? 0)%nat && confirmed.

(** [signers.every((r) => r.id === recipient.id || r.status === "signed")]
    for the signers among [allRecipients]. *)
Definition everySignerSigned (recipientId : string)
    (allRecipients : list STSRecipient) : bool :=
  let signers := List.filter (fun r => isSigner (role r)) allRecipients in
  List.forallb (fun r => String.eqb (rec_id r) recipientId
                         || isSigned (rec_status r)) signers.

(** The check over the recipients of the envelope as the table has them. *)
Definition allSignedAfter (recipientId envelopeId : string) (db : DB) : bool :=
  everySignerSigned recipientId (recipientsOf db envelopeId).

(** What the database answers to the calls of one submission.  The Supabase
    client reports a failed call in the [error] of its result and does not
    throw: [handleSubmit] never looks at the result of an update, takes
    [data] of the read-back, which is null after a failure, and only
    [logEvent] throws, which ends the submission in its [catch] clause. *)
Record SubmitCalls := {
  fieldUpdateOk : string -> bool;
  recipientUpdateOk : bool;
  signedLogOk : bool;
  recipientsReadOk : bool;
  envelopeUpdateOk : bool;
  completedLogOk : bool
}.

Definition allSucceed : SubmitCalls :=
  {| fieldUpdateOk := fun _ => true; recipientUpdateOk := true;
     signedLogOk := true; recipientsReadOk := true; envelopeUpdateOk := true;
     completedLogOk := true |}.

Definition handleSubmitWith (calls : SubmitCalls) (s : Session)
    (fieldValues : gmap string string) (confirmed : bool) (now : Z) (db : DB)
  : DB :=
  if negb (submits s fieldValues confirmed) then db
  else
    let recipient := s_recipient s in
    let envelopeId := env_id (envelope (s_envelope s)) in
    let db1 :=
      setFields db
        (map_fold (fun fieldId value fs =>
                     if fieldUpdateOk calls fieldId
                     then updateFieldValue fieldId value fs else fs)
                  (sts_fields db) fieldValues) in
    let db2 :=
      if recipientUpdateOk calls
      then updateRecipient (rec_id recipient) (setSigned now) db1 else db1 in
    if negb (signedLogOk calls) then db2
    else
      let db3 :=
        logEvent {| audit_envelope_id := envelopeId;
                    event_type := "recipient_signed";
                    actor_name := rec_name recipient;
                    actor_email := email recipient;
                    audit_recipient_id := Some (rec_id recipient) |} db2 in
      let allRecipients :=
        if recipientsReadOk calls then recipientsOf db3 envelopeId else [] in
      if everySignerSigned (rec_id recipient) allRecipients
      then
        let db4 :=
          if envelopeUpdateOk calls
          then updateEnvelope envelopeId
                 {| u_title := None; u_message := None;
                    u_status := Some completed; u_sent_at := None;
                    u_completed_at := Some now; u_voided_at := None;
                    u_void_reason := None |} db3
          else db3 in
        if completedLogOk calls
        then logEvent {| audit_envelope_id := envelopeId;
                         event_type := "envelope_completed";
                         actor_name := "System"; actor_email := "";
                         audit_recipient_id := None |} db4
        else db4
      else
        if envelopeUpdateOk calls
        then updateEnvelope envelopeId
               {| u_title := None; u_message := None;
                  u_status := Some in_progress; u_sent_at := None;
                  u_completed_at := None; u_voided_at := None;
                  u_void_reason := None |} db3
        else db3.

(** The submission when every call succeeds. *)
Definition handleSubmit : Session -> gmap string string -> bool -> Z -> DB
                          -> DB :=
  handleSubmitWith allSucceed.

(** The tables after a submission that is carried out. *)
Definition afterSigning (s : Session) (fieldValues : gmap string string)
    (now : Z) (d : DB) : DB :=
  updateRecipient (rec_id (s_recipient s)) (setSigned now)
    (setFields d
       (map_fold (fun fieldId value fs => updateFieldValue fieldId value fs)
                 (sts_fields d) fieldValues)).

(** *** [EnvelopeDetail] *)

(** [!voidReason.trim()]: nothing is left once the white space at the
    start is removed. *)
Definition isBlank (s : string) : bool := negb (truthy (trimStart s)).

Definition sentOrInProgress (st : EnvelopeStatus) : bool :=
  match st with sent | in_progress => true | _ => false end.

Definition allSigned (detail : STSEnvelopeDetail) : bool :=
  List.forallb (fun r => isSigned (rec_status r))
               (List.filter (fun r => isSigner (role r)) (recipients detail)).

Definition canComplete (detail : STSEnvelopeDetail) : bool :=
  sentOrInProgress (env_status (envelope detail)) && allSigned detail.

(** The Send button is rendered for a draft, the Void button for a sent or
    in-progress envelope, Mark Complete under [canComplete]. *)
Definition sendOffered (detail : STSEnvelopeDetail) : bool :=
  status_eqb (env_status (envelope detail)) draft.

Definition voidOffered (detail : STSEnvelopeDetail) : bool :=
  sentOrInProgress (env_status (envelope detail)).

Definition adminActor (detail : STSEnvelopeDetail) : string :=
  if truthy (created_by (envelope detail)) then created_by (envelope detail)
  else "Admin".

Definition handleSend (detail : STSEnvelopeDetail) (confirmed : bool) (now : Z)
    (db : DB) : DB :=
  if (List.length (recipients detail) =? 0)%nat then db
  else if negb confirmed then db
  else
    logEvent {| audit_envelope_id := env_id (envelope detail);
                event_type := "envelope_sent";
                actor_name := adminActor detail; actor_email := "";
                audit_recipient_id := None |}
      (sendEnvelope (env_id (envelope detail)) now db).

Definition handleVoid (detail : STSEnvelopeDetail) (voidReason : string)
    (now : Z) (db : DB) : DB :=
  if isBlank voidReason then db
  else
    logEvent {| audit_envelope_id := env_id (envelope detail);
                event_type := "envelope_voided";
                actor_name := adminActor detail; actor_email := "";
                audit_recipient_id := None |}
      (voidEnvelope (env_id (envelope detail)) voidReason now db).

Definition handleMarkComplete (detail : STSEnvelopeDetail) (now : Z) (db : DB)
  : DB :=
  logEvent {| audit_envelope_id := env_id (envelope detail);
              event_type := "envelope_completed";
              actor_name := "System"; actor_email := "";
              audit_recipient_id := None |}
    (updateEnvelope (env_id (envelope detail))
       {| u_title := None; u_message := None; u_status := Some completed;
          u_sent_at := None; u_completed_at := Some now; u_voided_at := None;
          u_void_reason := None |} db).

(** *** The workflow as a transition system *)

(** The tables together with the pages that are open: the signing pages,
    each with the detail and the recipient it loaded, and the detail pages
    of the admin, each with the detail it holds. *)
Record System := {
  db : DB;
  sessions : list Session;
  details : list STSEnvelopeDetail
}.

(** The operations of the application on an envelope.  [OpSend], [OpVoid]
    and [OpMarkComplete] are the admin opening the detail page of the
    envelope and clicking at once.  [OpOpenDetail] opens a detail page that
    stays open; [OpSendOn], [OpVoidOn] and [OpMarkCompleteOn] are clicks on
    an open detail page, which acts on the detail it holds, whatever the
    tables say by then, and loads the detail again after the action.  A
    submission acts from one of the open signing pages, with every call
    succeeding. *)
Inductive Op :=
| OpSend (envelopeId : string) (confirmed : bool)
| OpVoid (envelopeId reason : string)
| OpMarkComplete (envelopeId : string)
| OpOpenLink (token : string)
| OpSubmit (page : nat) (fieldValues : gmap string string) (confirmed : bool)
| OpOpenDetail (envelopeId : string)
| OpSendOn (page : nat) (confirmed : bool)
| OpVoidOn (page : nat) (reason : string)
| OpMarkCompleteOn (page : nat).

Definition withDetail (sys : System) (envelopeId : string)
    (offeredOn : STSEnvelopeDetail -> bool)
    (act : STSEnvelopeDetail -> DB -> DB) : option System :=
  match loadDetail (db sys) envelopeId with
  | Some detail =>
      if offeredOn detail
      then Some {| db := act detail (db sys); sessions := sessions sys;
                   details := details sys |}
      else None
  | None => None
  end.

(** [refetch()] of the detail page [page]: the detail is loaded again; a
    failed load leaves the page with the detail it has. *)
Definition refetch (d : DB) (page : nat) (pages : list STSEnvelopeDetail)
  : list STSEnvelopeDetail :=
  match List.nth_error pages page with
  | Some detail =>
      match loadDetail d (env_id (envelope detail)) with
      | Some detail' => <[page := detail']> pages
      | None => pages
      end
  | None => pages
  end.

(** A click on a button of the open detail page [page]: the button is
    rendered by the detail of the page ([offeredOn]), the handler acts on
    that detail, and it ends with [refetch()] unless it returned early. *)
Definition clickOn (sys : System) (page : nat)
    (offeredOn carriedOut : STSEnvelopeDetail -> bool)
    (act : STSEnvelopeDetail -> DB -> DB) : option System :=
  match List.nth_error (details sys) page with
  | Some detail =>
      if offeredOn detail
      then
        let db' := act detail (db sys) in
        Some {| db := db'; sessions := sessions sys;
                details := if carriedOut detail
                           then refetch db' page (details sys)
                           else details sys |}
      else None
  | None => None
  end.

Definition exec (now : Z) (op : Op) (sys : System) : option System :=
  match op with
  | OpSend id confirmed =>
      withDetail sys id sendOffered (fun d => handleSend d confirmed now)
  | OpVoid id reason =>
      withDetail sys id voidOffered (fun d => handleVoid d reason now)
  | OpMarkComplete id =>
      withDetail sys id canComplete (fun d => handleMarkComplete d now)
  | OpOpenLink token =>
      match fetchByToken true (Some token) now (db sys) with
      | ({| hook_recipient := Some r; hook_envelope := Some d;
            hook_error := None |}, db') =>
          Some {| db := db';
                  sessions := sessions sys
                              ++ [{| s_envelope := d; s_recipient := r |}];
                  details := details sys |}
      | (_, db') => Some {| db := db'; sessions := sessions sys;
                            details := details sys |}
      end
  | OpSubmit page fieldValues confirmed =>
      match List.nth_error (sessions sys) page with
      | Some s =>
          Some {| db := handleSubmit s fieldValues confirmed now (db sys);
                  sessions := sessions sys; details := details sys |}
      | None => None
      end
  | OpOpenDetail id =>
      match loadDetail (db sys) id with
      | Some detail =>
          Some {| db := db sys; sessions := sessions sys;
                  details := details sys ++ [detail] |}
      | None => Some sys
      end
  | OpSendOn page confirmed =>
      clickOn sys page sendOffered
        (fun d => negb (List.length (recipients d) =? 0)%nat && confirmed)
        (fun d => handleSend d confirmed now)
  | OpVoidOn page reason =>
      clickOn sys page voidOffered (fun _ => negb (isBlank reason))
        (fun d => handleVoid d reason now)
  | OpMarkCompleteOn page =>
      clickOn sys page canComplete (fun _ => true)
        (fun d => handleMarkComplete d now)
  end.

Fixpoint execAll (now : Z) (ops : list Op) (sys : System) : option System :=
  match ops with
  | [] => Some sys
  | op :: rest =>
      match exec now op sys with
      | Some sys' => execAll (now + 1) rest sys'
      | None => None
      end
  end.

(** Status of the envelope with the given id, if the table has it. *)
Definition statusOf (d : DB) (envelopeId : string) : option EnvelopeStatus :=
  option_map env_status
    (List.find (fun e => String.eqb (env_id e) envelopeId) (sts_envelopes d)).

(** No signer of the envelope has a status other than signed. *)
Definition signersAllSigned (d : DB) (envelopeId : string) : Prop :=
  forall r, List.In r (sts_recipients d) ->
            rec_envelope_id r = envelopeId -> role r = signer ->
            rec_status r = signed.

(** The transitions of the path draft -> sent -> in_progress -> completed,
    with voiding of a sent or in-progress envelope. *)
Definition onPath (a b : EnvelopeStatus) : bool :=
  match a, b with
  | draft, sent => true
  | sent, in_progress => true
  | sent, completed | in_progress, completed => true
  | sent, voided | in_progress, voided => true
  | _, _ => false
  end.

End SignedToSealed.

(** ** Statements about the route and sample deployments *)

Module CommissionRouteSpec.

Import JS Phorest CommissionRoute.

Section Statements.

Variable isSupabaseConfigured : bool.
Variable fetchBranches : Outcome (list PhorestBranch).
Variable fetchStaff : string -> Outcome (list PhorestStaff).
Variable fetchAppointments :
  string -> string -> string -> Outcome (list PhorestAppointment).
Variable fetchClientsBatch : list string -> Outcome (list PhorestClient).
Variable calculateCommissions :
  list BranchData -> list PhorestClient -> string -> string ->
  CommissionResult.
Variable clock : nat -> Z.
Variable tz : JSDate.TimeZone.

Definition post : Outcome Body -> Async Response :=
  POST isSupabaseConfigured fetchBranches fetchStaff fetchAppointments
       fetchClientsBatch calculateCommissions clock tz.

(** The request gives no two well-formed dates: its body cannot be read as
    an object, or a date is missing from it or does not match YYYY-MM-DD. *)
Definition lacksDates (request : Outcome Body) : Prop :=
  match request with
  | Rejected _ => True
  | Resolved body =>
      present (startDate body) = false \/ present (endDate body) = false \/
      dateRegex_test (text (startDate body)) = false \/
      dateRegex_test (text (endDate body)) = false
  end.

(** Every such request is answered with status 400 and leaves the world as
    it was. *)
Definition answers400WithoutDates : Prop :=
  forall request w,
    lacksDates request ->
    exists msg, post request w = (Resolved (json (ErrorBody msg) 400), w).

(** Both dates are present, match the format and are in order. *)
Definition validRange (s e : string) : Prop :=
  truthy s = true /\ truthy e = true /\
  dateRegex_test s = true /\ dateRegex_test e = true /\ str_gt s e = false.

Definition requestFor (s e : string) (force : bool) : Outcome Body :=
  Resolved {| startDate := Some s; endDate := Some e; forceRefresh := force |}.

(** The request in world [w] is not answered from the cache: a refresh is
    forced, or there is no row for the range, or its row has expired. *)
Definition notCached (w : World) (s e : string) (force : bool) : Prop :=
  force = true \/
  match cache w !! dateRangeKeyOf s e with
  | None => True
  | Some row => expires_at row <= clock (clockReads w)
  end.

(** The events a run added to the trace. *)
Definition addedEvents (w w' : World) (evs : list Event) : Prop :=
  trace w' = (trace w ++ evs)%list.

(** The caching rule for one computed answer: the row written under the
    range key holds the answer and expires one hour after the clock reading
    taken for it, and a later unforced request made before that time is
    answered with the same result by a cache read alone. *)
Definition cachedForOneHour (s e : string) (w1 : World) (r : CommissionResult)
  : Prop :=
  (exists n row,
      clockReads w1 = S (S n) /\
      cache w1 !! dateRangeKeyOf s e = Some row /\
      results row = r /\
      expires_at row = clock n + 3600000 /\
      forall w2,
        cache w2 !! dateRangeKeyOf s e = Some row ->
        clock (clockReads w2) < expires_at row ->
        exists w3,
          post (requestFor s e false) w2
            = (Resolved (json (ResultBody r) 200), w3) /\
          addedEvents w2 w3 [CacheSelect (dateRangeKeyOf s e)]).

(** The caching rule for every successful computation that was not
    answered from the cache. *)
Definition cachesEveryComputation : Prop :=
  forall s e force w r w1,
    validRange s e ->
    notCached w s e force ->
    post (requestFor s e force) w = (Resolved (json (ResultBody r) 200), w1) ->
    cachedForOneHour s e w1 r.

(** The caching rule as the code has it.  The expiry is the instant at
    which the local clock of the server reads one hour more than at the
    clock reading taken for the row; that is one hour later whenever the
    zone gives that local time the offset it had at the reading. *)
Definition cachedForOneClockHour (s e : string) (w1 : World)
    (r : CommissionResult) : Prop :=
  (exists n row,
      clockReads w1 = S (S n) /\
      cache w1 !! dateRangeKeyOf s e = Some row /\
      results row = r /\
      expires_at row = JSDate.addHours tz (clock n) 1 /\
      (JSDate.offsetOfLocal tz (JSDate.LocalTime tz (clock n) + 3600000)
       = JSDate.offsetAt tz (clock n) ->
       expires_at row = clock n + 3600000) /\
      forall w2,
        cache w2 !! dateRangeKeyOf s e = Some row ->
        clock (clockReads w2) < expires_at row ->
        exists w3,
          post (requestFor s e false) w2
            = (Resolved (json (ResultBody r) 200), w3) /\
          addedEvents w2 w3 [CacheSelect (dateRangeKeyOf s e)]).

(** With Supabase every computed answer is cached in this way; without it
    the answer leaves the cache as it was. *)
Definition cachesWhenConfigured : Prop :=
  forall s e force w r w1,
    validRange s e ->
    notCached w s e force ->
    post (requestFor s e force) w = (Resolved (json (ResultBody r) 200), w1) ->
    if isSupabaseConfigured then cachedForOneClockHour s e w1 r
    else cache w1 = cache w.

End Statements.

(** *** A sample deployment: one branch, one stylist, two appointments *)

Definition sampleBranch : PhorestBranch :=
  {| branchId := "b1"; branch_name := "Main Street" |}.

Definition sampleStaff : PhorestStaff :=
  {| staff_staffId := "s1"; staff_branchId := "b1"; staff_firstName := "Ada";
     staff_lastName := "Lee"; archived := false |}.

Definition sampleAppointment (id client : string) (p : option Q)
    (act : ActivationState) : PhorestAppointment :=
  {| appt_appointmentId := id; appt_branchId := "b1"; appt_clientId := client;
     appt_staffId := "s1"; appt_serviceName := Some "Cut";
     appt_appointmentDate := "2026-01-15"; appt_price := p;
     appt_state := PAID;
     activationState := act; deleted := None |}.

Definition sampleAppointments : list PhorestAppointment :=
  [ sampleAppointment "a1" "c1" (Some 50%Q) ACTIVE;
    sampleAppointment "a2" "c2" (Some 80%Q) ACTIVE;
    sampleAppointment "a3" "c1" (Some 30%Q) CANCELED;
    sampleAppointment "a4" "c1" None ACTIVE;
    sampleAppointment "a5" "c3" (Some 40%Q) ACTIVE ].

Definition sampleClients : list PhorestClient :=
  [ {| clientId := "c1"; firstName := "Bo"; lastName := "Ray";
       firstVisit := Some "2026-01-15" |};
    {| clientId := "c2"; firstName := "Cy"; lastName := "Doe";
       firstVisit := Some "2025-11-02" |};
    {| clientId := "c3"; firstName := "Di"; lastName := "Fox";
       firstVisit := None |} ].

Definition sampleClock (n : nat) : Z := 1767225600000 + Z.of_nat n * 1000.

Definition samplePost (configured : bool) : Outcome Body -> Async Response :=
  post configured (Resolved [sampleBranch])
       (fun _ => Resolved [sampleStaff])
       (fun _ _ _ => Resolved sampleAppointments)
       (fun _ => Resolved sampleClients)
       (Phorest.calculateCommissions "2026-01-01T00:00:00.000Z")
       sampleClock JSDate.newYork2026.

Definition sampleBadBody : Body :=
  {| startDate := Some "2026-1-01"; endDate := Some "2026-01-31";
     forceRefresh := false |}.

Definition emptyWorld : World :=
  {| cache := ∅; clockReads := 0; trace := [] |}.

Definition sampleResult : CommissionResult :=
  Phorest.calculateCommissions "2026-01-01T00:00:00.000Z"
    [ {| branch := sampleBranch; staff := [sampleStaff];
         appointments := sampleAppointments |} ]
    sampleClients "2026-01-01" "2026-01-31".

End CommissionRouteSpec.

(** ** Sample data of the time clock *)

Module TimeClockSamples.

Import JS JSDate TimeClock TimeClockKiosk TimeClockReports.

Definition ann : TCEmployee :=
  {| emp_id := "emp-ann"; employee_number := "1001"; first_name := "Ann";
     last_name := "Hale"; is_active := true |}.

(** The kiosk as it starts: one employee, nobody clocked in. *)
Definition idleKiosk : Kiosk :=
  {| employees := [ann]; entries := []; screen := ScreenInput;
     employeeNumber := ""; matchedEmployee := None; openEntry := None;
     message := None |}.

(** Ann keys in 1001, confirms, and taps Clock In twice before the 4 s
    timer puts the kiosk back to the input screen. *)
Definition doubleClockIn : list Action :=
  [ PressKey (KeyDigit "1"); PressKey (KeyDigit "0");
    PressKey (KeyDigit "0"); PressKey (KeyDigit "1");
    ClickEnter; ClickYes;
    ClickClockIn "entry-1" 1767600000000;
    ClickClockIn "entry-2" 1767600001000 ].

(** A closed entry of 8.004 hours (28 814 400 ms) that starts at 08:00 UTC
    on day [day] after Monday 2026-01-05. *)
Definition shift (id : string) (day : Z) : TCTimeEntry :=
  let start := 1767571200000 + day * msPerDay + 8 * msPerHour in
  {| entry_id := id; employee_id := "emp-ann"; clock_in := start;
     clock_out := Some (start + 28814400); notes := "" |}.

Definition fiveShifts : list TCTimeEntry :=
  [ shift "m" 0; shift "t" 1; shift "w" 2; shift "h" 3; shift "f" 4 ].

Definition defaultOvertime : TCOvertimeSettings :=
  {| daily_threshold := Number.ofZ 8; weekly_threshold := Number.ofZ 40 |}.

(** A host on UTC. *)
Definition utc : TimeZone := fixedOffset 0.

(** Wednesday 2026-01-07, 12:00 UTC. *)
Definition aWednesday : Z := 1767571200000 + 2 * msPerDay + 12 * msPerHour.


(** Three closed entries of Wednesday 2026-01-07 that last 3 h 04 min,
    4 h 38 min and 18 min: eight hours together. *)
Definition eightHours : list TCTimeEntry :=
  [ {| entry_id := "a"; employee_id := "emp-ann";
       clock_in := 1767744000000 + 6 * msPerHour;
       clock_out := Some (1767744000000 + 6 * msPerHour + 11040000);
       notes := "" |};
    {| entry_id := "b"; employee_id := "emp-ann";
       clock_in := 1767744000000 + 10 * msPerHour;
       clock_out := Some (1767744000000 + 10 * msPerHour + 16680000);
       notes := "" |};
    {| entry_id := "c"; employee_id := "emp-ann";
       clock_in := 1767744000000 + 15 * msPerHour;
       clock_out := Some (1767744000000 + 15 * msPerHour + 1080000);
       notes := "" |} ].

(** The same employee in New York, in the week in which the clocks go
    forward: one entry from 00:30 (05:30 UTC) to 10:30 local time (14:30 UTC)
    on Sunday 8 March 2026, nine hours long. *)
Definition marchSunday : list TCTimeEntry :=
  [ {| entry_id := "sun"; employee_id := "emp-ann";
       clock_in := 1772947800000; clock_out := Some 1772980200000;
       notes := "" |} ].

(** Wednesday 4 March 2026, 12:00 in New York. *)
Definition aMarchWednesday : Z := 1772643600000.


End TimeClockSamples.

(** ** Statements about the reports *)

Module TimeClockReportsSpec.

Import JS JSDate TimeClock TimeClockReports.

(** The hours worked by one employee over the entries clocked in from [lo]
    to [hi], as a rational number. *)
Definition exactHoursBetween (entries : list TCTimeEntry) (now : Z)
    (employeeId : string) (lo hi : Z) : Q :=
  Exact.sumBy (getHours now)
    (List.filter (fun e =>
       String.eqb (employee_id e) employeeId
       && between lo hi (clock_in e)) entries).

(** The weekly flag read as a flag on the hours worked in the week: it is
    set exactly when the hours of the employee's entries clocked in during
    the week exceed the weekly threshold. *)
Definition weeklyFlagOnExactHours (tz : TimeZone) (employees : list TCEmployee)
    (entries : list TCTimeEntry) (overtime : TCOvertimeSettings) (now : Z)
    (weekStart : Z) : Prop :=
  forall row,
    List.In row (getWeeklySummary tz employees entries overtime now weekStart)
    -> (isWeeklyOvertime row = true
        <-> (Number.toQ (weekly_threshold overtime)
             < exactHoursBetween entries now (emp_id (ws_employee row))
                 (fst (getWeekRange tz weekStart))
                 (snd (getWeekRange tz weekStart)))%Q).


End TimeClockReportsSpec.

(** ** Statements about the envelope workflow and a sample envelope *)

Module SignedToSealedSpec.

Import JS SignedToSealed.

Definition sampleRecipient (id token : string) (st : RecipientStatus)
  : STSRecipient :=
  {| rec_id := id; rec_envelope_id := "env-1"; rec_name := id;
     email := id ++ "@example.com"; role := signer; rec_status := st;
     access_token := token; viewed_at := None; signed_at := None |}.

(** An envelope that was sent to two signers; nobody has signed. *)
Definition sentToTwo : DB :=
  {| sts_envelopes :=
       [ {| env_id := "env-1"; title := "Lease"; env_message := "";
            env_status := sent; created_by := "Pat";
            sent_at := Some 1767225600000; completed_at := None;
            voided_at := None; void_reason := None |} ];
     sts_documents := [];
     sts_recipients :=
       [ sampleRecipient "r-a" "tok-a" pending;
         sampleRecipient "r-b" "tok-b" pending ];
     sts_fields := [];
     sts_audit_log := [] |}.

(** The first signer opens the link, then the admin voids the envelope. *)
Definition openThenVoid : list Op :=
  [ OpOpenLink "tok-a"; OpVoid "env-1" "sent by mistake" ].

(** The admin opens the detail page of the sent envelope and leaves it
    open, and both signers sign. *)
Definition signedWhileDetailOpen : list Op :=
  [ OpOpenDetail "env-1"; OpOpenLink "tok-a"; OpSubmit 0 ∅ true;
    OpOpenLink "tok-b"; OpSubmit 1 ∅ true ].

(** The system after a run from [sentToTwo] with no page open (the start
    itself if the run is refused). *)
Definition after (ops : list Op) : System :=
  match execAll 0 ops {| db := sentToTwo; sessions := []; details := [] |}
  with
  | Some sys => sys
  | None => {| db := sentToTwo; sessions := []; details := [] |}
  end.

(** The signing page of the first signer, as loaded while the sample
    envelope is sent. *)
Definition firstSignerPage : Session :=
  {| s_envelope :=
       {| envelope :=
            {| env_id := "env-1"; title := "Lease"; env_message := "";
               env_status := sent; created_by := "Pat";
               sent_at := Some 1767225600000; completed_at := None;
               voided_at := None; void_reason := None |};
          documents := [];
          recipients := [ sampleRecipient "r-a" "tok-a" pending;
                          sampleRecipient "r-b" "tok-b" pending ];
          fields := [] |};
     s_recipient := sampleRecipient "r-a" "tok-a" pending |}.

(** The database answers every call of a submission except the read-back of
    the recipients, which fails. *)
Definition readBackFails : SubmitCalls :=
  {| fieldUpdateOk := fun _ => true; recipientUpdateOk := true;
     signedLogOk := true; recipientsReadOk := false; envelopeUpdateOk := true;
     completedLogOk := true |}.

(** When no recipient holds the token, the load ends with an error. *)
Definition failsWithoutHolder (isSupabaseConfigured : bool) (token : string)
    (now : Z) (d : DB) : Prop :=
  List.filter (fun r => String.eqb (access_token r) token) (sts_recipients d)
  = [] ->
  hook_error (fst (fetchByToken isSupabaseConfigured (Some token) now d))
  <> None.

Definition emptyTables : DB :=
  {| sts_envelopes := []; sts_documents := []; sts_recipients := [];
     sts_fields := []; sts_audit_log := [] |}.

End SignedToSealedSpec.

(** ** Time clock: the other mutators of the hooks, the navigation of the
       admin page and the kiosk's invariant *)

Module TimeClockAdmin.

Import JS JSDate TimeClock TimeClockKiosk.

(** [useEmployees.toggleActive]. *)
Definition toggleActive (employees : list TCEmployee) (id : string)
    (isActive : bool) : list TCEmployee :=
  List.map (fun e =>
    if String.eqb (emp_id e) id
    then {| emp_id := emp_id e; employee_number := employee_number e;
            first_name := first_name e; last_name := last_name e;
            is_active := isActive |}
    else e) employees.

(** [updates: { clock_out?: string; notes?: string }]. *)
Record EntryUpdates := {
  upd_clock_out : option Z;
  upd_notes : option string
}.

(** [useTimeEntries.updateEntry]: [{ ...e, ...updates }] on the rows with
    the given id. *)
Definition updateEntry (entries : list TCTimeEntry) (entryId : string)
    (updates : EntryUpdates) : list TCTimeEntry :=
  List.map (fun e =>
    if String.eqb (entry_id e) entryId
    then {| entry_id := entry_id e; employee_id := employee_id e;
            clock_in := clock_in e;
            clock_out := match upd_clock_out updates with
                         | Some t => Some t
                         | None => clock_out e
                         end;
            notes := match upd_notes updates with
                     | Some n => n
                     | None => notes e
                     end |}
    else e) entries.

(** [handleSaveClockOut] of the admin page.  [editingEntry] is the id of
    the entry in the modal ([None] for null), [editClockOut] the time value
    of the text in the input ([None] for the empty string). *)
Definition handleSaveClockOut (editingEntry : option string)
    (editClockOut : option Z) (entries : list TCTimeEntry)
  : list TCTimeEntry :=
  match editingEntry, editClockOut with
  | Some id, Some t =>
      if truthy id
      then updateEntry entries id {| upd_clock_out := Some t;
                                     upd_notes := None |}
      else entries
  | _, _ => entries
  end.

(** [navigateWeek] of the admin page: [d.setDate(d.getDate() + dir * 7)]. *)
Definition navigateWeek (tz : TimeZone) (dir : Z) (weekDate : Z) : Z :=
  addDays tz weekDate (dir * 7).

(** [navigateMonth] of the admin page, on the pair [(monthYear,
    monthMonth)]. *)
Definition navigateMonth (dir : Z) (ym : Z * Z) : Z * Z :=
  let '(monthYear, monthMonth) := ym in
  let m := monthMonth + dir in
  let y := monthYear in
  let '(m, y) := if 11 <? m then (0, y + 1) else (m, y) in
  let '(m, y) := if m <? 0 then (11, y - 1) else (m, y) in
  (y, m).

(** What holds of every kiosk state reached from the input screen: the
    number has at most four characters, and behind the input screen the
    matched employee is an active employee of the list whose number is the
    four characters typed. *)
Definition matchedIsTyped (k : Kiosk) : Prop :=
  (String.length (employeeNumber k) <= 4)%nat
  /\ (screen k <> ScreenInput ->
      exists emp,
        matchedEmployee k = Some emp
        /\ List.In emp (employees k)
        /\ is_active emp = true
        /\ employee_number emp = employeeNumber k
        /\ String.length (employeeNumber k) = 4%nat).

(** The employee of an entry is on the employee list. *)
Definition knownEmployee (employees : list TCEmployee) (entry : TCTimeEntry)
  : bool :=
  List.existsb (fun emp => String.eqb (emp_id emp) (employee_id entry))
               employees.

End TimeClockAdmin.

(** Sample data for the admin page and the kiosk. *)

Module TimeClockAdminSamples.

Import TimeClock TimeClockKiosk TimeClockSamples.

Definition bob : TCEmployee :=
  {| emp_id := "emp-bob"; employee_number := "1002"; first_name := "Bob";
     last_name := "Ives"; is_active := true |}.

(** Ann's shift that is still open. *)
Definition openShift : TCTimeEntry :=
  {| entry_id := "entry-9"; employee_id := "emp-ann";
     clock_in := 1767600000000; clock_out := None; notes := "" |}.

(** Ann types her number, confirms, and clocks in. *)
Definition annClocksIn : list Action :=
  [ PressKey (KeyDigit "1"); PressKey (KeyDigit "0"); PressKey (KeyDigit "0");
    PressKey (KeyDigit "1"); ClickEnter; ClickYes;
    ClickClockIn "entry-1" 1767600000000 ].

End TimeClockAdminSamples.

(** ** The route: the calls of a computation and the dates as numbers *)

Module CommissionRouteCalls.

Import JS Phorest CommissionRoute.

(** The two calls the loop makes for each branch, in the order of the
    branches. *)
Definition branchCalls (s e : string) (bs : list PhorestBranch) : list Event :=
  List.flat_map (fun b => [FetchStaff (branchId b);
                           FetchAppointments (branchId b) s e]) bs.

(** The world after more events. *)
Definition addEvents (w : World) (evs : list Event) : World :=
  {| cache := cache w; clockReads := clockReads w;
     trace := (trace w ++ evs)%list |}.

(** The value of a decimal digit. *)
Definition digitValue (c : ascii) : Z := Z.of_N (N_of_ascii c) - 48.

(** A date YYYY-MM-DD as the number YYYYMMDD, which orders dates by year,
    then month, then day. *)
Definition dateNumber (s : string) : Z :=
  match list_ascii_of_string s with
  | [y1; y2; y3; y4; _; m1; m2; _; d1; d2] =>
      (digitValue y1 * 1000 + digitValue y2 * 100 + digitValue y3 * 10
       + digitValue y4) * 10000
      + (digitValue m1 * 10 + digitValue m2) * 100
      + (digitValue d1 * 10 + digitValue d2)
  | _ => 0
  end.

End CommissionRouteCalls.

(** ** [SigningView]: the field values of a signing page *)

Module SigningViewFields.

Import JS SignedToSealed.

Inductive FieldType :=
| ft_signature | ft_initials | ft_date_signed | ft_text | ft_checkbox
| ft_dropdown.

(** A field as the click handler sees it: the row together with the two
    layout columns the handler reads. *)
Record FieldView := {
  fv_field : STSField;
  field_type : FieldType;
  dropdown_options : list string
}.

(** The state cells of the page that the handlers write. *)
Record SigningUI := {
  fieldValues : gmap string string;
  activeFieldId : option string;
  showSignatureModal : bool
}.

(** The initial value of [fieldValues]: the truthy stored values. *)
Definition initialFieldValues (fields : list STSField) : gmap string string :=
  List.fold_left (fun initial f =>
    match field_value f with
    | Some v => if truthy v then <[field_id f := v]> initial else initial
    | None => initial
    end) fields ∅.

Definition myFields (s : Session) : list STSField :=
  List.filter (fun f => String.eqb (recipient_id f) (rec_id (s_recipient s)))
              (fields (s_envelope s)).

Definition requiredFields (s : Session) : list STSField :=
  List.filter is_required (myFields s).

Definition filledRequired (s : Session) (fieldValues : gmap string string)
  : list STSField :=
  List.filter (filled fieldValues) (requiredFields s).

Definition count {A : Type} (l : list A) : Q := inject_Z (Z.of_nat (List.length l)).

(** [requiredFields.length > 0
     ? (filledRequired.length / requiredFields.length) * 100 : 100]. *)
Definition progress (s : Session) (fieldValues : gmap string string) : Q :=
  if (0 <? List.length (requiredFields s))%nat
  then (count (filledRequired s fieldValues) / count (requiredFields s) * 100)%Q
  else 100%Q.

(** [disabled={submitting || progress < 100}] of the Finish button. *)
Definition finishDisabled (submitting : bool) (s : Session)
    (fieldValues : gmap string string) : bool :=
  submitting || negb (Qle_bool 100 (progress s fieldValues)).

Definition setValue (ui : SigningUI) (id value : string) : SigningUI :=
  {| fieldValues := <[id := value]> (fieldValues ui);
     activeFieldId := activeFieldId ui;
     showSignatureModal := showSignatureModal ui |}.

(** [handleFieldClick].  [today] is the text of the current date that
    [toLocaleDateString] gives, [answer] what [prompt] returns ([None] for
    null, when the dialog is cancelled). *)
Definition handleFieldClick (recipient : STSRecipient) (field : FieldView)
    (today : string) (answer : option string) (ui : SigningUI) : SigningUI :=
  let id := field_id (fv_field field) in
  if negb (String.eqb (recipient_id (fv_field field)) (rec_id recipient))
  then ui
  else
    match field_type field with
    | ft_signature | ft_initials =>
        {| fieldValues := fieldValues ui; activeFieldId := Some id;
           showSignatureModal := true |}
    | ft_date_signed => setValue ui id today
    | ft_checkbox =>
        setValue ui id
          (match fieldValues ui !! id with
           | Some v => if String.eqb v "true" then "false" else "true"
           | None => "true"
           end)
    | ft_text =>
        match answer with
        | Some val => setValue ui id val
        | None => ui
        end
    | ft_dropdown =>
        if (0 <? List.length (dropdown_options field))%nat
        then match answer with
             | Some val => setValue ui id val
             | None => ui
             end
        else ui
    end.

(** [handleSignatureSave]. *)
Definition handleSignatureSave (dataUrl : string) (ui : SigningUI)
  : SigningUI :=
  match activeFieldId ui with
  | Some id =>
      if truthy id
      then {| fieldValues := <[id := dataUrl]> (fieldValues ui);
              activeFieldId := None;
              showSignatureModal := showSignatureModal ui |}
      else ui
  | None => ui
  end.

(** The row of a field after the loop of [handleSubmit] over
    [Object.entries(fieldValues)]. *)
Definition savedField (fieldValues : gmap string string) (f : STSField)
  : STSField :=
  match fieldValues !! field_id f with
  | Some value =>
      {| field_id := field_id f; field_envelope_id := field_envelope_id f;
         document_id := document_id f; recipient_id := recipient_id f;
         is_required := is_required f; field_value := Some value |}
  | None => f
  end.

End SigningViewFields.

(** ** Signed to Sealed: the audit events, the dashboard and the wizard *)

Module SignedToSealedAdmin.

Import JS SignedToSealed.



(** *** [Dashboard] *)

(** The text of a status, as stored in the [status] column. *)
Definition statusName (st : EnvelopeStatus) : string :=
  match st with
  | draft => "draft"
  | sent => "sent"
  | in_progress => "in_progress"
  | completed => "completed"
  | voided => "voided"
  end.

(** [activeTab]: "all" or a status. *)
Inductive Tab := TabAll | TabStatus (st : EnvelopeStatus).

(** [stats]: the object [counts], as a map from property names to
    numbers. *)
Definition stats (envelopes : list STSEnvelope) : gmap string Z :=
  List.fold_left (fun counts e =>
    <[statusName (env_status e) :=
        default 0 (counts !! statusName (env_status e)) + 1]> counts)
    envelopes {["all" := Z.of_nat (List.length envelopes)]}.

(** [stats[s] || 0], the number on the card of status [s]. *)
Definition card (envelopes : list STSEnvelope) (s : EnvelopeStatus) : Z :=
  default 0 (stats envelopes !! statusName s).

Section Filtered.

(** [a.toLowerCase().includes(q)] for the lower-cased search text [q]. *)
Variable includesLower : string -> string -> bool.
Variable toLowerCase : string -> string.

(** [filtered]: the envelopes of the active tab that match the search
    text, when there is one. *)
Definition filtered (envelopes : list STSEnvelope) (activeTab : Tab)
    (search : string) : list STSEnvelope :=
  let result :=
    match activeTab with
    | TabAll => envelopes
    | TabStatus st =>
        List.filter (fun e => status_eqb (env_status e) st) envelopes
    end in
  if negb (isBlank search)
  then
    let q := toLowerCase search in
    List.filter (fun e => includesLower (title e) q
                          || includesLower (created_by e) q
                          || includesLower (env_message e) q) result
  else result.

End Filtered.

(** *** [EnvelopeWizard] *)

(** [saveMetadata]: [updateEnvelope(id, { title: title || "Untitled
    Envelope", message })]. *)
Definition saveMetadata (activeEnvelopeId : option string)
    (title message : string) (db : DB) : DB :=
  match activeEnvelopeId with
  | Some id =>
      if truthy id
      then updateEnvelope id
             {| u_title := Some (if truthy title then title
                                 else "Untitled Envelope");
                u_message := Some message; u_status := None;
                u_sent_at := None; u_completed_at := None;
                u_voided_at := None; u_void_reason := None |} db
      else db
  | None => db
  end.

Definition signersOf (recipients : list STSRecipient) : list STSRecipient :=
  List.filter (fun r => isSigner (role r)) recipients.

(** [handleSend] of the wizard; [recipients] and [fields] are the states of
    the hooks [useRecipients] and [useFields]. *)
Definition wizardSend (activeEnvelopeId : option string)
    (title message : string) (recipients : list STSRecipient)
    (fields : list STSField) (now : Z) (db : DB) : DB :=
  match activeEnvelopeId with
  | Some id =>
      if negb (truthy id) then db
      else if (List.length (signersOf recipients) =? 0)%nat then db
      else if (List.length fields =? 0)%nat then db
      else
        logEvent {| audit_envelope_id := id; event_type := "envelope_sent";
                    actor_name := "Admin"; actor_email := "";
                    audit_recipient_id := None |}
          (sendEnvelope id now
             (saveMetadata (Some id) title message db))
  | None => db
  end.

(** [canProceed] for the wizard step [step]. *)
Definition canProceed (step : Z) (documents : list STSDocument)
    (recipients : list STSRecipient) (fields : list STSField) : bool :=
  if step =? 0 then (0 <? List.length documents)%nat
  else if step =? 1 then (0 <? List.length (signersOf recipients))%nat
  else if step =? 2 then (0 <? List.length fields)%nat
  else true.

End SignedToSealedAdmin.

(** ** [useEmployees.addEmployee]: the automatic employee number *)

Module TimeClockNumbers.

Import JS TimeClock.

(** The value of the leading decimal digits of [s], after the digits
    already read as [acc]. *)
Fixpoint parseDigits (acc : Z) (s : string) : Z :=
  match s with
  | String c s' =>
      if CommissionRoute.isDigit c
      then parseDigits (acc * 10 + CommissionRouteCalls.digitValue c) s'
      else acc
  | EmptyString => acc
  end.

Definition startsWithDigit (s : string) : bool :=
  match s with
  | String c _ => CommissionRoute.isDigit c
  | EmptyString => false
  end.

(** [parseInt(s, 10)] before the result becomes a number: leading white
    space and one sign are skipped and the leading digits are read; this is
    the integer that they denote, and [None] stands for NaN. *)
Definition parseInt10 (s : string) : option Z :=
  let s := trimStart s in
  let '(negative, s) :=
    match s with
    | String "-"%char s' => (true, s')
    | String "+"%char s' => (false, s')
    | _ => (false, s)
    end in
  if startsWithDigit s
  then Some (if negative then - parseDigits 0 s else parseDigits 0 s)
  else None.

(** [String(maxNum + 1)] for the number [maxNum] that [parseInt] makes of
    the integer [n] it read.  An integer below 2^53 is a double, and so is
    the next one: the numeral is that of [n + 1].  From 2^53 on the integer
    becomes the nearest double, the sum is rounded to a double, and the
    numeral is the one that [String] gives for it. *)
Definition String_of_next (n : Z) : string :=
  if Z.abs n <? 2 ^ 53 then Number.decimal (n + 1)
  else Number.toString (Number.add (Number.ofZ n) (Number.ofZ 1)).

(** [.order("employee_number", { ascending: false }).limit(1)]: the
    employee number that comes last in the order of strings, if there is a
    row.  The column is a text column. *)
Definition maxRow (table : list TCEmployee) : option string :=
  List.fold_left (fun best e =>
    match best with
    | None => Some (employee_number e)
    | Some m => if str_gt (employee_number e) m
                then Some (employee_number e) else Some m
    end) table None.

(** [String(nextNum)]. *)
Definition nextEmployeeNumber (table : list TCEmployee) : string :=
  let maxNum :=
    match maxRow table with
    | Some s => parseInt10 s
    | None => Some 1000
    end in
  String_of_next (match maxNum with Some n => n | None => 1000 end).

(** [addEmployee]: the table after the insert, or [None] when the insert
    fails because the number is taken ([employee_number] is UNIQUE) and the
    error is thrown.  The new row gets its [id] from the database. *)
Definition addEmployee (table : list TCEmployee)
    (newId firstName lastName : string) : option (list TCEmployee) :=
  let num := nextEmployeeNumber table in
  if List.existsb (fun e => String.eqb (employee_number e) num) table
  then None
  else Some (table ++ [{| emp_id := newId; employee_number := num;
                          first_name := firstName; last_name := lastName;
                          is_active := true |}])%list.

(** A string of [width] decimal digits. *)
Definition numeral (width : nat) (s : string) : Prop :=
  String.length s = width
  /\ List.forallb CommissionRoute.isDigit (list_ascii_of_string s) = true.

(** Two employees whose numbers differ in length, and two with numbers of
    four digits. *)
Definition numbered (id num : string) : TCEmployee :=
  {| emp_id := id; employee_number := num; first_name := id;
     last_name := ""; is_active := true |}.

Definition mixedWidths : list TCEmployee :=
  [numbered "e1" "999"; numbered "e2" "1000"].

Definition fourDigits : list TCEmployee :=
  [numbered "e1" "1001"; numbered "e2" "1009"].

(** Two employees with numbers of sixteen digits, 2^53 and 2^53 + 1. *)
Definition sixteenDigits : list TCEmployee :=
  [numbered "e1" "9007199254740992"; numbered "e2" "9007199254740993"].

End TimeClockNumbers.

(** ** Signed to Sealed: a draft with a recipient in copy only *)

Module SignedToSealedSamples.

Import SignedToSealed.

Definition draftEnvelope : STSEnvelope :=
  {| env_id := "env-2"; title := "Notice"; env_message := "";
     env_status := draft; created_by := ""; sent_at := None;
     completed_at := None; voided_at := None; void_reason := None |}.

Definition inCopy : STSRecipient :=
  {| rec_id := "r-c"; rec_envelope_id := "env-2"; rec_name := "Cy";
     email := "cy@example.com"; role := cc; rec_status := pending;
     access_token := "tok-c"; viewed_at := None; signed_at := None |}.

Definition draftInCopy : DB :=
  {| sts_envelopes := [draftEnvelope]; sts_documents := [];
     sts_recipients := [inCopy]; sts_fields := []; sts_audit_log := [] |}.

End SignedToSealedSamples.

(** ** The kiosk: what a run keeps of the entries *)

Module TimeClockKioskEntries.

Import TimeClock TimeClockKiosk.

(** The row [e'] is the row [e], possibly closed since or closed again. *)
Definition keeps (e e' : TCTimeEntry) : Prop :=
  entry_id e' = entry_id e
  /\ employee_id e' = employee_id e
  /\ clock_in e' = clock_in e
  /\ notes e' = notes e
  /\ (clock_out e <> None -> clock_out e' <> None).

(** Every row of [es] is kept in [es'], which is at least as long. *)
Definition keptIn (es es' : list TCTimeEntry) : Prop :=
  (List.length es <= List.length es')%nat
  /\ forall e, List.In e es -> exists e', List.In e' es' /\ keeps e e'.

(** The kiosk showing the confirmation screen for Ann. *)
Definition typedKiosk : Kiosk :=
  {| employees := [TimeClockSamples.ann]; entries := [];
     screen := ScreenConfirm; employeeNumber := "1001";
     matchedEmployee := Some TimeClockSamples.ann; openEntry := None;
     message := None |}.

End TimeClockKioskEntries.

(** ** Signed to Sealed: a field table with one stored value *)

Module SigningViewSamples.

Import SignedToSealed.

Definition storedFields : DB :=
  {| sts_envelopes := [SignedToSealedSamples.draftEnvelope];
     sts_documents := []; sts_recipients := [];
     sts_fields :=
       [ {| field_id := "f-1"; field_envelope_id := "env-2";
            document_id := "doc-1"; recipient_id := "r-a";
            is_required := true; field_value := Some "Ann Hale" |};
         {| field_id := "f-2"; field_envelope_id := "env-2";
            document_id := "doc-1"; recipient_id := "r-b";
            is_required := true; field_value := None |} ];
     sts_audit_log := [] |}.

End SigningViewSamples.

(* ===================================================================== *)
(** * Part II — lemmas and theorems                                       *)
(* ===================================================================== *)

(** ** The route *)

Module CommissionRouteFacts.

Import JS Phorest CommissionRoute CommissionRouteSpec.

Section Facts.

Variable isSupabaseConfigured : bool.
Variable fetchBranches : Outcome (list PhorestBranch).
Variable fetchStaff : string -> Outcome (list PhorestStaff).
Variable fetchAppointments :
  string -> string -> string -> Outcome (list PhorestAppointment).
Variable fetchClientsBatch : list string -> Outcome (list PhorestClient).
Variable calculateCommissions :
  list BranchData -> list PhorestClient -> string -> string ->
  CommissionResult.
Variable clock : nat -> Z.
Variable tz : JSDate.TimeZone.

Local Abbreviation post' :=
  (post isSupabaseConfigured fetchBranches fetchStaff fetchAppointments
        fetchClientsBatch calculateCommissions clock tz).
Local Abbreviation computeAndCache' :=
  (computeAndCache isSupabaseConfigured fetchBranches fetchStaff
     fetchAppointments fetchClientsBatch calculateCommissions clock tz).
Local Abbreviation checkCache' := (checkCache isSupabaseConfigured clock).
Local Abbreviation afterValidation' :=
  (afterValidation isSupabaseConfigured fetchBranches fetchStaff
     fetchAppointments fetchClientsBatch calculateCommissions clock tz).

Lemma apiOnly_ret {A : Type} (a : A) : apiOnly (ret a).
Proof. intros w; simpl; repeat split; exists []; now rewrite app_nil_r. Qed.

Lemma apiOnly_throw {A : Type} (msg : string) : apiOnly (@throw A msg).
Proof. intros w; simpl; repeat split; exists []; now rewrite app_nil_r. Qed.

Lemma apiOnly_emit (e : Event) : apiOnly (emit e).
Proof. intros w; simpl; repeat split; now exists [e]. Qed.

Lemma apiOnly_bind {A B : Type} (m : Async A) (k : A -> Async B) :
  apiOnly m -> (forall a, apiOnly (k a)) -> apiOnly (bind m k).
Proof.
  intros Hm Hk w. unfold bind.
  destruct (Hm w) as (Hc & Hr & evs & Ht).
  destruct (m w) as [[a | msg] w1]; simpl in *.
  - destruct (Hk a w1) as (Hc' & Hr' & evs' & Ht').
    repeat split; try congruence.
    exists (evs ++ evs')%list. rewrite Ht', Ht. now rewrite app_assoc.
  - repeat split; try assumption. now exists evs.
Qed.

Lemma apiOnly_call {A : Type} (e : Event) (r : Outcome A) :
  apiOnly (call e r).
Proof.
  unfold call. apply apiOnly_bind; [apply apiOnly_emit |].
  intros _ w; simpl; repeat split; exists []; now rewrite app_nil_r.
Qed.

Lemma apiOnly_fetchStaffAndAppointments (id s e : string) :
  apiOnly (fetchStaffAndAppointments fetchStaff fetchAppointments id s e).
Proof.
  unfold fetchStaffAndAppointments.
  apply apiOnly_bind; [apply apiOnly_emit | intros _].
  apply apiOnly_bind; [apply apiOnly_emit | intros _].
  destruct (fetchStaff id), (fetchAppointments id s e);
    auto using apiOnly_ret, apiOnly_throw.
Qed.

Lemma apiOnly_fetchBranchData (bs : list PhorestBranch) (s e : string) :
  apiOnly (fetchBranchData fetchStaff fetchAppointments bs s e).
Proof.
  induction bs as [| b rest IH]; simpl.
  - apply apiOnly_ret.
  - apply apiOnly_bind; [apply apiOnly_fetchStaffAndAppointments | intros sa].
    apply apiOnly_bind; [exact IH | intros more]. apply apiOnly_ret.
Qed.

Lemma apiOnly_extends {A : Type} (m : Async A) : apiOnly m -> extends m.
Proof. intros H w. apply (H w). Qed.

Lemma extends_ret {A : Type} (a : A) : extends (ret a).
Proof. apply apiOnly_extends, apiOnly_ret. Qed.

Lemma extends_bind {A B : Type} (m : Async A) (k : A -> Async B) :
  extends m -> (forall a, extends (k a)) -> extends (bind m k).
Proof.
  intros Hm Hk w. unfold bind.
  destruct (Hm w) as (evs & Ht).
  destruct (m w) as [[a | msg] w1]; simpl in *.
  - destruct (Hk a w1) as (evs' & Ht').
    exists (evs ++ evs')%list. rewrite Ht', Ht. now rewrite app_assoc.
  - now exists evs.
Qed.

Lemma extends_newDate : extends (newDate clock).
Proof. intros w; simpl. exists []. now rewrite app_nil_r. Qed.

Lemma extends_cacheUpsert (k : string) (row : CacheRow) :
  extends (cacheUpsert k row).
Proof. intros w; simpl. now exists [CacheUpsert k]. Qed.

(** The first thing [computeAndCache] does is to fetch the branches. *)
Lemma computeAndCache_starts (s e k : string) (w : World) :
  exists evs,
    trace (snd (computeAndCache' s e k w))
    = (trace w ++ FetchBranches :: evs)%list.
Proof.
  unfold computeAndCache.
  set (rest := fun bs : list PhorestBranch => _).
  assert (Hrest : forall bs, extends (rest bs)).
  { intros bs. subst rest. cbv beta.
    apply extends_bind;
      [apply apiOnly_extends, apiOnly_fetchBranchData | intros bdl].
    apply extends_bind; [apply apiOnly_extends, apiOnly_call | intros cl].
    apply extends_bind; [| intros _; apply extends_ret].
    destruct isSupabaseConfigured; [| apply extends_ret].
    apply extends_bind; [apply extends_newDate | intros t1].
    apply extends_bind; [apply extends_newDate | intros t2].
    apply extends_cacheUpsert. }
  unfold bind at 1, call, bind, emit. cbv beta iota.
  destruct fetchBranches as [bs | msg].
  - destruct (Hrest bs
        {| cache := cache w; clockReads := clockReads w;
           trace := (trace w ++ [FetchBranches])%list |}) as (evs & Hevs).
    exists evs. rewrite Hevs. simpl. now rewrite <- app_assoc.
  - exists []. reflexivity.
Qed.

(** Inversion of a bind that resolved. *)
Lemma bind_resolved {A B : Type} (m : Async A) (k : A -> Async B)
    (w w' : World) (b : B) :
  bind m k w = (Resolved b, w') ->
  exists a w1, m w = (Resolved a, w1) /\ k a w1 = (Resolved b, w').
Proof.
  unfold bind. destruct (m w) as [[a | msg] w1]; intros H.
  - now exists a, w1.
  - discriminate.
Qed.

(** A resolved [computeAndCache] answers 200 with the computed result; the
    cache row is written exactly when Supabase is configured. *)
Lemma computeAndCache_resolved (s e k : string) (w w1 : World)
    (resp : Response) :
  computeAndCache' s e k w = (Resolved resp, w1) ->
  exists res,
    resp = json (ResultBody res) 200 /\
    if isSupabaseConfigured then
      cache w1 = <[k := {| results := res;
                           fetched_at := clock (S (clockReads w));
                           expires_at :=
                             JSDate.addHours tz (clock (clockReads w))
                                             CACHE_TTL_HOURS |}]>
                   (cache w)
      /\ clockReads w1 = S (S (clockReads w))
    else cache w1 = cache w /\ clockReads w1 = clockReads w.
Proof.
  unfold computeAndCache. intros H.
  apply bind_resolved in H as (bs & wa & Ha & H).
  apply bind_resolved in H as (bdl & wb & Hb & H).
  apply bind_resolved in H as (cl & wc & Hc & H).
  apply bind_resolved in H as ([] & wd & Hd & H).
  injection H as <- <-.
  eexists; split; [reflexivity |].
  pose proof (apiOnly_call FetchBranches fetchBranches w) as Pa.
  rewrite Ha in Pa; simpl in Pa.
  pose proof (apiOnly_fetchBranchData bs s e wa) as Pb.
  rewrite Hb in Pb; simpl in Pb.
  pose proof (apiOnly_call
                (FetchClientsBatch (collectClientIds bdl))
                (fetchClientsBatch (collectClientIds bdl)) wb) as Pc.
  rewrite Hc in Pc; simpl in Pc.
  destruct Pa as (Pa1 & Pa2 & _), Pb as (Pb1 & Pb2 & _),
           Pc as (Pc1 & Pc2 & _).
  assert (Hcache : cache wc = cache w) by congruence.
  assert (Hreads : clockReads wc = clockReads w) by congruence.
  destruct isSupabaseConfigured.
  - unfold bind, newDate, cacheUpsert, emit in Hd. cbn in Hd.
    injection Hd as <-. cbn. rewrite Hcache, Hreads. auto.
  - unfold ret in Hd. injection Hd as <-. auto.
Qed.

Lemma str_gt_irrefl (d : string) : str_gt d d = false.
Proof.
  unfold str_gt. pose proof (String.compare_antisym d d) as H.
  destruct (String.compare d d); simpl in H; try discriminate; reflexivity.
Qed.

Lemma dateRegex_truthy (d : string) : dateRegex_test d = true -> truthy d = true.
Proof. destruct d; [discriminate | reflexivity]. Qed.

(** What the cache check does. *)
Lemma checkCache_bypassed (k : string) (force : bool) (w : World) :
  isSupabaseConfigured && negb force = false ->
  checkCache' k force w = (Resolved None, w).
Proof. intros H. unfold checkCache. now rewrite H. Qed.

Lemma checkCache_looked_up (k : string) (force : bool) (w : World) :
  isSupabaseConfigured && negb force = true ->
  let w1 := {| cache := cache w; clockReads := clockReads w;
               trace := (trace w ++ [CacheSelect k])%list |} in
  checkCache' k force w =
  match cache w !! k with
  | None => (Resolved None, w1)
  | Some row =>
      (Resolved (if clock (clockReads w) <? expires_at row
                 then Some (results row) else None),
       {| cache := cache w; clockReads := S (clockReads w);
          trace := (trace w ++ [CacheSelect k])%list |})
  end.
Proof.
  intros H w1. unfold checkCache. rewrite H.
  unfold bind, cacheSelect, bind, emit. cbn.
  destruct (cache w !! k) as [row |]; [| reflexivity].
  unfold newDate, ret. cbn.
  destruct (clock (clockReads w) <? expires_at row); reflexivity.
Qed.

Lemma post_valid (s e : string) (force : bool) (w : World) :
  validRange s e ->
  post' (requestFor s e force) w = afterValidation' s e force w.
Proof.
  intros (Hs & He & Rs & Re & Hord).
  unfold post, POST, requestFor, afterValidation, tryCatch. cbn.
  rewrite Hs, He, Rs, Re, Hord. reflexivity.
Qed.

(** Behind the validation the answer is a 200 or a 500, and the first
    effect is the cache read, or the branch fetch when the cache is not
    consulted. *)
Lemma afterValidation_answer (s e : string) (force : bool) (w : World) :
  exists resp evs,
    fst (afterValidation' s e force w) = Resolved resp
    /\ (status resp = 200 \/ status resp = 500)
    /\ trace (snd (afterValidation' s e force w))
       = (trace w
          ++ (if isSupabaseConfigured && negb force
              then CacheSelect (dateRangeKeyOf s e) else FetchBranches)
          :: evs)%list.
Proof.
  set (k := dateRangeKeyOf s e).
  assert (Hcompute : forall w0,
    exists resp evs,
      fst (tryCatch (computeAndCache' s e k)
             (fun msg => ret (json (ErrorBody msg) 500)) w0) = Resolved resp
      /\ (status resp = 200 \/ status resp = 500)
      /\ trace (snd (tryCatch (computeAndCache' s e k)
                  (fun msg => ret (json (ErrorBody msg) 500)) w0))
         = (trace w0 ++ FetchBranches :: evs)%list).
  { intros w0. unfold tryCatch.
    destruct (computeAndCache_starts s e k w0) as (evs & Hevs).
    destruct (computeAndCache' s e k w0) as [[resp | msg] w1] eqn:E.
    - destruct (computeAndCache_resolved _ _ _ _ _ _ E) as (res & -> & _).
      exists (json (ResultBody res) 200), evs. simpl in *. auto.
    - exists (json (ErrorBody msg) 500), evs. simpl in *. auto. }
  unfold afterValidation. fold k.
  destruct (isSupabaseConfigured && negb force) eqn:Hc.
  - assert (Hstep : forall o w0,
      tryCatch (bind (fun w => (Resolved o, w0))
                  (fun hit : option CommissionResult =>
                     match hit with
                     | Some r => ret (json (ResultBody r) 200)
                     | None => computeAndCache' s e k
                     end))
               (fun msg => ret (json (ErrorBody msg) 500)) w
      = match o with
        | Some r => (Resolved (json (ResultBody r) 200), w0)
        | None => tryCatch (computeAndCache' s e k)
                    (fun msg => ret (json (ErrorBody msg) 500)) w0
        end).
    { intros [r |] w0; reflexivity. }
    pose proof (checkCache_looked_up k force w Hc) as Hlook. cbv zeta in Hlook.
    unfold tryCatch, bind in *. rewrite Hlook.
    destruct (cache w !! k) as [row |].
    + destruct (clock (clockReads w) <? expires_at row).
      * exists (json (ResultBody (results row)) 200), []. simpl. auto.
      * destruct (Hcompute
            {| cache := cache w; clockReads := S (clockReads w);
               trace := (trace w ++ [CacheSelect k])%list |})
          as (resp & evs & H1 & H2 & H3).
        unfold tryCatch in H1, H3.
        exists resp, (FetchBranches :: evs). repeat split; try assumption.
        rewrite H3. simpl. now rewrite <- app_assoc.
    + destruct (Hcompute
          {| cache := cache w; clockReads := clockReads w;
             trace := (trace w ++ [CacheSelect k])%list |})
        as (resp & evs & H1 & H2 & H3).
      unfold tryCatch in H1, H3.
      exists resp, (FetchBranches :: evs). repeat split; try assumption.
      rewrite H3. simpl. now rewrite <- app_assoc.
  - pose proof (checkCache_bypassed k force w Hc) as Hby.
    unfold tryCatch, bind in *. rewrite Hby.
    apply (Hcompute w).
Qed.

(** A request whose body cannot be read as an object is answered by the
    catch clause, with the message of the error and status 500, and the
    world is left as it was. *)
Lemma post_unreadable (msg : string) (w : World) :
  post' (Rejected msg) w = (Resolved (json (ErrorBody msg) 500), w).
Proof. reflexivity. Qed.

(** C5, amended. A request whose body is read as an object and lacks
    [startDate] or [endDate], or whose [startDate] or [endDate] does not
    match YYYY-MM-DD, is answered with status 400 and an error message, and
    the world is left as it was: no cache read, no cache write, no call of
    the external API (and no clock reading) has happened.  A request whose
    body cannot be read as an object (it is empty, is not JSON, or is null)
    is answered with status 500 and the message of the error, and the world
    is left as it was. *)
Theorem invalid_request_rejected_without_effects (w : World) :
  (forall body : Body,
      present (startDate body) = false \/ present (endDate body) = false \/
      dateRegex_test (text (startDate body)) = false \/
      dateRegex_test (text (endDate body)) = false ->
      exists msg,
        msg <> "" /\
        post' (Resolved body) w = (Resolved (json (ErrorBody msg) 400), w))
  /\ (forall msg : string,
         lacksDates (Rejected msg)
         /\ post' (Rejected msg) w
            = (Resolved (json (ErrorBody msg) 500), w)).
Proof.
  split; [| intros msg; split; [exact I | apply post_unreadable]].
  intros body H. unfold post, POST, tryCatch.
  destruct (present (startDate body)) eqn:Ps; cbn.
  2:{ exists "startDate and endDate are required". split; [discriminate | reflexivity]. }
  destruct (present (endDate body)) eqn:Pe; cbn.
  2:{ exists "startDate and endDate are required". split; [discriminate | reflexivity]. }
  destruct (dateRegex_test (text (startDate body))) eqn:Rs; cbn.
  2:{ exists "Dates must be in YYYY-MM-DD format". split; [discriminate | reflexivity]. }
  destruct (dateRegex_test (text (endDate body))) eqn:Re; cbn.
  2:{ exists "Dates must be in YYYY-MM-DD format". split; [discriminate | reflexivity]. }
  destruct H as [H | [H | [H | H]]]; discriminate.
Qed.

(** C9. The answer 400 "startDate must be before endDate" is given exactly
    when both dates are present and well formed and [startDate] is strictly
    greater than [endDate] in the order of strings.  A request whose two
    dates are the same well-formed date is not answered with a 400: the
    handler goes on to the cache read (or, when the cache is not consulted,
    to the fetch of the branches). *)
Theorem equal_dates_pass_the_order_check :
  (forall (body : Body) (w : World),
      fst (post' (Resolved body) w)
        = Resolved (json (ErrorBody "startDate must be before endDate") 400)
      <-> (present (startDate body) = true /\ present (endDate body) = true
           /\ dateRegex_test (text (startDate body)) = true
           /\ dateRegex_test (text (endDate body)) = true
           /\ String.compare (text (startDate body)) (text (endDate body))
              = Gt))
  /\ (forall (d : string) (force : bool) (w : World),
         dateRegex_test d = true ->
         exists resp evs,
           fst (post' (requestFor d d force) w) = Resolved resp
           /\ status resp <> 400
           /\ trace (snd (post' (requestFor d d force) w))
              = (trace w
                 ++ (if isSupabaseConfigured && negb force
                     then CacheSelect (dateRangeKeyOf d d)
                     else FetchBranches) :: evs)%list).
Proof.
  split.
  - intros body w.
    destruct (present (startDate body)) eqn:Ps.
    2:{ split; [| intros (? & _); discriminate].
        unfold post, POST, tryCatch. rewrite Ps. cbn. discriminate. }
    destruct (present (endDate body)) eqn:Pe.
    2:{ split; [| intros (? & ? & _); discriminate].
        unfold post, POST, tryCatch. rewrite Ps, Pe. cbn. discriminate. }
    destruct (dateRegex_test (text (startDate body))) eqn:Rs.
    2:{ split; [| intros (? & ? & ? & _); discriminate].
        unfold post, POST, tryCatch. rewrite Ps, Pe, Rs. cbn. discriminate. }
    destruct (dateRegex_test (text (endDate body))) eqn:Re.
    2:{ split; [| intros (? & ? & ? & ? & _); discriminate].
        unfold post, POST, tryCatch. rewrite Ps, Pe, Rs, Re. cbn.
        discriminate. }
    destruct (str_gt (text (startDate body)) (text (endDate body))) eqn:G.
    + split; [intros _ | intros _].
      * repeat split; try reflexivity.
        unfold str_gt in G.
        destruct (String.compare _ _); try discriminate; reflexivity.
      * unfold post, POST, tryCatch. rewrite Ps, Pe, Rs, Re, G. reflexivity.
    + assert (Hbody : Resolved body
                      = requestFor (text (startDate body))
                                   (text (endDate body)) (forceRefresh body)).
      { unfold requestFor. destruct body as [[s |] [e |] f];
          try discriminate; reflexivity. }
      assert (Hv : validRange (text (startDate body)) (text (endDate body))).
      { repeat split; try assumption.
        - now apply dateRegex_truthy.
        - now apply dateRegex_truthy. }
      rewrite Hbody, (post_valid _ _ _ w Hv).
      destruct (afterValidation_answer (text (startDate body))
                  (text (endDate body)) (forceRefresh body) w)
        as (resp & evs & H1 & H2 & _).
      rewrite H1. split.
      * intros H. injection H as ->. simpl in H2. destruct H2; discriminate.
      * intros (_ & _ & _ & _ & Hgt). unfold str_gt in G.
        rewrite Hgt in G. discriminate.
  - intros d force w Hd.
    assert (Hv : validRange d d).
    { repeat split; auto using dateRegex_truthy, str_gt_irrefl. }
    rewrite (post_valid _ _ _ w Hv).
    destruct (afterValidation_answer d d force w)
      as (resp & evs & H1 & H2 & H3).
    exists resp, evs. repeat split; try assumption.
    destruct H2 as [H2 | H2]; rewrite H2; discriminate.
Qed.

(** A computed answer (not one read from the cache) went through
    [computeAndCache]. *)
Lemma computed_answer (s e : string) (force : bool) (w w1 : World)
    (r : CommissionResult) :
  notCached clock w s e force ->
  afterValidation' s e force w = (Resolved (json (ResultBody r) 200), w1) ->
  exists w0,
    computeAndCache' s e (dateRangeKeyOf s e) w0
      = (Resolved (json (ResultBody r) 200), w1).
Proof.
  intros Hmiss. unfold afterValidation. set (k := dateRangeKeyOf s e).
  destruct (isSupabaseConfigured && negb force) eqn:Hc.
  - pose proof (checkCache_looked_up k force w Hc) as Hlook. cbv zeta in Hlook.
    unfold tryCatch, bind. rewrite Hlook.
    assert (Hrow : match cache w !! k with
                   | None => True
                   | Some row => expires_at row <= clock (clockReads w)
                   end).
    { destruct Hmiss as [-> | H]; [| exact H].
      rewrite andb_false_r in Hc. discriminate. }
    destruct (cache w !! k) as [row |].
    + destruct (Z.ltb_spec (clock (clockReads w)) (expires_at row))
        as [Hlt | Hge]; [lia |].
      match goal with
      | |- context [computeAndCache' s e k ?w0] =>
          destruct (computeAndCache' s e k w0) as [[resp | msg] w2] eqn:E;
          intros H; [exists w0 | discriminate]
      end.
      rewrite E. exact H.
    + match goal with
      | |- context [computeAndCache' s e k ?w0] =>
          destruct (computeAndCache' s e k w0) as [[resp | msg] w2] eqn:E;
          intros H; [exists w0 | discriminate]
      end.
      rewrite E. exact H.
  - unfold tryCatch, bind. rewrite (checkCache_bypassed k force w Hc).
    destruct (computeAndCache' s e k w) as [[resp | msg] w2] eqn:E;
      intros H; [exists w | discriminate].
    rewrite E. exact H.
Qed.

End Facts.

(** C6, amended. When Supabase is configured, every successful computation
    that was not answered from the cache is upserted under the key
    startDate + "_" + endDate; the row expires at the instant at which the
    local clock of the server reads one hour more than at the clock reading
    taken for it ([setHours(getHours() + 1)]), which is one hour after that
    reading whenever the zone gives that local time the offset it had at the
    reading; and a later unforced request for the same range, made before
    that expiry while the row is in place, returns the cached result by a
    cache read alone, with no call of the external API.  When Supabase is
    not configured the computed answer leaves the cache as it was. *)
Theorem configured_cache_keeps_result_one_hour
    (isSupabaseConfigured : bool)
    (fetchBranches : Outcome (list PhorestBranch))
    (fetchStaff : string -> Outcome (list PhorestStaff))
    (fetchAppointments :
       string -> string -> string -> Outcome (list PhorestAppointment))
    (fetchClientsBatch : list string -> Outcome (list PhorestClient))
    (calculateCommissions :
       list BranchData -> list PhorestClient -> string -> string ->
       CommissionResult)
    (clock : nat -> Z) (tz : JSDate.TimeZone) :
  cachesWhenConfigured isSupabaseConfigured fetchBranches fetchStaff
    fetchAppointments fetchClientsBatch calculateCommissions clock tz.
Proof.
  intros s e force w r w1 Hv Hmiss Hpost.
  rewrite (post_valid _ _ _ _ _ _ _ _ _ _ _ w Hv) in Hpost.
  destruct isSupabaseConfigured.
  - destruct (computed_answer _ _ _ _ _ _ _ _ _ _ _ _ _ _ Hmiss Hpost)
      as (w0 & Hcomp).
    destruct (computeAndCache_resolved _ _ _ _ _ _ _ _ _ _ _ _ _ _ Hcomp)
      as (res & Hres & Hcache & Hreads).
    injection Hres as ->.
    exists (clockReads w0).
    eexists. split; [exact Hreads |].
    split; [rewrite Hcache; apply lookup_insert_eq |].
    split; [reflexivity |]. split; [reflexivity |]. split.
    { cbn [expires_at]. unfold JSDate.addHours, JSDate.UTC, JSDate.LocalTime,
        CACHE_TTL_HOURS, JSDate.msPerHour.
      change (1 * (1000 * 60 * 60)) with 3600000. intros ->. lia. }
    intros w2 Hrow Hfresh.
    rewrite (post_valid _ _ _ _ _ _ _ _ _ _ _ w2 Hv).
    unfold afterValidation, tryCatch, bind.
    rewrite (checkCache_looked_up true clock (dateRangeKeyOf s e) false w2
               eq_refl).
    rewrite Hrow. cbn [expires_at results] in *.
    destruct (Z.ltb_spec (clock (clockReads w2))
                (JSDate.addHours tz (clock (clockReads w0)) CACHE_TTL_HOURS));
      [| unfold CACHE_TTL_HOURS in *; lia].
    eexists. split; [reflexivity | reflexivity].
  - unfold afterValidation, tryCatch, bind in Hpost.
    rewrite (checkCache_bypassed false clock (dateRangeKeyOf s e) force w
               eq_refl) in Hpost.
    destruct (computeAndCache false fetchBranches fetchStaff
                fetchAppointments fetchClientsBatch calculateCommissions
                clock tz s e (dateRangeKeyOf s e) w)
      as [[resp | msg] w2] eqn:E; [| discriminate].
    injection Hpost as -> ->.
    destruct (computeAndCache_resolved _ _ _ _ _ _ _ _ _ _ _ _ _ _ E)
      as (_ & _ & Hc & _).
    exact Hc.
Qed.

(** Witness of C5: a start date written 2026-1-01 is rejected with 400, a
    request without a body with 500. *)
Lemma invalid_request_witness :
  dateRegex_test (text (startDate sampleBadBody)) = false
  /\ (exists msg,
        msg <> ""
        /\ samplePost true (Resolved sampleBadBody) emptyWorld
           = (Resolved (json (ErrorBody msg) 400), emptyWorld))
  /\ samplePost true (Rejected "Unexpected end of JSON input") emptyWorld
     = (Resolved (json (ErrorBody "Unexpected end of JSON input") 500),
        emptyWorld).
Proof.
  split; [reflexivity |].
  destruct (invalid_request_rejected_without_effects true
              (Resolved [sampleBranch])
              (fun _ => Resolved [sampleStaff])
              (fun _ _ _ => Resolved sampleAppointments)
              (fun _ => Resolved sampleClients)
              (Phorest.calculateCommissions "2026-01-01T00:00:00.000Z")
              sampleClock JSDate.newYork2026 emptyWorld) as (H400 & H500).
  split.
  - apply H400. right; right; left; reflexivity.
  - exact (proj2 (H500 "Unexpected end of JSON input")).
Defined.

(** Counterexample to C5 as stated: a request with an empty body has
    neither date, and is answered with status 500. *)
Lemma unreadable_body_counterexample :
  ~ answers400WithoutDates true (Resolved [sampleBranch])
      (fun _ => Resolved [sampleStaff])
      (fun _ _ _ => Resolved sampleAppointments)
      (fun _ => Resolved sampleClients)
      (Phorest.calculateCommissions "2026-01-01T00:00:00.000Z")
      sampleClock JSDate.newYork2026.
Proof.
  intros H.
  destruct (H (Rejected "Unexpected end of JSON input") emptyWorld I)
    as (msg & Hmsg).
  cbv in Hmsg. discriminate Hmsg.
Qed.

(** Witness of C9: the range from 2026-01-15 to 2026-01-15. *)
Lemma equal_dates_witness :
  dateRegex_test "2026-01-15" = true
  /\ exists resp evs,
       fst (samplePost true (requestFor "2026-01-15" "2026-01-15" false)
              emptyWorld) = Resolved resp
       /\ status resp <> 400
       /\ trace (snd (samplePost true
                        (requestFor "2026-01-15" "2026-01-15" false)
                        emptyWorld))
          = CacheSelect "2026-01-15_2026-01-15" :: evs.
Proof.
  split; [reflexivity |].
  apply (proj2 (equal_dates_pass_the_order_check true (Resolved [sampleBranch])
           (fun _ => Resolved [sampleStaff])
           (fun _ _ _ => Resolved sampleAppointments)
           (fun _ => Resolved sampleClients)
           (Phorest.calculateCommissions "2026-01-01T00:00:00.000Z")
           sampleClock JSDate.newYork2026) "2026-01-15" false emptyWorld).
  reflexivity.
Defined.

(** Witness of C6: the January range computed on an empty cache. *)
Lemma configured_cache_witness :
  validRange "2026-01-01" "2026-01-31"
  /\ cachedForOneClockHour true (Resolved [sampleBranch])
       (fun _ => Resolved [sampleStaff])
       (fun _ _ _ => Resolved sampleAppointments)
       (fun _ => Resolved sampleClients)
       (Phorest.calculateCommissions "2026-01-01T00:00:00.000Z")
       sampleClock JSDate.newYork2026 "2026-01-01" "2026-01-31"
       (snd (samplePost true (requestFor "2026-01-01" "2026-01-31" false)
               emptyWorld))
       sampleResult.
Proof.
  assert (Hv : validRange "2026-01-01" "2026-01-31")
    by (repeat split; reflexivity).
  split; [exact Hv |].
  apply (configured_cache_keeps_result_one_hour true (Resolved [sampleBranch])
           (fun _ => Resolved [sampleStaff])
           (fun _ _ _ => Resolved sampleAppointments)
           (fun _ => Resolved sampleClients)
           (Phorest.calculateCommissions "2026-01-01T00:00:00.000Z")
           sampleClock JSDate.newYork2026 "2026-01-01" "2026-01-31" false
           emptyWorld sampleResult _ Hv).
  - right. reflexivity.
  - reflexivity.
Defined.

(** Counterexample to C6 as stated: without Supabase the January range is
    computed and answered with 200, and no row is written for it. *)
Lemma unconfigured_cache_counterexample :
  ~ cachesEveryComputation false (Resolved [sampleBranch])
      (fun _ => Resolved [sampleStaff])
      (fun _ _ _ => Resolved sampleAppointments)
      (fun _ => Resolved sampleClients)
      (Phorest.calculateCommissions "2026-01-01T00:00:00.000Z")
      sampleClock JSDate.newYork2026.
Proof.
  intros H.
  assert (Hv : validRange "2026-01-01" "2026-01-31")
    by (repeat split; reflexivity).
  destruct (H "2026-01-01" "2026-01-31" false emptyWorld sampleResult
              (snd (samplePost false
                      (requestFor "2026-01-01" "2026-01-31" false)
                      emptyWorld))
              Hv (or_intror I) eq_refl)
    as (n & row & _ & Hrow & _).
  vm_compute in Hrow. discriminate Hrow.
Qed.

(** The expiry follows the local clock: a row written in New York half an
    hour before the clocks go back (01:30 local time becomes 02:30) is kept
    for two hours. *)
Lemma expiry_when_the_clocks_go_back :
  JSDate.addHours JSDate.newYork2026 (JSDate.fallBack - 1800000)
                  CACHE_TTL_HOURS
  = JSDate.fallBack - 1800000 + 2 * 3600000.
Proof. reflexivity. Qed.

End CommissionRouteFacts.

(** ** Sums of numbers *)

Module SumFacts.

Import JS Exact.

Local Open Scope Q_scope.

Lemma fold_sum_acc {A : Type} (f : A -> Q) (xs : list A) (a : Q) :
  List.fold_left (fun s x => s + f x) xs a == a + sumBy f xs.
Proof.
  unfold sumBy. revert a.
  induction xs as [| x xs IH]; intros a; simpl.
  - ring.
  - rewrite (IH (a + f x)), (IH (0 + f x)). ring.
Qed.

Lemma sumBy_nil {A : Type} (f : A -> Q) : sumBy f [] == 0.
Proof. reflexivity. Qed.

Lemma sumBy_cons {A : Type} (f : A -> Q) (x : A) (xs : list A) :
  sumBy f (x :: xs) == f x + sumBy f xs.
Proof. unfold sumBy at 1. simpl. rewrite fold_sum_acc. ring. Qed.

Lemma sumBy_app {A : Type} (f : A -> Q) (xs ys : list A) :
  sumBy f (xs ++ ys) == sumBy f xs + sumBy f ys.
Proof.
  induction xs as [| x xs IH]; simpl.
  - rewrite sumBy_nil. ring.
  - rewrite !sumBy_cons, IH. ring.
Qed.

Lemma sumBy_ext {A : Type} (f g : A -> Q) (xs : list A) :
  (forall x, List.In x xs -> f x == g x) -> sumBy f xs == sumBy g xs.
Proof.
  induction xs as [| x xs IH]; intros H.
  - reflexivity.
  - rewrite !sumBy_cons, IH.
    + now rewrite (H x (or_introl eq_refl)).
    + intros y Hy. apply H. now right.
Qed.

Lemma sumBy_map {A B : Type} (g : A -> B) (f : B -> Q) (xs : list A) :
  sumBy f (List.map g xs) == sumBy (fun x => f (g x)) xs.
Proof.
  induction xs as [| x xs IH]; simpl.
  - reflexivity.
  - now rewrite !sumBy_cons, IH.
Qed.

Lemma sumBy_flat_map {A B : Type} (g : A -> list B) (f : B -> Q)
    (xs : list A) :
  sumBy f (List.flat_map g xs) == sumBy (fun x => sumBy f (g x)) xs.
Proof.
  induction xs as [| x xs IH]; simpl.
  - reflexivity.
  - now rewrite sumBy_app, sumBy_cons, IH.
Qed.

(** Summing group by group gives the sum of the whole list, when the keys
    are pairwise different and cover the list. *)
Lemma sumBy_groups {A : Type} (key : A -> string) (f : A -> Q)
    (ks : list string) (xs : list A) :
  List.NoDup ks ->
  (forall x, List.In x xs -> List.In (key x) ks) ->
  sumBy (fun k => sumBy f (List.filter (fun x => String.eqb (key x) k) xs)) ks
  == sumBy f xs.
Proof.
  intros Hnd. revert xs.
  induction Hnd as [| k ks Hk Hnd IH]; intros xs Hcover.
  - destruct xs as [| x xs]; [reflexivity |].
    destruct (Hcover x (or_introl eq_refl)).
  - rewrite sumBy_cons.
    transitivity
      (sumBy f (List.filter (fun x => String.eqb (key x) k) xs)
       + sumBy f (List.filter (fun x => negb (String.eqb (key x) k)) xs)).
    + apply Qplus_comp; [reflexivity |].
      rewrite <- (IH (List.filter (fun x => negb (String.eqb (key x) k)) xs)).
      * apply sumBy_ext. intros k' Hk'.
        assert (Hne : k' <> k) by (intros ->; contradiction).
        clear - Hne. induction xs as [| x xs IHxs]; simpl; [reflexivity |].
        destruct (String.eqb_spec (key x) k) as [E | E]; simpl.
        -- destruct (String.eqb_spec (key x) k') as [E' | E'];
             [congruence | exact IHxs].
        -- destruct (String.eqb (key x) k'); [| exact IHxs].
           now rewrite !sumBy_cons, IHxs.
      * intros x Hx. apply List.filter_In in Hx as (Hx & Hne).
        destruct (Hcover x Hx) as [E | Hin]; [| exact Hin].
        subst k. rewrite String.eqb_refl in Hne. discriminate.
    + clear. induction xs as [| x xs IHxs]; simpl.
      * rewrite !sumBy_nil. ring.
      * destruct (String.eqb (key x) k); simpl;
          rewrite !sumBy_cons, <- IHxs; ring.
Qed.

End SumFacts.

(** ** The commission calculation *)

Module PhorestFacts.

Import JS Exact Phorest SumFacts.

Lemma existsb_eqb_In (x : string) (l : list string) :
  List.existsb (String.eqb x) l = true <-> List.In x l.
Proof.
  rewrite List.existsb_exists. split.
  - intros (y & Hy & E). apply String.eqb_eq in E. now subst.
  - intros H. exists x. split; [exact H | apply String.eqb_refl].
Qed.

Lemma dedupFrom_In (seen l : list string) (x : string) :
  List.In x (dedupFrom seen l) <-> List.In x l /\ ~ List.In x seen.
Proof.
  revert seen. induction l as [| y l IH]; intros seen; simpl.
  - tauto.
  - destruct (List.existsb (String.eqb y) seen) eqn:E.
    + apply existsb_eqb_In in E. rewrite IH.
      split; [tauto |]. intros ([-> | H] & Hs); [contradiction | tauto].
    + assert (Hy : ~ List.In y seen).
      { intros H. apply existsb_eqb_In in H. congruence. }
      simpl. rewrite IH. simpl.
      destruct (String.eqb_spec y x) as [-> | Hne]; [tauto |].
      split.
      * intros [H | H]; [contradiction | tauto].
      * intros ([H | H] & Hs); [contradiction |]. right. tauto.
Qed.

Lemma dedupFrom_NoDup (seen l : list string) :
  List.NoDup (dedupFrom seen l).
Proof.
  revert seen. induction l as [| y l IH]; intros seen; simpl.
  - constructor.
  - destruct (List.existsb (String.eqb y) seen); [apply IH |].
    constructor; [| apply IH].
    rewrite dedupFrom_In. simpl. tauto.
Qed.

Lemma dedup_In (l : list string) (x : string) :
  List.In x (dedup l) <-> List.In x l.
Proof. unfold dedup. rewrite dedupFrom_In. simpl. tauto. Qed.

Lemma dedup_NoDup (l : list string) : List.NoDup (dedup l).
Proof. apply dedupFrom_NoDup. Qed.

(** Grouping a list by a key and summing the groups. *)
Lemma sumBy_dedup_groups {A : Type} (key : A -> string) (f : A -> Q)
    (xs : list A) :
  (sumBy (fun k => sumBy f (List.filter (fun x => String.eqb (key x) k) xs))
         (dedup (List.map key xs))
   == sumBy f xs)%Q.
Proof.
  apply sumBy_groups; [apply dedup_NoDup |].
  intros x Hx. apply dedup_In. now apply List.in_map.
Qed.

Lemma clientTotal_rollup (clients : list PhorestClient)
    (appts : list PhorestAppointment) (cid : string) :
  (clientTotal (clientRollup clients appts cid)
   == sumBy lineCommission
        (List.filter (fun a => String.eqb (appt_clientId a) cid) appts))%Q.
Proof. unfold clientRollup. simpl. now rewrite sumBy_map. Qed.

Lemma stylistTotal_rollup (clients : list PhorestClient)
    (staffList : list PhorestStaff) (appts : list PhorestAppointment)
    (sid : string) :
  (stylistTotal (stylistRollup clients staffList appts sid)
   == sumBy lineCommission
        (List.filter (fun a => String.eqb (appt_staffId a) sid) appts))%Q.
Proof.
  unfold stylistRollup. simpl. rewrite sumBy_map.
  rewrite <- (sumBy_dedup_groups appt_clientId lineCommission
                (List.filter (fun a => String.eqb (appt_staffId a) sid) appts)).
  apply sumBy_ext. intros cid _. apply clientTotal_rollup.
Qed.

Lemma branchTotal_rollup (clients : list PhorestClient) (s e : string)
    (bd : BranchData) :
  (branchTotal (branchRollup clients s e bd)
   == sumBy lineCommission
        (List.filter (eligible clients s e) (appointments bd)))%Q.
Proof.
  unfold branchRollup. simpl. rewrite sumBy_map.
  rewrite <- (sumBy_dedup_groups appt_staffId lineCommission
                (List.filter (eligible clients s e) (appointments bd))).
  apply sumBy_ext. intros sid _. apply stylistTotal_rollup.
Qed.

(** The service lines of a branch are the lines of its eligible
    appointments. *)
Lemma branchLines_rollup (clients : list PhorestClient) (s e : string)
    (bd : BranchData) (line : ServiceCommission) :
  List.In line (branchLines (branchRollup clients s e bd))
  <-> exists a, List.In a (appointments bd)
                /\ eligible clients s e a = true /\ line = toService a.
Proof.
  unfold branchLines, branchRollup. simpl.
  rewrite List.in_flat_map. split.
  - intros (st & Hst & Hline).
    apply List.in_map_iff in Hst as (sid & <- & _).
    simpl in Hline. apply List.in_flat_map in Hline as (cl & Hcl & Hline).
    apply List.in_map_iff in Hcl as (cid & <- & _).
    simpl in Hline. apply List.in_map_iff in Hline as (a & <- & Ha).
    apply List.filter_In in Ha as (Ha & _).
    apply List.filter_In in Ha as (Ha & _).
    apply List.filter_In in Ha as (Ha & He).
    now exists a.
  - intros (a & Ha & He & ->).
    set (elig := List.filter (eligible clients s e) (appointments bd)).
    assert (Hel : List.In a elig) by (apply List.filter_In; auto).
    exists (stylistRollup clients (staff bd) elig (appt_staffId a)). split.
    + apply List.in_map, dedup_In. now apply List.in_map.
    + simpl. apply List.in_flat_map.
      set (mine := List.filter
                     (fun a0 => String.eqb (appt_staffId a0) (appt_staffId a)) elig).
      assert (Hm : List.In a mine).
      { apply List.filter_In. split; [exact Hel | apply String.eqb_refl]. }
      exists (clientRollup clients mine (appt_clientId a)). split.
      * apply List.in_map, dedup_In. now apply List.in_map.
      * simpl. apply List.in_map, List.filter_In.
        split; [exact Hm | apply String.eqb_refl].
Qed.

(** What eligibility of an appointment means. *)
Lemma eligible_iff (clients : list PhorestClient) (s e : string)
    (a : PhorestAppointment) :
  eligible clients s e a = true
  <-> activationState a <> CANCELED
      /\ deleted a <> Some true
      /\ (exists p, appt_price a = Some p /\ ~ (p == 0)%Q)
      /\ (exists c fv, findClient clients (appt_clientId a) = Some c
                       /\ firstVisit c = Some fv
                       /\ str_le s fv = true /\ str_le fv e = true).
Proof.
  unfold eligible, notCanceledOrDeleted, billedPrice, qualifyingFirstVisit.
  rewrite !andb_true_iff. split.
  - intros (((Hact & Hdel) & Hprice) & Hvisit).
    repeat split.
    + destruct (activationState a); [discriminate.. | discriminate Hact].
    + destruct (deleted a) as [[|] |]; [discriminate Hdel | discriminate..].
    + destruct (appt_price a) as [p |]; [| discriminate].
      exists p. split; [reflexivity |].
      destruct (Qeq_bool p 0) eqn:E; [discriminate |].
      now apply Qeq_bool_neq.
    + destruct (findClient clients (appt_clientId a)) as [c |] eqn:Ec;
        [| discriminate].
      destruct (firstVisit c) as [fv |] eqn:Ef; [| discriminate].
      exists c, fv.
      destruct (str_le s fv) eqn:E1; [| simpl in Hvisit; discriminate Hvisit].
      destruct (str_le fv e) eqn:E2; [| simpl in Hvisit; discriminate Hvisit].
      repeat split; first [reflexivity | assumption].
  - intros (Hact & Hdel & (p & Hp & Hnz) & (c & fv & Hc & Hfv & H1 & H2)).
    rewrite Hp, Hc, Hfv, H1, H2. simpl.
    destruct (Qeq_bool p 0) eqn:E.
    + apply Qeq_bool_eq in E. contradiction.
    + repeat split.
      * destruct (activationState a); [reflexivity.. | contradiction].
      * destruct (deleted a) as [[|] |];
          [contradiction | reflexivity | reflexivity].
Qed.

Lemma Forall2_map_right {A B : Type} (P : A -> B -> Prop) (f : A -> B)
    (l : list A) :
  (forall x, List.In x l -> P x (f x)) -> List.Forall2 P l (List.map f l).
Proof.
  induction l as [| x l IH]; intros H; simpl; constructor.
  - apply H. now left.
  - apply IH. intros y Hy. apply H. now right.
Qed.

Lemma fifth_of_price (l : list PhorestAppointment) :
  (sumBy lineCommission l == sumBy (fun a => priceOf a * (20 # 100)) l)%Q.
Proof.
  apply sumBy_ext. intros a _. unfold lineCommission, COMMISSION_RATE.
  apply Qmult_comp; reflexivity.
Qed.

(** C1. In the result of the commission calculation every service line
    comes from an appointment of its branch and has commission = price * 0.20;
    the lines are exactly those of the appointments that are neither
    canceled nor deleted, have a price that is neither null nor zero, and
    whose client has a first-visit date inside [startDate, endDate].  Every
    total is the sum of price * 0.20 over exactly these appointments: the
    total of the result over those of all branches, the total of a branch
    over those of the branch, the total of a stylist over those of the
    stylist in the branch, the total of a client over those of the client
    with the stylist; and [totalNewClients] is the number of different
    clients of these appointments.  So nothing else contributes to any
    total. *)
Theorem commission_is_a_fifth_of_eligible_prices (stamp : string)
    (branchDataList : list BranchData) (clients : list PhorestClient)
    (startDate endDate : string) :
  let r := calculateCommissions stamp branchDataList clients startDate endDate
  in
  let fifth := fun a => (priceOf a * (20 # 100))%Q in
  let counted := fun bd =>
    List.filter (eligible clients startDate endDate) (appointments bd) in
  (forall line, List.In line (resultLines r) ->
                (commission line == price line * (20 # 100))%Q)
  /\ (forall line,
        List.In line (resultLines r)
        <-> exists bd a,
              List.In bd branchDataList /\ List.In a (appointments bd)
              /\ line = toService a
              /\ activationState a <> CANCELED
              /\ deleted a <> Some true
              /\ (exists p, appt_price a = Some p /\ ~ (p == 0)%Q)
              /\ (exists c fv,
                    findClient clients (appt_clientId a) = Some c
                    /\ firstVisit c = Some fv
                    /\ str_le startDate fv = true
                    /\ str_le fv endDate = true))
  /\ (totalCommission r
      == sumBy fifth (List.flat_map counted branchDataList))%Q
  /\ List.Forall2
       (fun bd b =>
          branch_branchId b = branchId (branch bd)
          /\ (branchTotal b == sumBy fifth (counted bd))%Q
          /\ forall st, List.In st (stylists b) ->
               let ofStylist :=
                 List.filter (fun a => String.eqb (appt_staffId a)
                                                  (stylist_staffId st))
                             (counted bd) in
               (stylistTotal st == sumBy fifth ofStylist)%Q
               /\ forall cl, List.In cl (Phorest.clients st) ->
                    (clientTotal cl
                     == sumBy fifth
                          (List.filter
                             (fun a => String.eqb (appt_clientId a)
                                                  (client_clientId cl))
                             ofStylist))%Q)
       branchDataList (branches r)
  /\ (exists ids,
        List.NoDup ids
        /\ (forall cid,
              List.In cid ids
              <-> exists bd a, List.In bd branchDataList
                               /\ List.In a (counted bd)
                               /\ appt_clientId a = cid)
        /\ totalNewClients r = Z.of_nat (List.length ids)).
Proof.
  intros r fifth counted.
  assert (Hlines : forall line,
    List.In line (resultLines r)
    <-> exists bd a, List.In bd branchDataList /\ List.In a (appointments bd)
                     /\ eligible clients startDate endDate a = true
                     /\ line = toService a).
  { intros line. unfold resultLines, r, calculateCommissions. simpl.
    rewrite List.in_flat_map. split.
    - intros (b & Hb & Hline).
      apply List.in_map_iff in Hb as (bd & <- & Hbd).
      apply branchLines_rollup in Hline as (a & Ha & He & ->).
      now exists bd, a.
    - intros (bd & a & Hbd & Ha & He & ->).
      exists (branchRollup clients startDate endDate bd). split.
      + now apply List.in_map.
      + apply branchLines_rollup. now exists a. }
  split; [| split; [| split; [| split]]].
  - intros line Hline. apply Hlines in Hline as (bd & a & _ & _ & _ & ->).
    simpl. unfold COMMISSION_RATE. apply Qmult_comp; reflexivity.
  - intros line. rewrite Hlines. split.
    + intros (bd & a & Hbd & Ha & He & ->).
      apply eligible_iff in He. exists bd, a. tauto.
    + intros (bd & a & Hbd & Ha & -> & He).
      exists bd, a. repeat split; try assumption.
      apply eligible_iff. tauto.
  - unfold r, calculateCommissions. simpl.
    rewrite sumBy_map, sumBy_flat_map.
    apply sumBy_ext. intros bd _. rewrite branchTotal_rollup.
    apply fifth_of_price.
  - unfold r, calculateCommissions. cbn [branches].
    apply Forall2_map_right. intros bd _. cbv beta.
    split; [reflexivity |]. split.
    + rewrite branchTotal_rollup. apply fifth_of_price.
    + intros st Hst. cbv zeta.
      unfold branchRollup in Hst. cbn [stylists] in Hst.
      apply List.in_map_iff in Hst as (sid & <- & _).
      cbn [stylist_staffId stylistRollup]. split.
      * rewrite stylistTotal_rollup. apply fifth_of_price.
      * intros cl Hcl. cbn [Phorest.clients] in Hcl.
        apply List.in_map_iff in Hcl as (cid & <- & _).
        cbn [client_clientId clientRollup].
        rewrite clientTotal_rollup. apply fifth_of_price.
  - exists (dedup (List.map appt_clientId (List.flat_map counted branchDataList))).
    split; [apply dedup_NoDup |]. split; [| reflexivity].
    intros cid. rewrite dedup_In, List.in_map_iff. split.
    + intros (a & <- & Ha). apply List.in_flat_map in Ha as (bd & Hbd & Ha).
      now exists bd, a.
    + intros (bd & a & Hbd & Ha & <-). exists a. split; [reflexivity |].
      apply List.in_flat_map. now exists bd.
Qed.

(** Witness of C1: the sample branch.  Of its five appointments only "a1"
    is eligible (client c1 first came on 2026-01-15; "a2" belongs to a
    client who first came in 2025, "a3" is canceled, "a4" has no price,
    "a5" belongs to a client without first-visit date); its line is 20% of
    50. *)
Lemma commission_witness :
  List.In (toService (CommissionRouteSpec.sampleAppointment
                        "a1" "c1" (Some 50%Q) ACTIVE))
          (resultLines CommissionRouteSpec.sampleResult)
  /\ List.map appointmentId (resultLines CommissionRouteSpec.sampleResult)
     = ["a1"]
  /\ (commission (toService (CommissionRouteSpec.sampleAppointment
                               "a1" "c1" (Some 50%Q) ACTIVE))
      == 50 * (20 # 100))%Q
  /\ (totalCommission CommissionRouteSpec.sampleResult == 10)%Q.
Proof.
  assert (Hin : List.In (toService (CommissionRouteSpec.sampleAppointment
                                      "a1" "c1" (Some 50%Q) ACTIVE))
                        (resultLines CommissionRouteSpec.sampleResult))
    by (left; reflexivity).
  split; [exact Hin |]. split; [reflexivity |]. split.
  - exact (proj1 (commission_is_a_fifth_of_eligible_prices
                    "2026-01-01T00:00:00.000Z"
                    [ {| branch := CommissionRouteSpec.sampleBranch;
                         staff := [CommissionRouteSpec.sampleStaff];
                         appointments :=
                           CommissionRouteSpec.sampleAppointments |} ]
                    CommissionRouteSpec.sampleClients
                    "2026-01-01" "2026-01-31") _ Hin).
  - vm_compute. reflexivity.
Defined.

End PhorestFacts.

(** ** The kiosk *)

Module TimeClockKioskFacts.

Import JS TimeClock TimeClockKiosk TimeClockSamples.

Lemma find_none_filter_nil {A : Type} (p : A -> bool) (l : list A) :
  List.find p l = None -> List.filter p l = [].
Proof.
  induction l as [| x l IH]; simpl; [reflexivity |].
  destruct (p x); [discriminate | exact IH].
Qed.

(** Clocking in adds one open entry for the employee and none for the
    others. *)
Lemma openCount_clockIn (es : list TCTimeEntry) (newId emp : string) (now : Z)
    (other : string) :
  openCount (clockIn es newId emp now) other
  = (if String.eqb emp other then S (openCount es other)
     else openCount es other).
Proof.
  unfold openCount, clockIn, isOpenFor. simpl.
  destruct (String.eqb emp other); reflexivity.
Qed.

(** Clocking out never opens an entry. *)
Lemma openCount_clockOut (es : list TCTimeEntry) (entryId : string) (now : Z)
    (emp : string) :
  (openCount (clockOut es entryId now) emp <= openCount es emp)%nat.
Proof.
  unfold openCount, clockOut.
  induction es as [| e es IH]; simpl; [lia |].
  destruct (String.eqb (entry_id e) entryId).
  - unfold isOpenFor at 1. simpl. rewrite andb_false_r.
    destruct (isOpenFor emp e); simpl; lia.
  - destruct (isOpenFor emp e); simpl; lia.
Qed.

(** With a current snapshot a kiosk action keeps the convention. *)
Lemma step_keeps_convention_when_current (a : Action) (k k' : Kiosk) :
  atMostOneOpen (entries k) -> snapshotCurrent k -> step a k = Some k' ->
  atMostOneOpen (entries k').
Proof.
  intros Hinv Hcur. unfold step.
  destruct (offered a k) eqn:Hoff; [| discriminate].
  intros H; injection H as <-.
  destruct a; simpl; try exact Hinv.
  - destruct k0; simpl; try exact Hinv.
    destruct (String.length (employeeNumber k) <? 4)%nat; exact Hinv.
  - unfold handleSubmitNumber.
    destruct (findByNumber (employees k) (employeeNumber k)); exact Hinv.
  - unfold handleConfirmYes. destruct (matchedEmployee k); exact Hinv.
  - unfold handleClockIn. unfold offered in Hoff. unfold snapshotCurrent in Hcur.
    destruct (screen k); try discriminate.
    destruct (matchedEmployee k) as [emp |]; [| exact Hinv].
    simpl in *. destruct (openEntry k); [discriminate |].
    intros other. rewrite openCount_clockIn.
    destruct (String.eqb_spec (emp_id emp) other) as [<- | Hne];
      [| apply Hinv].
    unfold openCount. symmetry in Hcur.
    rewrite (find_none_filter_nil _ _ Hcur). simpl. lia.
  - unfold handleClockOut. destruct (openEntry k) as [oe |]; [| exact Hinv].
    simpl. intros emp.
    eapply Nat.le_trans; [apply openCount_clockOut | apply Hinv].
Qed.

(** The Yes button takes a current snapshot. *)
Lemma confirmYes_snapshot_current (k : Kiosk) :
  snapshotCurrent (handleConfirmYes k).
Proof.
  unfold handleConfirmYes, snapshotCurrent.
  destruct (matchedEmployee k) as [emp |] eqn:E; simpl; [reflexivity |].
  now rewrite E.
Qed.

(** C7, at the failing input. From a kiosk where nobody is clocked in, the
    action sequence [doubleClockIn] is accepted step by step and ends with
    two open entries for the same employee: after the first Clock In the
    action screen still shows Clock In, because [openEntry] is the snapshot
    taken by the Yes button. *)
Theorem double_clock_in_opens_two_entries :
  atMostOneOpen (entries idleKiosk)
  /\ exists k,
       run doubleClockIn idleKiosk = Some k
       /\ offered (ClickClockIn "entry-3" 1767600002000) k = true
       /\ openCount (entries k) "emp-ann" = 2%nat
       /\ ~ atMostOneOpen (entries k).
Proof.
  split.
  - intros emp. unfold openCount, idleKiosk. simpl. lia.
  - eexists. split; [vm_compute; reflexivity |].
    split; [reflexivity |]. split; [reflexivity |].
    intros H. specialize (H "emp-ann"). vm_compute in H. lia.
Qed.

End TimeClockKioskFacts.

(** ** Dates *)

Module JSDateFacts.

Import JSDate.

Ltac by_division :=
  unfold msPerDay in *; Z.to_euclidean_division_equations; lia.

Ltac split_offsets :=
  repeat match goal with
         | H : context [if ?a <? ?b then _ else _] |- _ =>
             destruct (Z.ltb_spec a b)
         | |- context [if ?a <? ?b then _ else _] =>
             destruct (Z.ltb_spec a b)
         end.

(** A zone without clock changes has whole days, and so has New York with
    its two clock changes of 2026. *)
Lemma fixedOffset_wholeDays (off : Z) : wholeDays (fixedOffset off).
Proof.
  unfold wholeDays, localDay, midnight, lastMs, LocalTime, UTC, fixedOffset.
  cbn [offsetAt offsetOfLocal].
  split; [| split; [| split; [| split]]].
  - intros D. lia.
  - intros D. lia.
  - intros x. f_equal. lia.
  - intros t D. split; intros H; by_division.
  - intros D. lia.
Qed.

Lemma newYork2026_wholeDays : wholeDays newYork2026.
Proof.
  unfold wholeDays, localDay, midnight, lastMs, LocalTime, UTC, newYork2026,
    springForward, fallBack, msPerHour.
  cbn [offsetAt offsetOfLocal].
  split; [| split; [| split; [| split]]].
  - intros D. unfold msPerDay. split_offsets; lia.
  - intros D. unfold msPerDay. split_offsets; lia.
  - intros x. split_offsets; by_division.
  - intros t D. split.
    + intros <-. split; split_offsets; by_division.
    + intros H. split_offsets; by_division.
  - intros D. unfold msPerDay. split_offsets; lia.
Qed.

Section LocalTime.

Variable tz : TimeZone.
Hypothesis Hwhole : wholeDays tz.

Lemma localDay_midnight (D : Z) : localDay tz (midnight tz D) = D.
Proof.
  destruct Hwhole as (_ & _ & H & _). unfold midnight. rewrite H.
  apply Z.div_mul. discriminate.
Qed.


Lemma localDay_addDays (t n : Z) :
  localDay tz (addDays tz t n) = localDay tz t + n.
Proof.
  destruct Hwhole as (_ & _ & H & _). unfold addDays. rewrite H.
  unfold localDay. apply Z.div_add. discriminate.
Qed.

(** Whole days after a midnight is a midnight, and likewise for the last
    millisecond of a day. *)
Lemma addDays_midnight (D n : Z) :
  addDays tz (midnight tz D) n = midnight tz (D + n).
Proof.
  destruct Hwhole as (H & _). unfold addDays. rewrite H.
  unfold midnight. f_equal. ring.
Qed.

Lemma addDays_lastMs (D n : Z) :
  addDays tz (lastMs tz D) n = lastMs tz (D + n).
Proof.
  destruct Hwhole as (_ & H & _). unfold addDays. rewrite H.
  unfold lastMs. f_equal. ring.
Qed.

Lemma midnight_le_lastMs (D : Z) : midnight tz D <= lastMs tz D.
Proof.
  destruct Hwhole as (_ & _ & _ & H & _).
  pose proof (proj1 (H (midnight tz D) D) (localDay_midnight D)). lia.
Qed.

Lemma lastMs_next (D : Z) : lastMs tz D + 1 = midnight tz (D + 1).
Proof. destruct Hwhole as (_ & _ & _ & _ & H). apply H. Qed.

(** Later days start later. *)
Lemma midnight_mono (D D' : Z) :
  D <= D' -> midnight tz D <= midnight tz D'.
Proof.
  intros H. replace D' with (D + Z.of_nat (Z.to_nat (D' - D))) by lia.
  induction (Z.to_nat (D' - D)) as [| k IH].
  - rewrite Z.add_0_r. lia.
  - pose proof (midnight_le_lastMs (D + Z.of_nat k)).
    pose proof (lastMs_next (D + Z.of_nat k)).
    replace (D + Z.of_nat (S k)) with (D + Z.of_nat k + 1) by lia. lia.
Qed.

(** The instants from the first millisecond of day [D] to the last one of
    day [D'] are those of the local days [D] to [D']. *)
Lemma between_days (D D' c : Z) :
  midnight tz D <= c <= lastMs tz D' <-> D <= localDay tz c <= D'.
Proof.
  destruct Hwhole as (_ & _ & _ & Hday & _).
  pose proof (proj1 (Hday c (localDay tz c)) eq_refl) as Hc.
  pose proof (lastMs_next (localDay tz c)) as Hn.
  pose proof (lastMs_next D') as Hn'.
  split.
  - intros H. split.
    + destruct (Z.le_gt_cases D (localDay tz c)) as [Hle | Hgt]; [exact Hle |].
      pose proof (midnight_mono (localDay tz c + 1) D ltac:(lia)). lia.
    + destruct (Z.le_gt_cases (localDay tz c) D') as [Hle | Hgt]; [exact Hle |].
      pose proof (midnight_mono (D' + 1) (localDay tz c) ltac:(lia)). lia.
  - intros (H1 & H2).
    pose proof (midnight_mono D (localDay tz c) H1).
    pose proof (midnight_mono (localDay tz c + 1) (D' + 1) ltac:(lia)). lia.
Qed.

End LocalTime.

End JSDateFacts.

(** ** The reports *)

Module TimeClockReportsFacts.

Import JS JSDate TimeClock TimeClockReports TimeClockReportsSpec.
Import JSDateFacts.

Lemma num_gt_iff (x y : Q) : num_gt x y = true <-> (y < x)%Q.
Proof.
  unfold num_gt. rewrite negb_true_iff. split.
  - intros H. apply Qnot_le_lt. intros Hle.
    apply Qle_bool_iff in Hle. congruence.
  - intros H. destruct (Qle_bool x y) eqn:E; [| reflexivity].
    apply Qle_bool_iff in E. exfalso. exact (Qlt_not_le _ _ H E).
Qed.

Lemma filter_filter {A : Type} (p q : A -> bool) (l : list A) :
  List.filter p (List.filter q l) = List.filter (fun x => q x && p x) l.
Proof.
  induction l as [| x l IH]; simpl; [reflexivity |].
  destruct (q x); simpl; [destruct (p x) |]; now rewrite IH.
Qed.

Lemma weekDay_cases (i : Z) :
  0 <= i < 7 -> i = 0 \/ i = 1 \/ i = 2 \/ i = 3 \/ i = 4 \/ i = 5 \/ i = 6.
Proof. lia. Qed.

Lemma nth_weekDays {B : Type} (f : Z -> B) (d : B) (i : Z) :
  0 <= i < 7 -> List.nth (Z.to_nat i) (List.map f weekDays) d = f i.
Proof.
  intros Hi.
  destruct (weekDay_cases i Hi)
    as [-> | [-> | [-> | [-> | [-> | [-> | ->]]]]]]; reflexivity.
Qed.

Section Reports.

Variable tz : TimeZone.
Hypothesis Hwhole : wholeDays tz.
Variable employees : list TCEmployee.
Variable entries : list TCTimeEntry.
Variable overtime : TCOvertimeSettings.
Variable now : Z.

Local Abbreviation hoursOnDays' := (hoursOnDays tz entries now).

(** The test [ci >= lo && ci <= hi] between the first millisecond of day
    [D] and the last one of day [D'] is a test on the local day. *)
Lemma between_local_days (D D' c : Z) :
  between (midnight tz D) (lastMs tz D') c
  = (D <=? localDay tz c) && (localDay tz c <=? D').
Proof.
  pose proof (between_days tz Hwhole D D' c) as H. unfold between.
  destruct (Z.leb_spec (midnight tz D) c);
    destruct (Z.leb_spec c (lastMs tz D'));
    destruct (Z.leb_spec D (localDay tz c));
    destruct (Z.leb_spec (localDay tz c) D'); cbn [andb];
    try reflexivity; exfalso; lia.
Qed.

(** The week of [getWeekRange]: from the first millisecond of the Monday on
    or before the local day of the date to the last millisecond of the
    Sunday after it. *)
Lemma getWeekRange_monday (date : Z) :
  let monday := localDay tz date - (localDay tz date + 3) mod 7 in
  getWeekRange tz date = (midnight tz monday, lastMs tz (monday + 6))
  /\ getDay tz (midnight tz monday) = 1
  /\ monday <= localDay tz date <= monday + 6.
Proof.
  intros monday. unfold getWeekRange.
  set (day := getDay tz date).
  set (k := - day + (if day =? 0 then -6 else 1)).
  assert (Hk : localDay tz date + k = monday).
  { subst k day monday. unfold getDay. generalize (localDay tz date).
    intros L. destruct (Z.eqb_spec ((L + 4) mod 7) 0);
      Z.to_euclidean_division_equations; lia. }
  assert (Hstart : startOfDay tz (addDays tz date k) = midnight tz monday).
  { unfold startOfDay. now rewrite (localDay_addDays tz Hwhole), Hk. }
  rewrite Hstart. split; [| split].
  - f_equal. unfold endOfDay.
    now rewrite (addDays_midnight tz Hwhole), (localDay_midnight tz Hwhole).
  - unfold getDay. rewrite (localDay_midnight tz Hwhole). subst monday.
    generalize (localDay tz date). intros L.
    Z.to_euclidean_division_equations; lia.
  - subst monday. generalize (localDay tz date). intros L.
    Z.to_euclidean_division_equations; lia.
Qed.

(** Inside the week that starts on local day [monday], the entries of day
    [i] of an employee's week entries are the employee's entries of that
    local day. *)
Lemma dayTotal_week (employeeId : string) (monday i : Z) :
  0 <= i < 7 ->
  dayTotal tz now
    (List.filter (fun e => String.eqb (employee_id e) employeeId
                           && between (midnight tz monday)
                                      (lastMs tz (monday + 6)) (clock_in e))
                 entries)
    (midnight tz monday) i
  = hoursOnDays' employeeId (monday + i) (monday + i).
Proof.
  intros Hi. unfold dayTotal, hoursOnDays, entriesOnDays. f_equal.
  rewrite filter_filter. apply List.filter_ext. intros e.
  unfold startOfDay, endOfDay.
  rewrite (addDays_midnight tz Hwhole), (localDay_midnight tz Hwhole).
  rewrite !between_local_days.
  destruct (String.eqb (employee_id e) employeeId); cbn [andb];
    [| reflexivity].
  destruct (Z.leb_spec monday (localDay tz (clock_in e)));
    destruct (Z.leb_spec (localDay tz (clock_in e)) (monday + 6));
    destruct (Z.leb_spec (monday + i) (localDay tz (clock_in e)));
    destruct (Z.leb_spec (localDay tz (clock_in e)) (monday + i));
    cbn [andb]; try reflexivity; exfalso; lia.
Qed.

(** A row of the weekly summary, day by day. *)
Lemma weeklyRow_days (monday : Z) (employee : TCEmployee) :
  let row := weeklyRow tz entries overtime now (midnight tz monday)
               (lastMs tz (monday + 6)) employee in
  dailyHours row
  = List.map (fun i => Number.round2 (hoursOnDays' (emp_id employee)
                                        (monday + i) (monday + i))) weekDays
  /\ dailyOvertimeFlags row
     = List.map (fun i => Number.gt (hoursOnDays' (emp_id employee)
                                       (monday + i) (monday + i))
                                    (daily_threshold overtime)) weekDays.
Proof.
  unfold weeklyRow. cbn [dailyHours dailyOvertimeFlags].
  split; apply List.map_ext_in; intros i Hi;
    rewrite (dayTotal_week (emp_id employee) monday i);
    try reflexivity;
    unfold weekDays in Hi; simpl in Hi; lia.
Qed.

(** Rows of the daily log: the employee of a row owns its entry, and the
    flag compares the hours of the employee's entries of the local day. *)
Lemma getDailyEntries_row (date : Z) (row : TCDailyEntry) :
  List.In row (getDailyEntries tz employees entries overtime now date) ->
  emp_id (de_employee row) = employee_id (de_entry row)
  /\ de_isOvertime row
     = Number.gt (hoursOnDays' (employee_id (de_entry row))
                    (localDay tz date) (localDay tz date))
                 (daily_threshold overtime).
Proof.
  unfold getDailyEntries. intros H.
  apply List.in_flat_map in H as (entry & _ & H).
  destruct (List.find _ employees) as [employee |] eqn:E; [| destruct H].
  destruct H as [<- | []]. cbn [de_employee de_entry de_isOvertime].
  apply List.find_some in E as (_ & E). apply String.eqb_eq in E.
  split; [exact E |].
  unfold hoursOnDays, entriesOnDays. do 2 f_equal.
  apply List.filter_ext. intros e. unfold startOfDay, endOfDay.
  now rewrite between_local_days.
Qed.

(** C8, amended. In a time zone whose clock changes do not touch midnight,
    for every row of a weekly summary, with the week starting on the Monday
    of [getWeekRange]: the flag of day [i] is set exactly when the hours of
    the employee's entries clocked in on that local day, added up in double
    precision in the order of the entries (open entries counted up to now),
    strictly exceed [daily_threshold]; the hours shown for the day are that
    sum rounded to two decimals; and the weekly flag is set exactly when the
    sum of the seven rounded daily totals, added up in double precision,
    strictly exceeds [weekly_threshold].  For every row of a daily log, the
    overtime flag is set exactly when the hours of the employee's entries
    clocked in on that local day, added up in the same way, strictly exceed
    [daily_threshold]. *)
Theorem overtime_flags_follow_thresholds (weekStart date : Z) :
  (forall row,
      List.In row (getWeeklySummary tz employees entries overtime now weekStart)
      ->
      let start := fst (getWeekRange tz weekStart) in
      let monday := localDay tz start in
      let employeeId := emp_id (ws_employee row) in
      getDay tz start = 1
      /\ monday <= localDay tz weekStart <= monday + 6
      /\ List.length (dailyHours row) = 7%nat
      /\ List.length (dailyOvertimeFlags row) = 7%nat
      /\ (forall i, 0 <= i < 7 ->
            List.nth (Z.to_nat i) (dailyOvertimeFlags row) false
            = Number.gt (hoursOnDays' employeeId (monday + i) (monday + i))
                        (daily_threshold overtime)
            /\ List.nth (Z.to_nat i) (dailyHours row) (Number.ofZ 0)
               = Number.round2
                   (hoursOnDays' employeeId (monday + i) (monday + i)))
      /\ isWeeklyOvertime row
         = Number.gt (Number.sumBy (fun h => h) (dailyHours row))
                     (weekly_threshold overtime))
  /\ (forall row,
        List.In row (getDailyEntries tz employees entries overtime now date)
        -> de_isOvertime row
           = Number.gt (hoursOnDays' (emp_id (de_employee row))
                          (localDay tz date) (localDay tz date))
                       (daily_threshold overtime)).
Proof.
  split.
  - intros row Hrow start monday employeeId.
    destruct (getWeekRange_monday weekStart) as (Hrange & Hmon & Hin).
    unfold getWeeklySummary in Hrow. subst start monday.
    rewrite Hrange in *. cbn [fst snd] in *.
    rewrite (localDay_midnight tz Hwhole).
    set (monday := localDay tz weekStart - (localDay tz weekStart + 3) mod 7)
      in *.
    apply List.in_map_iff in Hrow as (employee & <- & _).
    destruct (weeklyRow_days monday employee) as (Hhours & Hflags).
    split; [exact Hmon |]. split; [exact Hin |].
    split; [reflexivity |]. split; [reflexivity |]. split.
    + intros i Hi. rewrite Hflags, Hhours, !nth_weekDays by exact Hi.
      split; reflexivity.
    + reflexivity.
  - intros row Hrow.
    destruct (getDailyEntries_row date row Hrow) as (Hid & Hflag).
    now rewrite Hflag, Hid.
Qed.

End Reports.

(** Witness of C8: Ann's row for the week of New York in which the clocks
    go forward; her nine hours of Sunday 8 March are over the daily
    threshold. *)
Lemma overtime_flags_witness :
  let row :=
    weeklyRow newYork2026 TimeClockSamples.marchSunday
      TimeClockSamples.defaultOvertime 0
      (fst (getWeekRange newYork2026 TimeClockSamples.aMarchWednesday))
      (snd (getWeekRange newYork2026 TimeClockSamples.aMarchWednesday))
      TimeClockSamples.ann in
  wholeDays newYork2026
  /\ List.In row
       (getWeeklySummary newYork2026 [TimeClockSamples.ann]
          TimeClockSamples.marchSunday TimeClockSamples.defaultOvertime 0
          TimeClockSamples.aMarchWednesday)
  /\ snd (getWeekRange newYork2026 TimeClockSamples.aMarchWednesday)
     = 1773028799999
  /\ List.nth 6 (dailyOvertimeFlags row) false = true
  /\ isWeeklyOvertime row
     = Number.gt (Number.sumBy (fun h => h) (dailyHours row))
                 (Number.ofZ 40).
Proof.
  intros row.
  assert (Hin : List.In row
    (getWeeklySummary newYork2026 [TimeClockSamples.ann]
       TimeClockSamples.marchSunday TimeClockSamples.defaultOvertime 0
       TimeClockSamples.aMarchWednesday))
    by (left; reflexivity).
  split; [exact newYork2026_wholeDays |].
  split; [exact Hin |]. split; [reflexivity |]. split; [reflexivity |].
  destruct (proj1 (overtime_flags_follow_thresholds newYork2026
                     newYork2026_wholeDays [TimeClockSamples.ann]
                     TimeClockSamples.marchSunday
                     TimeClockSamples.defaultOvertime 0
                     TimeClockSamples.aMarchWednesday 0) row Hin)
    as (_ & _ & _ & _ & _ & H).
  exact H.
Defined.

(** Counterexample to C8 as stated: five shifts of 8.004 hours make 40.02
    hours in the week, more than the threshold of 40, and the weekly flag
    is not set, because each day enters the sum as 8.00. *)
Lemma weekly_flag_counterexample :
  ~ weeklyFlagOnExactHours TimeClockSamples.utc [TimeClockSamples.ann]
      TimeClockSamples.fiveShifts TimeClockSamples.defaultOvertime 0
      TimeClockSamples.aWednesday.
Proof.
  intros H.
  specialize (H (weeklyRow TimeClockSamples.utc TimeClockSamples.fiveShifts
                   TimeClockSamples.defaultOvertime 0
                   (fst (getWeekRange TimeClockSamples.utc
                           TimeClockSamples.aWednesday))
                   (snd (getWeekRange TimeClockSamples.utc
                           TimeClockSamples.aWednesday))
                   TimeClockSamples.ann)
                (or_introl eq_refl)).
  destruct H as [_ H].
  assert (Hflag : isWeeklyOvertime
            (weeklyRow TimeClockSamples.utc TimeClockSamples.fiveShifts
               TimeClockSamples.defaultOvertime 0
               (fst (getWeekRange TimeClockSamples.utc
                       TimeClockSamples.aWednesday))
               (snd (getWeekRange TimeClockSamples.utc
                       TimeClockSamples.aWednesday))
               TimeClockSamples.ann) = false) by (vm_compute; reflexivity).
  rewrite Hflag in H. discriminate H.
  vm_compute. reflexivity.
Qed.

(** The sums are those of the doubles: three entries of 3 h 04 min,
    4 h 38 min and 18 min make eight hours exactly, their hours add up to
    8.000000000000002, and the day is flagged against a threshold of 8. *)
Lemma eight_hours_in_three_entries_are_flagged :
  (exactHoursBetween TimeClockSamples.eightHours 0 "emp-ann"
     (startOfDay TimeClockSamples.utc TimeClockSamples.aWednesday)
     (endOfDay TimeClockSamples.utc TimeClockSamples.aWednesday) == 8)%Q
  /\ List.map de_isOvertime
       (getDailyEntries TimeClockSamples.utc [TimeClockSamples.ann]
          TimeClockSamples.eightHours TimeClockSamples.defaultOvertime 0
          TimeClockSamples.aWednesday)
     = [true; true; true].
Proof. split; vm_compute; reflexivity. Qed.

End TimeClockReportsFacts.

(** ** The monthly summary *)

Module TimeClockMonthlyFacts.

Import JS JSDate TimeClock TimeClockReports TimeClockReportsSpec.
Import JSDateFacts TimeClockReportsFacts.



Section Monthly.

Variable tz : TimeZone.
Hypothesis Hwhole : wholeDays tz.


(** An instant is not before the first millisecond of a day exactly when
    its local day is not before that day. *)
Lemma midnight_le_iff (D c : Z) :
  midnight tz D <= c <-> D <= localDay tz c.
Proof.
  pose proof (between_days tz Hwhole D (localDay tz c) c) as H.
  pose proof (between_days tz Hwhole (localDay tz c) (localDay tz c) c) as H'.
  split; intros Hle; [apply H | apply H]; lia.
Qed.


(** The first week starts at the first millisecond of the Monday on or
    before the first day of the month. *)
Lemma firstWeekStart_monday (year month : Z) :
  let first := civilDay year month 1 in
  let monday := first - (first + 3) mod 7 in
  firstWeekStart tz year month = midnight tz monday
  /\ getDay tz (midnight tz monday) = 1
  /\ monday <= first < monday + 7.
Proof.
  intros first monday. unfold firstWeekStart, monthStartOf, newDate.
  fold first. rewrite (addDays_midnight tz Hwhole).
  unfold getDay. rewrite !(localDay_midnight tz Hwhole).
  subst monday. generalize first. clear first. intros F.
  split; [f_equal | split];
    destruct (Z.eqb_spec ((F + 4) mod 7) 0);
    Z.to_euclidean_division_equations; lia.
Qed.

(** The loop, started at the first millisecond of local day [D] with enough
    fuel: week [k] runs from the first millisecond of day [D + 7 k] to the
    last one of day [D + 7 k + 6]; its start is not after [monthEnd]; the
    week after the last one would start after [monthEnd]. *)
Lemma weeksLoop_spec (fuel : nat) (D monthEnd : Z) :
  localDay tz monthEnd - D < 7 * Z.of_nat fuel ->
  let ws := weeksLoop tz fuel (midnight tz D) monthEnd in
  (forall k w, List.nth_error ws k = Some w ->
               w = (midnight tz (D + 7 * Z.of_nat k),
                    lastMs tz (D + 7 * Z.of_nat k + 6))
               /\ midnight tz (D + 7 * Z.of_nat k) <= monthEnd)
  /\ monthEnd < midnight tz (D + 7 * Z.of_nat (List.length ws)).
Proof.
  revert D. induction fuel as [| fuel IH]; intros D Hfuel; simpl.
  - split; [intros [| k] w H; discriminate |].
    rewrite Z.add_0_r.
    pose proof (midnight_le_iff D monthEnd). simpl in Hfuel. lia.
  - destruct (Z.leb_spec (midnight tz D) monthEnd) as [Hle | Hgt].
    + rewrite (addDays_midnight tz Hwhole D 7).
      assert (Hfuel' : localDay tz monthEnd - (D + 7) < 7 * Z.of_nat fuel)
        by lia.
      destruct (IH (D + 7) Hfuel') as (IHa & IHb).
      split.
      * intros [| k] w H; simpl in H.
        -- injection H as <-. rewrite Z.add_0_r. split; [| exact Hle].
           f_equal. unfold endOfDay.
           now rewrite (addDays_midnight tz Hwhole),
                       (localDay_midnight tz Hwhole).
        -- destruct (IHa k w H) as (-> & Hk).
           replace (D + 7 * Z.of_nat (S k)) with (D + 7 + 7 * Z.of_nat k)
             by lia.
           split; [reflexivity | exact Hk].
      * cbn [List.length].
        replace (D + 7 * Z.of_nat (S (List.length
                   (weeksLoop tz fuel (midnight tz (D + 7)) monthEnd))))
          with (D + 7 + 7 * Z.of_nat (List.length
                   (weeksLoop tz fuel (midnight tz (D + 7)) monthEnd)))
          by lia.
        exact IHb.
    + split; [intros [| k] w H; discriminate |].
      simpl. rewrite Z.add_0_r. exact Hgt.
Qed.

Lemma weeksFuel_enough (D monthEnd : Z) :
  localDay tz monthEnd - D
  < 7 * Z.of_nat (weeksFuel tz (midnight tz D) monthEnd).
Proof.
  unfold weeksFuel. rewrite (localDay_midnight tz Hwhole).
  destruct (Z.le_gt_cases 0 (localDay tz monthEnd - D)) as [H | H].
  - rewrite Z2Nat.id; Z.to_euclidean_division_equations; lia.
  - pose proof (Nat2Z.is_nonneg
                  (Z.to_nat ((localDay tz monthEnd - D) / 7 + 1))). lia.
Qed.

(** The weeks of a month. *)
Lemma monthWeeks_spec (year month : Z) :
  let first := civilDay year month 1 in
  let monday := first - (first + 3) mod 7 in
  let weeks := monthWeeks tz year month in
  (forall k w, List.nth_error weeks k = Some w ->
     w = (midnight tz (monday + 7 * Z.of_nat k),
          lastMs tz (monday + 7 * Z.of_nat k + 6))
     /\ midnight tz (monday + 7 * Z.of_nat k) <= monthEndOf tz year month)
  /\ monthEndOf tz year month
     < midnight tz (monday + 7 * Z.of_nat (List.length weeks)).
Proof.
  intros first monday weeks. subst weeks. unfold monthWeeks.
  destruct (firstWeekStart_monday year month) as (-> & _).
  fold first. fold monday.
  exact (weeksLoop_spec _ _ _ (weeksFuel_enough _ _)).
Qed.


End Monthly.




End TimeClockMonthlyFacts.

(** ** The envelope workflow *)

Module SignedToSealedFacts.

Import JS SignedToSealed SignedToSealedSpec.

Lemma single_some {A : Type} (rows : list A) (x : A) :
  single rows = Some x <-> rows = [x].
Proof.
  destruct rows as [| y [| z rows]]; simpl; split; intros H;
    try discriminate; congruence.
Qed.

Lemma filter_singleton_find {A : Type} (p : A -> bool) (l : list A) (x : A) :
  List.filter p l = [x] -> List.find p l = Some x.
Proof.
  induction l as [| y l IH]; simpl; [discriminate |].
  destruct (p y); [congruence | exact IH].
Qed.

(** The status column after an update of the envelopes with id [id0]. *)
Lemma statusOf_updateEnvelope (id0 : string) (u : STSEnvelopeUpdate) (d : DB)
    (id : string) :
  statusOf (updateEnvelope id0 u d) id
  = if String.eqb id id0
    then option_map (fun st => orElse (u_status u) st) (statusOf d id)
    else statusOf d id.
Proof.
  unfold statusOf, updateEnvelope. cbn [sts_envelopes setEnvelopes].
  induction (sts_envelopes d) as [| e es IH]; simpl.
  - now destruct (String.eqb id id0).
  - destruct (String.eqb_spec (env_id e) id0) as [E0 | E0]; simpl.
    + destruct (String.eqb_spec (env_id e) id) as [E | E].
      * rewrite <- E, E0, String.eqb_refl. reflexivity.
      * exact IH.
    + destruct (String.eqb_spec (env_id e) id) as [E | E].
      * destruct (String.eqb_spec id id0); [congruence | reflexivity].
      * exact IH.
Qed.

Lemma statusOf_loadDetail (d : DB) (id : string) (det : STSEnvelopeDetail) :
  loadDetail d id = Some det ->
  statusOf d id = Some (env_status (envelope det))
  /\ env_id (envelope det) = id
  /\ recipients det = recipientsOf d id.
Proof.
  unfold loadDetail, envelopeRow, statusOf.
  destruct (single _) as [env |] eqn:E; [| discriminate].
  intros H; injection H as <-. cbn [envelope recipients].
  apply single_some in E.
  rewrite (filter_singleton_find _ _ _ E). repeat split.
  assert (Hin : List.In env [env]) by now left.
  rewrite <- E in Hin. apply List.filter_In in Hin as (_ & Hid).
  now apply String.eqb_eq.
Qed.

(** What [allSignedAfter] checks. *)
Lemma allSignedAfter_iff (recipientId envelopeId : string) (d : DB) :
  allSignedAfter recipientId envelopeId d = true
  <-> forall r, List.In r (sts_recipients d) ->
                rec_envelope_id r = envelopeId -> role r = signer ->
                rec_id r = recipientId \/ rec_status r = signed.
Proof.
  unfold allSignedAfter, everySignerSigned, recipientsOf.
  rewrite List.forallb_forall. split.
  - intros H r Hin Henv Hrole.
    assert (Hr : List.In r
      (List.filter (fun r => isSigner (role r))
         (List.filter (fun r => String.eqb (rec_envelope_id r) envelopeId)
            (sts_recipients d)))).
    { apply List.filter_In. split; [| now rewrite Hrole].
      apply List.filter_In. split; [exact Hin |]. now apply String.eqb_eq. }
    apply H, orb_true_iff in Hr as [Hr | Hr].
    + left. now apply String.eqb_eq.
    + right. destruct (rec_status r); try discriminate; reflexivity.
  - intros H r Hr.
    apply List.filter_In in Hr as (Hr & Hrole).
    apply List.filter_In in Hr as (Hin & Henv).
    apply String.eqb_eq in Henv.
    assert (Hs : role r = signer) by (destruct (role r); try discriminate; reflexivity).
    destruct (H r Hin Henv Hs) as [E | E].
    + apply orb_true_iff. left. now apply String.eqb_eq.
    + apply orb_true_iff. right. now rewrite E.
Qed.

Lemma allSigned_iff (det : STSEnvelopeDetail) :
  allSigned det = true
  <-> forall r, List.In r (recipients det) -> role r = signer ->
                rec_status r = signed.
Proof.
  unfold allSigned. rewrite List.forallb_forall. split.
  - intros H r Hin Hrole.
    assert (Hr : List.In r (List.filter (fun r => isSigner (role r))
                                        (recipients det))).
    { apply List.filter_In. split; [exact Hin | now rewrite Hrole]. }
    apply H in Hr. destruct (rec_status r); try discriminate; reflexivity.
  - intros H r Hr. apply List.filter_In in Hr as (Hin & Hrole).
    assert (Hs : role r = signer) by (destruct (role r); try discriminate; reflexivity).
    now rewrite (H r Hin Hs).
Qed.

(** The submission when every call succeeds, written out. *)
Lemma handleSubmit_unfold (s : Session) (fieldValues : gmap string string)
    (confirmed : bool) (now : Z) (d : DB) :
  handleSubmit s fieldValues confirmed now d
  = if negb (submits s fieldValues confirmed) then d
    else
      let recipient := s_recipient s in
      let envelopeId := env_id (envelope (s_envelope s)) in
      let db3 :=
        logEvent {| audit_envelope_id := envelopeId;
                    event_type := "recipient_signed";
                    actor_name := rec_name recipient;
                    actor_email := email recipient;
                    audit_recipient_id := Some (rec_id recipient) |}
          (afterSigning s fieldValues now d) in
      if allSignedAfter (rec_id recipient) envelopeId db3
      then
        logEvent {| audit_envelope_id := envelopeId;
                    event_type := "envelope_completed";
                    actor_name := "System"; actor_email := "";
                    audit_recipient_id := None |}
          (updateEnvelope envelopeId
             {| u_title := None; u_message := None;
                u_status := Some completed; u_sent_at := None;
                u_completed_at := Some now; u_voided_at := None;
                u_void_reason := None |} db3)
      else
        updateEnvelope envelopeId
          {| u_title := None; u_message := None;
             u_status := Some in_progress; u_sent_at := None;
             u_completed_at := None; u_voided_at := None;
             u_void_reason := None |} db3.
Proof. reflexivity. Qed.

Lemma handleSubmit_carried_out (s : Session) (fieldValues : gmap string string)
    (confirmed : bool) (now : Z) (d : DB) :
  submits s fieldValues confirmed = true ->
  let id := env_id (envelope (s_envelope s)) in
  let done := allSignedAfter (rec_id (s_recipient s)) id
                (afterSigning s fieldValues now d) in
  sts_recipients (handleSubmit s fieldValues confirmed now d)
  = sts_recipients (afterSigning s fieldValues now d)
  /\ forall id', statusOf (handleSubmit s fieldValues confirmed now d) id'
     = if String.eqb id' id
       then option_map (fun _ => if done then completed else in_progress)
                       (statusOf d id')
       else statusOf d id'.
Proof.
  intros Hsub id done. rewrite handleSubmit_unfold, Hsub. cbn [negb].
  cbv zeta.
  change (allSignedAfter (rec_id (s_recipient s))
            (env_id (envelope (s_envelope s)))
            (logEvent _ (afterSigning s fieldValues now d)))
    with done.
  destruct done; split; try reflexivity; intros id'.
  - change (statusOf (logEvent ?a ?x) id') with (statusOf x id').
    rewrite statusOf_updateEnvelope. reflexivity.
  - rewrite statusOf_updateEnvelope. reflexivity.
Qed.


(** After the recipient row is marked, "signed or the submitting recipient"
    means signed. *)
Lemma signers_signed_after (s : Session) (fieldValues : gmap string string)
    (now : Z) (d : DB) (id : string) :
  allSignedAfter (rec_id (s_recipient s)) id (afterSigning s fieldValues now d)
  = true ->
  signersAllSigned (afterSigning s fieldValues now d) id.
Proof.
  intros H r Hin Henv Hrole.
  destruct (proj1 (allSignedAfter_iff _ _ _) H r Hin Henv Hrole) as [E | E];
    [| exact E].
  unfold afterSigning, updateRecipient in Hin.
  cbn [sts_recipients setRecipients setFields] in Hin.
  apply List.in_map_iff in Hin as (r0 & Hr0 & _).
  destruct (String.eqb_spec (rec_id r0) (rec_id (s_recipient s))) as [E0 | E0].
  - now subst r.
  - subst r. contradiction.
Qed.



(** When every call of a submission succeeds, the submission that is
    carried out sets the envelope to completed exactly when every signer of
    the envelope, the submitting recipient counted as signed, has status
    signed, and to in_progress otherwise; if it leaves the envelope
    completed, all its signers are signed in the resulting tables.  Mark
    Complete is offered exactly when the envelope on the detail page is sent
    or in_progress and all signers on the page are signed. *)
Lemma completed_with_all_signed_when_calls_succeed :
  (forall (s : Session) (fieldValues : gmap string string) (now : Z) (d : DB)
          (st : EnvelopeStatus),
      let id := env_id (envelope (s_envelope s)) in
      let d' := handleSubmit s fieldValues true now d in
      submits s fieldValues true = true ->
      statusOf d id = Some st ->
      (statusOf d' id = Some completed
       <-> forall r, List.In r (sts_recipients d) ->
                     rec_envelope_id r = id -> role r = signer ->
                     rec_id r = rec_id (s_recipient s)
                     \/ rec_status r = signed)
      /\ (statusOf d' id = Some completed \/ statusOf d' id = Some in_progress)
      /\ (statusOf d' id = Some completed -> signersAllSigned d' id))
  /\ (forall det : STSEnvelopeDetail,
         canComplete det = true
         <-> (env_status (envelope det) = sent
              \/ env_status (envelope det) = in_progress)
             /\ forall r, List.In r (recipients det) -> role r = signer ->
                          rec_status r = signed).
Proof.
  split.
  - intros s fv now d st id d' Hsub Hst.
    destruct (handleSubmit_carried_out s fv true now d Hsub) as (Hrec & Hstat).
    fold id in Hstat. fold d' in Hrec, Hstat.
    rewrite (Hstat id), String.eqb_refl, Hst. cbn [option_map].
    assert (Hiff : allSignedAfter (rec_id (s_recipient s)) id
                     (afterSigning s fv now d) = true
                   <-> forall r, List.In r (sts_recipients d) ->
                                 rec_envelope_id r = id -> role r = signer ->
                                 rec_id r = rec_id (s_recipient s)
                                 \/ rec_status r = signed).
    { rewrite allSignedAfter_iff. unfold afterSigning, updateRecipient.
      cbn [sts_recipients setRecipients setFields]. split.
      - intros H r Hin Henv Hrole.
        destruct (String.eqb_spec (rec_id r) (rec_id (s_recipient s)))
          as [E | E]; [now left |].
        apply (H r); try assumption.
        apply List.in_map_iff. exists r. split; [| exact Hin].
        destruct (String.eqb_spec (rec_id r) (rec_id (s_recipient s)));
          [contradiction | reflexivity].
      - intros H r Hin Henv Hrole.
        apply List.in_map_iff in Hin as (r0 & <- & Hin0).
        destruct (String.eqb_spec (rec_id r0) (rec_id (s_recipient s)))
          as [E | E]; [now right |].
        now apply H. }
    destruct (allSignedAfter _ _ _) eqn:Hall.
    + split; [| split].
      * split; [intros _; now apply Hiff | reflexivity].
      * now left.
      * intros _ r Hin. rewrite Hrec in Hin. revert r Hin.
        now apply signers_signed_after.
    + split; [| split].
      * split; [discriminate |].
        intros H. apply Hiff in H. discriminate.
      * now right.
      * discriminate.
  - intros det. unfold canComplete. rewrite andb_true_iff, allSigned_iff.
    split; intros (Hst & Hall); (split; [| exact Hall]).
    + destruct (env_status (envelope det)); try discriminate; auto.
    + destruct Hst as [-> | ->]; reflexivity.
Qed.

(** C2, at the failing input.  The first of the two signers of the sent
    sample envelope submits from the signing page, and the database fails
    to answer the read-back of the recipients: the list of signers that the
    submission checks is empty, the envelope is set to completed, and the
    second signer is still pending.  With the read-back answered, the same
    submission sets the envelope to in_progress. *)
Theorem failed_read_back_completes_unsigned_envelope :
  sessions (after [OpOpenLink "tok-a"]) = [firstSignerPage]
  /\ statusOf (db (after [OpOpenLink "tok-a"])) "env-1" = Some sent
  /\ (let d' := handleSubmitWith readBackFails firstSignerPage ∅ true 1
                  (db (after [OpOpenLink "tok-a"])) in
      statusOf d' "env-1" = Some completed
      /\ List.map (fun r => (rec_id r, role r, rec_status r))
                  (sts_recipients d')
         = [("r-a", signer, signed); ("r-b", signer, pending)]
      /\ ~ signersAllSigned d' "env-1")
  /\ statusOf (handleSubmit firstSignerPage ∅ true 1
                 (db (after [OpOpenLink "tok-a"]))) "env-1"
     = Some in_progress.
Proof.
  split; [vm_compute; reflexivity |].
  split; [vm_compute; reflexivity |].
  split; [| vm_compute; reflexivity].
  cbv zeta. split; [vm_compute; reflexivity |].
  split; [vm_compute; reflexivity |].
  intros H.
  assert (Hb : rec_status (sampleRecipient "r-b" "tok-b" pending) = signed).
  { apply H; [| reflexivity | reflexivity].
    vm_compute. right. left. reflexivity. }
  discriminate Hb.
Qed.

(** A signing page is opened only for an envelope that is neither voided
    nor completed at that moment. *)
Lemma fetchByToken_loaded_status (token : option string) (now : Z) (d : DB)
    (det : STSEnvelopeDetail) :
  hook_envelope (fst (fetchByToken true token now d)) = Some det ->
  env_status (envelope det) <> voided
  /\ env_status (envelope det) <> completed.
Proof.
  unfold fetchByToken.
  destruct (negb true || negb (truthy (orElse token ""))); [discriminate |].
  destruct (single _) as [rec |]; [| discriminate].
  destruct (loadDetail d (rec_envelope_id rec)) as [det0 |]; [| discriminate].
  destruct (env_status (envelope det0)) eqn:E; try discriminate;
    destruct (isSigned (rec_status rec)); try discriminate;
    cbn [fst hook_envelope]; intros H; injection H as <-;
    rewrite E; split; discriminate.
Qed.

(** C3, at the failing input.  The first signer opens the link while the
    sample envelope is sent, and the admin voids the envelope.  A load of
    the link is now refused with "This envelope has been voided", but the
    page that is already open still submits: the submission is carried out
    and moves the voided envelope to in_progress, which is not a step of the
    path. *)
Theorem submission_from_open_page_revives_voided_envelope :
  execAll 0 openThenVoid {| db := sentToTwo; sessions := []; details := [] |}
  = Some (after openThenVoid)
  /\ statusOf (db (after openThenVoid)) "env-1" = Some voided
  /\ hook_error (fst (fetchByToken true (Some "tok-a") 2
                        (db (after openThenVoid))))
     = Some "This envelope has been voided"
  /\ exec 2 (OpSubmit 0 ∅ true) (after openThenVoid)
     = Some (after (openThenVoid ++ [OpSubmit 0 ∅ true]))
  /\ statusOf (db (after (openThenVoid ++ [OpSubmit 0 ∅ true]))) "env-1"
     = Some in_progress
  /\ onPath voided in_progress = false.
Proof. repeat split; vm_compute; reflexivity. Qed.

(** The buttons of a detail page act on the detail that the page holds.
    A detail page opened while the sample envelope is sent still shows Void
    after both signers have signed and the envelope is completed: a page
    opened now does not offer Void, the click on the open page is carried
    out and moves the completed envelope to voided. *)
Lemma void_from_open_detail_page_voids_completed_envelope :
  execAll 0 signedWhileDetailOpen
    {| db := sentToTwo; sessions := []; details := [] |}
  = Some (after signedWhileDetailOpen)
  /\ statusOf (db (after signedWhileDetailOpen)) "env-1" = Some completed
  /\ exec 5 (OpVoid "env-1" "too late") (after signedWhileDetailOpen) = None
  /\ exec 5 (OpVoidOn 0 "too late") (after signedWhileDetailOpen)
     = Some (after (signedWhileDetailOpen ++ [OpVoidOn 0 "too late"]))
  /\ statusOf (db (after (signedWhileDetailOpen ++ [OpVoidOn 0 "too late"])))
              "env-1"
     = Some voided
  /\ onPath completed voided = false.
Proof. repeat split; vm_compute; reflexivity. Qed.

Lemma loadDetail_only_that_envelope (d : DB) (id : string)
    (det : STSEnvelopeDetail) :
  loadDetail d id = Some det ->
  env_id (envelope det) = id
  /\ List.In (envelope det) (sts_envelopes d)
  /\ (forall r, List.In r (recipients det) -> rec_envelope_id r = id)
  /\ (forall doc, List.In doc (documents det) -> doc_envelope_id doc = id)
  /\ (forall f, List.In f (fields det) -> field_envelope_id f = id).
Proof.
  intros H. destruct (statusOf_loadDetail d id det H) as (_ & Hid & _).
  unfold loadDetail, envelopeRow in H.
  destruct (single _) as [env |] eqn:E; [| discriminate].
  injection H as <-. cbn [envelope recipients documents fields] in *.
  apply single_some in E.
  assert (Hin : List.In env [env]) by now left.
  rewrite <- E in Hin. apply List.filter_In in Hin as (Hin & _).
  repeat split; try assumption.
  - intros r Hr. apply List.filter_In in Hr as (_ & Hr).
    now apply String.eqb_eq.
  - intros doc Hdoc. apply List.filter_In in Hdoc as (_ & Hdoc).
    now apply String.eqb_eq.
  - intros f Hf. apply List.filter_In in Hf as (_ & Hf).
    now apply String.eqb_eq.
Qed.

(** C4, amended. With Supabase configured, loading the signing session by
    a non-empty token, with [holders] the recipients that hold it: when no
    recipient holds it (and also when several do) the session fails with
    "Invalid or expired signing link".  When [r] is the one holder and [det]
    the detail of the envelope it refers to: the session fails when the
    envelope is voided or completed or when [r] has already signed;
    otherwise it resolves to [r] and to [det], whose envelope, recipients,
    documents and fields all belong to [rec_envelope_id r], and a pending
    [r] becomes viewed in the table.  A failed load changes nothing, and a
    session that loads an envelope is always the one of the unique holder. *)
Theorem signing_session_by_token (token : string) (now : Z) (d : DB) :
  truthy token = true ->
  let holders :=
    List.filter (fun r => String.eqb (access_token r) token)
                (sts_recipients d) in
  let st := fst (fetchByToken true (Some token) now d) in
  let d' := snd (fetchByToken true (Some token) now d) in
  failsWithoutHolder true token now d
  /\ ((forall r, holders <> [r]) ->
      st = failed None "Invalid or expired signing link" /\ d' = d)
  /\ (forall r det,
        holders = [r] -> loadDetail d (rec_envelope_id r) = Some det ->
        (env_status (envelope det) = voided ->
           st = failed (Some r) "This envelope has been voided" /\ d' = d)
        /\ (env_status (envelope det) = completed ->
              st = failed (Some r) "This envelope has already been completed"
              /\ d' = d)
        /\ (env_status (envelope det) <> voided ->
            env_status (envelope det) <> completed ->
            rec_status r = signed ->
              st = failed (Some r) "You have already signed this document"
              /\ d' = d)
        /\ (env_status (envelope det) <> voided ->
            env_status (envelope det) <> completed ->
            rec_status r <> signed ->
              st = {| hook_recipient := Some r; hook_envelope := Some det;
                      hook_error := None |}
              /\ env_id (envelope det) = rec_envelope_id r
              /\ (forall r', List.In r' (recipients det) ->
                             rec_envelope_id r' = rec_envelope_id r)
              /\ (forall doc, List.In doc (documents det) ->
                              doc_envelope_id doc = rec_envelope_id r)
              /\ (forall f, List.In f (fields det) ->
                            field_envelope_id f = rec_envelope_id r)
              /\ (rec_status r = pending ->
                    d' = updateRecipient (rec_id r) (setViewed now) d
                    /\ forall r', List.In r' (sts_recipients d') ->
                                  rec_id r' = rec_id r ->
                                  rec_status r' = viewed)
              /\ (rec_status r <> pending -> d' = d)))
  /\ (forall det, hook_envelope st = Some det ->
        exists r, holders = [r] /\ hook_recipient st = Some r
                  /\ hook_error st = None
                  /\ loadDetail d (rec_envelope_id r) = Some det).
Proof.
  intros Htok holders st d'. subst st d'.
  unfold failsWithoutHolder, fetchByToken.
  cbn [orElse negb orb]. rewrite Htok. cbn [negb].
  fold holders.
  split; [| split; [| split]].
  - intros ->. discriminate.
  - intros Hnone. destruct (single holders) as [r |] eqn:E; [| now split].
    apply single_some in E. destruct (Hnone r E).
  - intros r det Hr Hdet.
    rewrite (proj2 (single_some holders r) Hr), Hdet.
    destruct (loadDetail_only_that_envelope _ _ _ Hdet)
      as (Hid & _ & Hrecs & Hdocs & Hfields).
    split; [| split; [| split]].
    + intros ->. now split.
    + intros ->. now split.
    + intros Hv Hc ->.
      destruct (env_status (envelope det)); try contradiction; now split.
    + intros Hv Hc Hs.
      assert (Hns : isSigned (rec_status r) = false)
        by (destruct (rec_status r); try reflexivity; contradiction).
      destruct (env_status (envelope det)); try contradiction;
        rewrite Hns; cbn [fst snd];
        (split; [reflexivity |]); (split; [exact Hid |]);
        (split; [exact Hrecs |]); (split; [exact Hdocs |]);
        (split; [exact Hfields |]);
        (split;
         [ intros ->; cbn [isPending]; split; [reflexivity |];
           unfold updateRecipient; cbn [sts_recipients setRecipients];
           intros r' Hin Hid'; apply List.in_map_iff in Hin as (r0 & <- & _);
           destruct (String.eqb_spec (rec_id r0) (rec_id r)) as [E0 | E0];
           [reflexivity | contradiction]
         | intros Hp;
           assert (Hnp : isPending (rec_status r) = false)
             by (destruct (rec_status r); try reflexivity; contradiction);
           now rewrite Hnp ]).
  - intros det.
    destruct (single holders) as [r |] eqn:E; [| discriminate].
    apply single_some in E.
    destruct (loadDetail d (rec_envelope_id r)) as [det0 |] eqn:Hdet;
      [| discriminate].
    destruct (env_status (envelope det0)); try discriminate;
      destruct (isSigned (rec_status r)); try discriminate;
      cbn [fst hook_envelope hook_recipient hook_error];
      intros H; injection H as <-; exists r; auto.
Qed.

(** Counterexample to C4 as stated: without Supabase the load of a token
    that no recipient holds ends without an error (and without a session). *)
Lemma unconfigured_load_counterexample :
  ~ failsWithoutHolder false "tok-a" 0 emptyTables.
Proof. intros H. apply H; reflexivity. Qed.

(** Witness of C4: the link of the first signer of the sample envelope. *)
Lemma signing_session_witness :
  truthy "tok-a" = true
  /\ fst (fetchByToken true (Some "tok-a") 5 sentToTwo)
     = {| hook_recipient := Some (sampleRecipient "r-a" "tok-a" pending);
          hook_envelope := loadDetail sentToTwo "env-1";
          hook_error := None |}
  /\ List.map rec_status
       (sts_recipients (snd (fetchByToken true (Some "tok-a") 5 sentToTwo)))
     = [viewed; pending].
Proof.
  split; [reflexivity |].
  destruct (loadDetail sentToTwo "env-1") as [det |] eqn:Hdet;
    [| vm_compute in Hdet; discriminate Hdet].
  destruct (proj1 (proj2 (proj2 (signing_session_by_token "tok-a" 5
                                   sentToTwo eq_refl)))
              (sampleRecipient "r-a" "tok-a" pending) det eq_refl Hdet)
    as (_ & _ & _ & H).
  assert (Hst : env_status (envelope det) = sent).
  { vm_compute in Hdet. injection Hdet as <-. reflexivity. }
  destruct H as (H1 & _ & _ & _ & _ & H2 & _).
  - rewrite Hst. discriminate.
  - rewrite Hst. discriminate.
  - discriminate.
  - split; [exact H1 |].
    destruct (H2 eq_refl) as (-> & _). reflexivity.
Defined.

End SignedToSealedFacts.

(** ** The time clock: employees, entries and the kiosk *)

Module TimeClockAdminFacts.

Import JS JSDate TimeClock TimeClockKiosk TimeClockReports TimeClockAdmin.
Import TimeClockSamples TimeClockAdminSamples TimeClockKioskFacts.

Lemma toggleActive_In (es : list TCEmployee) (id : string) (b : bool)
    (e : TCEmployee) :
  List.In e (toggleActive es id b) ->
  exists e0, List.In e0 es /\ emp_id e = emp_id e0
             /\ employee_number e = employee_number e0
             /\ (if String.eqb (emp_id e0) id then is_active e = b else e = e0).
Proof.
  unfold toggleActive. intros H. apply List.in_map_iff in H as (e0 & <- & Hin).
  exists e0. split; [exact Hin |].
  destruct (String.eqb (emp_id e0) id); simpl; auto.
Qed.

(** X1. The kiosk looks employees up in the list that its own
    [useEmployees] loaded from the table; the admin page, which deactivates
    employees, has a list of its own.  In a list loaded after an employee
    was deactivated (the rows of the table after the update, in any order)
    no number finds that employee: whoever [findByNumber] returns is an
    active employee of the table with the number asked for and another id.
    A running kiosk keeps the list it loaded, since no kiosk action changes
    it: the deactivation reaches a kiosk when the kiosk next loads the
    list. *)
Theorem deactivated_employee_is_not_found (table loaded : list TCEmployee)
    (id : string) :
  Permutation loaded (toggleActive table id false) ->
  (forall num e,
      findByNumber loaded num = Some e ->
      emp_id e <> id /\ List.In e table /\ is_active e = true
      /\ employee_number e = num)
  /\ (forall a k, employees (handle a k) = employees k).
Proof.
  intros Hloaded. split.
  - intros num e H. unfold findByNumber in H.
    apply List.find_some in H as (Hin & Hp).
    apply andb_true_iff in Hp as (Hnum & Hact).
    apply String.eqb_eq in Hnum.
    apply (Permutation_in _ Hloaded) in Hin.
    apply toggleActive_In in Hin as (e0 & Hin0 & Hid & _ & Hcase).
    destruct (String.eqb_spec (emp_id e0) id) as [E | E].
    + rewrite Hcase in Hact. discriminate.
    + subst e0. repeat split; assumption.
  - intros a k. destruct a as [[d | |] | | | | newId now | now | | |];
      unfold handle, handleKeyPress, handleSubmitNumber, handleConfirmYes,
        handleConfirmNo, handleClockIn, handleClockOut, resetKiosk, setKiosk;
      repeat match goal with
             | |- context [match ?x with _ => _ end] => destruct x
             | |- context [if ?x then _ else _] => destruct x
             end; reflexivity.
Qed.

Lemma deactivated_employee_witness :
  let formerAnn :=
    {| emp_id := "emp-ann"; employee_number := "1001"; first_name := "Ann";
       last_name := "Hale"; is_active := false |} in
  Permutation [bob; formerAnn] (toggleActive [ann; bob] "emp-ann" false)
  /\ findByNumber [bob; formerAnn] "1002" = Some bob
  /\ emp_id bob <> "emp-ann"
  /\ findByNumber [bob; formerAnn] "1001" = None.
Proof.
  intros formerAnn.
  assert (Hperm : Permutation [bob; formerAnn]
                    (toggleActive [ann; bob] "emp-ann" false))
    by apply perm_swap.
  split; [exact Hperm |]. split; [reflexivity |]. split; [| reflexivity].
  exact (proj1 (proj1 (deactivated_employee_is_not_found [ann; bob] _
                         "emp-ann" Hperm) "1002" bob eq_refl)).
Defined.

Lemma openCount_zero_find (es : list TCTimeEntry) (emp : string) :
  openCount es emp = 0%nat -> getOpenEntry es emp = None.
Proof.
  unfold openCount, getOpenEntry.
  induction es as [| e es IH]; simpl; [reflexivity |].
  destruct (isOpenFor emp e); simpl; [discriminate | exact IH].
Qed.

(** Clocking out by the id of an open entry of the employee takes at least
    one entry off the employee's open entries. *)
Lemma openCount_clockOut_open (es : list TCTimeEntry) (oe : TCTimeEntry)
    (emp : string) (now : Z) :
  List.In oe es -> isOpenFor emp oe = true ->
  (S (openCount (clockOut es (entry_id oe) now) emp) <= openCount es emp)%nat.
Proof.
  intros Hin Hopen. induction es as [| e es IH]; [destruct Hin |].
  change (clockOut (e :: es) (entry_id oe) now)
    with ((if String.eqb (entry_id e) (entry_id oe)
           then {| entry_id := entry_id e; employee_id := employee_id e;
                   clock_in := clock_in e; clock_out := Some now;
                   notes := notes e |}
           else e) :: clockOut es (entry_id oe) now).
  unfold openCount in *. cbn [List.filter].
  pose proof (openCount_clockOut es (entry_id oe) now emp) as Hle.
  unfold openCount in Hle.
  destruct Hin as [-> | Hin].
  - rewrite String.eqb_refl, Hopen.
    unfold isOpenFor at 1. cbn [clock_out]. rewrite andb_false_r.
    cbn [List.length]. lia.
  - specialize (IH Hin).
    destruct (String.eqb (entry_id e) (entry_id oe)).
    + unfold isOpenFor at 1. cbn [clock_out]. rewrite andb_false_r.
      destruct (isOpenFor emp e); cbn [List.length]; lia.
    + destruct (isOpenFor emp e); cbn [List.length]; lia.
Qed.

(** X2. A shift at the kiosk.  After a clock-in the employee's open entry
    is the new row.  Clocking out by the id of the employee's open entry,
    when the employee has no second open entry, leaves the employee with no
    open entry, and the row keeps its clock-in time and carries the
    clock-out time. *)
Theorem shift_is_opened_and_closed (es : list TCTimeEntry) (emp : string) :
  (forall newId now,
      getOpenEntry (clockIn es newId emp now) emp
      = Some {| entry_id := newId; employee_id := emp; clock_in := now;
                clock_out := None; notes := "" |})
  /\ (forall oe now,
        getOpenEntry es emp = Some oe ->
        (openCount es emp <= 1)%nat ->
        getOpenEntry (clockOut es (entry_id oe) now) emp = None
        /\ List.In {| entry_id := entry_id oe; employee_id := emp;
                      clock_in := clock_in oe; clock_out := Some now;
                      notes := notes oe |}
                   (clockOut es (entry_id oe) now)).
Proof.
  split.
  - intros newId now. unfold getOpenEntry, clockIn, isOpenFor. simpl.
    now rewrite String.eqb_refl.
  - intros oe now Hopen Hone. unfold getOpenEntry in Hopen.
    apply List.find_some in Hopen as (Hin & Hp).
    pose proof (openCount_clockOut_open es oe emp now Hin Hp) as Hless.
    split.
    + apply openCount_zero_find. lia.
    + unfold clockOut. apply List.in_map_iff. exists oe.
      split; [| exact Hin].
      rewrite String.eqb_refl.
      unfold isOpenFor in Hp. apply andb_true_iff in Hp as (Hemp & _).
      apply String.eqb_eq in Hemp. now rewrite Hemp.
Qed.

Lemma shift_witness :
  getOpenEntry [openShift] "emp-ann" = Some openShift
  /\ getOpenEntry (clockOut [openShift] "entry-9" 1767628800000) "emp-ann"
     = None.
Proof.
  split; [reflexivity |].
  refine (proj1 (proj2 (shift_is_opened_and_closed [openShift] "emp-ann")
                   openShift 1767628800000 eq_refl _)).
  unfold openCount. simpl. lia.
Defined.

Lemma length_substring_le (n m : nat) (s : string) :
  (String.length (String.substring n m s) <= String.length s)%nat.
Proof.
  revert n m. induction s as [| c s IH]; intros n m.
  - destruct n, m; simpl; lia.
  - destruct n as [| n]; simpl.
    + destruct m as [| m]; simpl; [lia |]. specialize (IH 0%nat m). lia.
    + specialize (IH n m). lia.
Qed.

Lemma length_append_char (s : string) (c : ascii) :
  String.length (s ++ String c EmptyString) = S (String.length s).
Proof. induction s as [| d s IH]; simpl; [reflexivity | now rewrite IH]. Qed.

Lemma matchedIsTyped_handle (a : Action) (k : Kiosk) :
  offered a k = true -> matchedIsTyped k -> matchedIsTyped (handle a k).
Proof.
  intros Hoff (Hlen & Hm). unfold matchedIsTyped.
  destruct a as [key | | | | newId now | now | | |]; cbn [handle].
  - (* a key: only on the input screen *)
    unfold offered in Hoff.
    destruct (screen k) eqn:Hs; try discriminate.
    assert (Hscreen : screen (handleKeyPress key k) = ScreenInput).
    { unfold handleKeyPress. destruct key; simpl; try assumption.
      destruct (String.length (employeeNumber k) <? 4)%nat; assumption. }
    split; [| intros Hne; now rewrite Hscreen in Hne].
    unfold handleKeyPress. destruct key as [d | |]; simpl.
    + destruct (Nat.ltb_spec (String.length (employeeNumber k)) 4);
        simpl; [rewrite length_append_char |]; lia.
    + lia.
    + unfold dropLast.
      pose proof (length_substring_le 0
                    (String.length (employeeNumber k) - 1) (employeeNumber k)).
      lia.
  - (* Enter *)
    unfold offered in Hoff.
    destruct (screen k) eqn:Hs; try discriminate.
    apply negb_true_iff, Nat.ltb_ge in Hoff.
    unfold handleSubmitNumber.
    destruct (findByNumber (employees k) (employeeNumber k)) as [emp |] eqn:Hf;
      simpl; (split; [exact Hlen |]).
    + intros _. unfold findByNumber in Hf.
      apply List.find_some in Hf as (Hin & Hp).
      apply andb_true_iff in Hp as (Hnum & Hact).
      apply String.eqb_eq in Hnum.
      exists emp. repeat split; try assumption. lia.
    + intros Hne. now rewrite Hs in Hne.
  - (* Yes *)
    unfold offered in Hoff.
    destruct (screen k) eqn:Hs; try discriminate.
    destruct Hm as (emp & Hme & Hrest); [discriminate |].
    unfold handleConfirmYes. rewrite Hme. simpl.
    split; [exact Hlen |]. intros _. now exists emp.
  - (* No *)
    unfold handleConfirmNo. simpl. split; [lia |]. intros H. now elim H.
  - (* Clock In *)
    unfold handleClockIn.
    destruct (matchedEmployee k) as [emp |] eqn:Hme;
      [| split; [exact Hlen |];
         intros Hne; destruct (Hm Hne) as (? & Habs & _); discriminate Habs].
    simpl. split; [exact Hlen |]. intros Hne.
    destruct (Hm Hne) as (emp' & Hme' & Hrest).
    injection Hme' as <-. now exists emp.
  - (* Clock Out *)
    unfold handleClockOut.
    destruct (openEntry k) as [oe |]; [| split; [exact Hlen | exact Hm]].
    simpl. split; [exact Hlen |]. exact Hm.
  - (* Cancel *)
    unfold handleConfirmNo. simpl. split; [lia |]. intros H. now elim H.
  - (* the reset timer *)
    unfold resetKiosk. simpl. split; [lia |]. intros H. now elim H.
  - (* the message timer *)
    simpl. split; [exact Hlen |]. exact Hm.
Qed.

(** X3. Every state the kiosk reaches from an input screen with at most
    four characters typed keeps the number at four characters at most, and
    shows the confirmation or the action screen only for an active employee
    of the list whose employee number is the four characters typed. *)
Theorem kiosk_matches_the_typed_number (acts : list Action) (k0 k : Kiosk) :
  screen k0 = ScreenInput ->
  (String.length (employeeNumber k0) <= 4)%nat ->
  run acts k0 = Some k ->
  matchedIsTyped k.
Proof.
  intros Hs Hlen.
  assert (H0 : matchedIsTyped k0).
  { split; [exact Hlen |]. intros Hne. now rewrite Hs in Hne. }
  clear Hs Hlen. revert k0 H0.
  induction acts as [| a acts IH]; intros k0 H0 Hrun; simpl in Hrun.
  - now injection Hrun as <-.
  - unfold step in Hrun. destruct (offered a k0) eqn:Hoff; [| discriminate].
    apply (IH (handle a k0)); [| exact Hrun].
    now apply matchedIsTyped_handle.
Qed.

Lemma kiosk_matches_witness :
  exists k,
    run annClocksIn idleKiosk = Some k
    /\ screen k = ScreenAction
    /\ matchedIsTyped k.
Proof.
  eexists. split; [vm_compute; reflexivity |]. split; [reflexivity |].
  apply (kiosk_matches_the_typed_number annClocksIn idleKiosk).
  - reflexivity.
  - unfold idleKiosk. simpl. lia.
  - vm_compute. reflexivity.
Defined.

End TimeClockAdminFacts.

(** ** The reports: stale entries, weeks and months *)

Module TimeClockCalendarFacts.

Import JS JSDate TimeClock TimeClockReports TimeClockAdmin.
Import TimeClockSamples TimeClockAdminSamples.
Import JSDateFacts TimeClockReportsFacts.

Lemma hours_gt_iff (ms h : Z) :
  (inject_Z h < inject_Z ms / inject_Z msPerHour)%Q <-> h * msPerHour < ms.
Proof.
  unfold Qlt, Qdiv, Qmult, Qinv, inject_Z, msPerHour. simpl. lia.
Qed.

(** X4. An entry is flagged as stale exactly when it has no clock-out and
    its clock-in lies more than twelve hours (43 200 000 ms) before the
    current time. *)
Theorem stale_iff_open_for_over_twelve_hours (now : Z) (e : TCTimeEntry) :
  isStale now e = true
  <-> clock_out e = None /\ 12 * msPerHour < now - clock_in e.
Proof.
  unfold isStale, getHours.
  destruct (clock_out e) as [t |].
  - split; [discriminate | intros (H & _); discriminate].
  - rewrite num_gt_iff.
    change 12%Q with (inject_Z 12). rewrite hours_gt_iff.
    split; [intros H; now split | intros (_ & H); exact H].
Qed.

(** X5. Saving a clock-out time in the admin page closes every entry with
    the edited id: it carries the saved time, is not stale, is nobody's open
    entry, and its hours are the saved time minus the clock-in time whatever
    the current time is.  Entries with another id stay as they were, and
    nothing changes when the id or the time is missing. *)
Theorem saved_clock_out_closes_the_entry (id : string) (t : Z)
    (entries : list TCTimeEntry) :
  truthy id = true ->
  let entries' := handleSaveClockOut (Some id) (Some t) entries in
  (forall e now emp,
      List.In e entries' -> entry_id e = id ->
      clock_out e = Some t
      /\ isStale now e = false
      /\ isOpenFor emp e = false
      /\ getHours now e = (inject_Z (t - clock_in e) / inject_Z msPerHour)%Q)
  /\ (forall e, entry_id e <> id ->
                (List.In e entries' <-> List.In e entries))
  /\ List.map entry_id entries' = List.map entry_id entries
  /\ handleSaveClockOut None (Some t) entries = entries
  /\ handleSaveClockOut (Some id) None entries = entries.
Proof.
  intros Hid entries'. subst entries'. unfold handleSaveClockOut.
  rewrite Hid. unfold updateEntry. cbn [upd_clock_out upd_notes].
  split; [| split; [| split; [| split; reflexivity]]].
  - intros e now emp Hin He.
    apply List.in_map_iff in Hin as (e0 & He0 & _).
    destruct (String.eqb_spec (entry_id e0) id) as [E | E].
    + subst e. unfold isStale, isOpenFor, getHours. cbn [clock_out clock_in].
      rewrite andb_false_r. auto.
    + subst e0. contradiction.
  - intros e Hne. rewrite List.in_map_iff. split.
    + intros (e0 & He0 & Hin).
      destruct (String.eqb_spec (entry_id e0) id) as [E | E].
      * subst e. cbn [entry_id] in Hne. contradiction.
      * now subst e0.
    + intros Hin. exists e. split; [| exact Hin].
      apply String.eqb_neq in Hne. now rewrite Hne.
  - rewrite List.map_map. apply List.map_ext. intros e.
    destruct (String.eqb (entry_id e) id); reflexivity.
Qed.

Lemma saved_clock_out_witness :
  let closed :=
    {| entry_id := "entry-9"; employee_id := "emp-ann";
       clock_in := 1767600000000; clock_out := Some 1767628800000;
       notes := "" |} in
  truthy "entry-9" = true
  /\ isStale 1767700000000 openShift = true
  /\ List.In closed
       (handleSaveClockOut (Some "entry-9") (Some 1767628800000) [openShift])
  /\ isStale 1767700000000 closed = false.
Proof.
  intros closed.
  assert (Hin : List.In closed
                  (handleSaveClockOut (Some "entry-9") (Some 1767628800000)
                     [openShift])) by (left; reflexivity).
  split; [reflexivity |]. split; [reflexivity |]. split; [exact Hin |].
  exact (proj1 (proj2 (proj1 (saved_clock_out_closes_the_entry "entry-9"
                                1767628800000 [openShift] eq_refl)
                         closed 1767700000000 "emp-ann" Hin eq_refl))).
Defined.

Section Weeks.

Variable tz : TimeZone.
Hypothesis Hwhole : wholeDays tz.

(** The Monday of a week is a day index that is 4 modulo 7, and the Monday
    of every day of the week. *)
Lemma monday_of_week_day (L L' : Z) :
  L - (L + 3) mod 7 <= L' <= L - (L + 3) mod 7 + 6 ->
  L' - (L' + 3) mod 7 = L - (L + 3) mod 7.
Proof. Z.to_euclidean_division_equations. lia. Qed.

(** X6. In a time zone whose clock changes do not touch midnight, the week
    range of a date contains the date, and every time inside the range has
    the same week range: the weekly report does not depend on which day of
    the week is asked for. *)
Theorem week_range_is_shared_by_its_days (date : Z) :
  (fst (getWeekRange tz date) <= date <= snd (getWeekRange tz date))
  /\ forall t,
       fst (getWeekRange tz date) <= t <= snd (getWeekRange tz date) ->
       getWeekRange tz t = getWeekRange tz date.
Proof.
  destruct (getWeekRange_monday tz Hwhole date) as (Hrange & _ & Hin).
  cbv zeta in Hrange, Hin. rewrite Hrange. cbn [fst snd]. split.
  - now apply (between_days tz Hwhole).
  - intros t Ht. apply (between_days tz Hwhole) in Ht.
    destruct (getWeekRange_monday tz Hwhole t) as (Hrange' & _).
    cbv zeta in Hrange'. rewrite Hrange'.
    now rewrite (monday_of_week_day (localDay tz date) (localDay tz t) Ht).
Qed.

(** X7. In such a time zone the week buttons of the admin page move the
    weekly report by whole weeks: the week range of the date [dir] weeks
    away is the week range of the date with both ends moved by [7 * dir]
    local days. *)
Theorem navigateWeek_moves_by_whole_weeks (dir date : Z) :
  getWeekRange tz (navigateWeek tz dir date)
  = (addDays tz (fst (getWeekRange tz date)) (7 * dir),
     addDays tz (snd (getWeekRange tz date)) (7 * dir)).
Proof.
  destruct (getWeekRange_monday tz Hwhole date) as (Hrange & _).
  destruct (getWeekRange_monday tz Hwhole (navigateWeek tz dir date))
    as (Hrange' & _).
  cbv zeta in Hrange, Hrange'. rewrite Hrange, Hrange'. cbn [fst snd].
  rewrite (addDays_midnight tz Hwhole), (addDays_lastMs tz Hwhole).
  unfold navigateWeek. rewrite (localDay_addDays tz Hwhole).
  replace (localDay tz date + dir * 7 + 3)
    with (localDay tz date + 3 + dir * 7) by ring.
  rewrite Z.mod_add by lia.
  f_equal; f_equal; ring.
Qed.

End Weeks.

Lemma week_range_witness :
  wholeDays newYork2026
  /\ (fst (getWeekRange newYork2026 aMarchWednesday)
      <= aMarchWednesday + 4 * 86400000
      <= snd (getWeekRange newYork2026 aMarchWednesday))
  /\ getWeekRange newYork2026 (aMarchWednesday + 4 * 86400000)
     = getWeekRange newYork2026 aMarchWednesday.
Proof.
  assert (H : fst (getWeekRange newYork2026 aMarchWednesday)
              <= aMarchWednesday + 4 * 86400000
              <= snd (getWeekRange newYork2026 aMarchWednesday))
    by (vm_compute; split; discriminate).
  split; [exact newYork2026_wholeDays |]. split; [exact H |].
  exact (proj2 (week_range_is_shared_by_its_days newYork2026
                  newYork2026_wholeDays aMarchWednesday) _ H).
Defined.

Lemma navigateWeek_witness :
  wholeDays newYork2026
  /\ getWeekRange newYork2026 (navigateWeek newYork2026 1 aMarchWednesday)
     = (addDays newYork2026 (fst (getWeekRange newYork2026 aMarchWednesday)) 7,
        addDays newYork2026 (snd (getWeekRange newYork2026 aMarchWednesday)) 7)
  /\ fst (getWeekRange newYork2026 (navigateWeek newYork2026 1 aMarchWednesday))
     = fst (getWeekRange newYork2026 aMarchWednesday) + 7 * 86400000 - 3600000.
Proof.
  split; [exact newYork2026_wholeDays |]. split; [| reflexivity].
  exact (navigateWeek_moves_by_whole_weeks newYork2026 newYork2026_wholeDays
           1 aMarchWednesday).
Defined.

Import TimeClockMonthlyFacts.

(** X8. The month buttons of the admin page.  For a month 0..11 of a year
    from 100 on, the next month is again a month 0..11, and the button for
    the previous month leads back.  The next month starts one millisecond
    after the end of the month whenever the zone gives the last millisecond
    of the month and the first of the next the same offset, that is, unless
    the clocks change at that very midnight; a zone of a constant offset
    always does. *)
Theorem navigateMonth_steps_to_the_adjacent_month (tz : TimeZone)
    (year month : Z) :
  0 <= month <= 11 -> 100 <= year ->
  let next := navigateMonth 1 (year, month) in
  let lastLocal := civilDay year (month + 1) 0 * msPerDay + (msPerDay - 1) in
  0 <= snd next <= 11
  /\ (offsetOfLocal tz (lastLocal + 1) = offsetOfLocal tz lastLocal ->
      monthStartOf tz (fst next) (snd next) = monthEndOf tz year month + 1)
  /\ navigateMonth (-1) next = (year, month).
Proof.
  intros Hm Hy next lastLocal. subst next. unfold navigateMonth.
  assert (Hnext : forall y' m',
            civilDay y' m' 1 = civilDay year (month + 1) 0 + 1 ->
            offsetOfLocal tz (lastLocal + 1) = offsetOfLocal tz lastLocal ->
            monthStartOf tz y' m' = monthEndOf tz year month + 1).
  { intros y' m' E Hoff.
    unfold monthStartOf, newDate, midnight, monthEndOf, newDateTime, UTC.
    rewrite E.
    replace ((civilDay year (month + 1) 0 + 1) * msPerDay)
      with (lastLocal + 1) by (subst lastLocal; unfold msPerDay; ring).
    replace (civilDay year (month + 1) 0 * msPerDay
             + (23 * msPerHour + 59 * 60000 + 59 * 1000 + 999))
      with lastLocal by (subst lastLocal; unfold msPerDay, msPerHour; ring).
    rewrite Hoff. ring. }
  destruct (Z.ltb_spec 11 (month + 1)) as [Hlast | Hmid].
  - assert (month = 11) by lia. subst month.
    change (0 <? 0) with false. cbn [fst snd].
    change (11 <? 0 + -1) with false. change (0 + -1 <? 0) with true.
    split; [lia |]. split; [| f_equal; lia].
    intros Hoff. apply Hnext; [| exact Hoff]. unfold civilDay.
    destruct (Z.leb_spec 0 (year + 1)); [| lia].
    destruct (Z.leb_spec (year + 1) 99); [lia |].
    destruct (Z.leb_spec 0 year); [| lia].
    destruct (Z.leb_spec year 99); [lia |].
    cbn [andb]. change (11 + 1) with 12.
    change (0 / 12) with 0. change (12 / 12) with 1.
    change (0 mod 12) with 0. change (12 mod 12) with 0.
    rewrite Z.add_0_r. lia.
  - destruct (Z.ltb_spec (month + 1) 0) as [Hneg | _]; [lia |].
    cbn [fst snd]. split; [lia |]. split.
    + intros Hoff. apply Hnext; [| exact Hoff]. unfold civilDay. lia.
    + destruct (Z.ltb_spec 11 (month + 1 + -1)) as [H | _]; [lia |].
      destruct (Z.ltb_spec (month + 1 + -1) 0) as [H | _]; [lia |].
      f_equal. lia.
Qed.

Lemma navigateMonth_witness :
  (0 <= 11 <= 11 /\ 100 <= 2025)
  /\ navigateMonth 1 (2025, 11) = (2026, 0)
  /\ monthStartOf newYork2026 2026 0 = monthEndOf newYork2026 2025 11 + 1.
Proof.
  split; [lia |]. split; [reflexivity |].
  exact (proj1 (proj2 (navigateMonth_steps_to_the_adjacent_month newYork2026
                         2025 11 ltac:(lia) ltac:(lia)))
               eq_refl).
Defined.

(** The number of weeks of the loop that contain [t]. *)
Lemma weeksLoop_count (tz : TimeZone) (fuel : nat) (D monthEnd t : Z) :
  wholeDays tz ->
  localDay tz monthEnd - D < 7 * Z.of_nat fuel ->
  let ws := weeksLoop tz fuel (midnight tz D) monthEnd in
  List.length (List.filter (fun w => between (fst w) (snd w) t) ws)
  = if (D <=? localDay tz t)
       && (localDay tz t <? D + 7 * Z.of_nat (List.length ws))
    then 1%nat else 0%nat.
Proof.
  intros Hwhole. revert D.
  induction fuel as [| fuel IH]; intros D Hfuel; simpl.
  - rewrite Z.add_0_r.
    destruct (Z.leb_spec D (localDay tz t));
      destruct (Z.ltb_spec (localDay tz t) D); simpl; try lia; reflexivity.
  - destruct (Z.leb_spec (midnight tz D) monthEnd) as [Hle | Hgt].
    + rewrite (addDays_midnight tz Hwhole D 7).
      assert (Hfuel' : localDay tz monthEnd - (D + 7) < 7 * Z.of_nat fuel)
        by lia.
      specialize (IH (D + 7) Hfuel'). cbv zeta in IH.
      cbn [List.filter fst snd List.length].
      unfold endOfDay at 1.
      rewrite (addDays_midnight tz Hwhole), (localDay_midnight tz Hwhole).
      rewrite (between_local_days tz Hwhole).
      set (ws := weeksLoop tz fuel (midnight tz (D + 7)) monthEnd) in *.
      destruct (Z.leb_spec D (localDay tz t)) as [H1 | H1];
        destruct (Z.leb_spec (localDay tz t) (D + 6)) as [H2 | H2];
        cbn [andb List.length]; rewrite IH;
        destruct (Z.leb_spec (D + 7) (localDay tz t));
        destruct (Z.ltb_spec (localDay tz t)
                    (D + 7 + 7 * Z.of_nat (List.length ws)));
        destruct (Z.ltb_spec (localDay tz t)
                    (D + 7 * Z.of_nat (S (List.length ws))));
        cbn [andb]; try lia; try reflexivity.
    + cbn [List.filter List.length]. rewrite Z.add_0_r.
      destruct (Z.leb_spec D (localDay tz t));
        destruct (Z.ltb_spec (localDay tz t) D); simpl; try lia; reflexivity.
Qed.

(** X9. In a time zone whose clock changes do not touch midnight, the weeks
    of a monthly summary do not overlap and cover the month: a time whose
    local day is one of the days from the first Monday to the last day of
    the last week lies in exactly one week, any other time in none, and
    every time of the month lies in exactly one week.  So an entry clocked
    in during the month is counted in exactly one weekly column. *)
Theorem month_weeks_cover_the_month_once (tz : TimeZone) (year month t : Z) :
  wholeDays tz ->
  let weeks := monthWeeks tz year month in
  let monday := localDay tz (firstWeekStart tz year month) in
  let count :=
    List.length (List.filter (fun w => between (fst w) (snd w) t) weeks) in
  count = (if (monday <=? localDay tz t)
              && (localDay tz t <? monday + 7 * Z.of_nat (List.length weeks))
           then 1%nat else 0%nat)
  /\ (monthStartOf tz year month <= t <= monthEndOf tz year month ->
      count = 1%nat).
Proof.
  intros Hwhole weeks monday count.
  destruct (firstWeekStart_monday tz Hwhole year month) as (Hw0 & _ & Hin).
  destruct (monthWeeks_spec tz Hwhole year month) as (_ & Hlast).
  cbv zeta in Hw0, Hin, Hlast.
  set (first := civilDay year month 1) in *.
  assert (Hmonday : monday = first - (first + 3) mod 7).
  { subst monday. rewrite Hw0. apply (localDay_midnight tz Hwhole). }
  rewrite <- Hmonday in *.
  pose proof (weeksLoop_count tz _ monday (monthEndOf tz year month) t Hwhole
                (weeksFuel_enough tz Hwhole monday (monthEndOf tz year month)))
    as Hcount.
  cbv zeta in Hcount.
  assert (Hweeks : weeks
                   = weeksLoop tz (weeksFuel tz (midnight tz monday)
                                     (monthEndOf tz year month))
                       (midnight tz monday) (monthEndOf tz year month)).
  { subst weeks. unfold monthWeeks. now rewrite Hw0. }
  rewrite <- Hweeks in Hcount. fold count in Hcount.
  fold weeks in Hlast.
  split; [exact Hcount |].
  intros (Hlo & Hhi). rewrite Hcount.
  unfold monthStartOf, newDate in Hlo. fold first in Hlo.
  apply (midnight_le_iff tz Hwhole) in Hlo.
  assert (Hlt : t < midnight tz (monday + 7 * Z.of_nat (List.length weeks)))
    by lia.
  assert (Hday : localDay tz t < monday + 7 * Z.of_nat (List.length weeks)).
  { destruct (Z.lt_ge_cases (localDay tz t)
                (monday + 7 * Z.of_nat (List.length weeks))) as [H | H];
      [exact H |].
    apply (midnight_le_iff tz Hwhole) in H. lia. }
  destruct (Z.leb_spec monday (localDay tz t)); [| lia].
  destruct (Z.ltb_spec (localDay tz t)
              (monday + 7 * Z.of_nat (List.length weeks)));
    [reflexivity | lia].
Qed.

Lemma month_weeks_witness :
  wholeDays newYork2026
  /\ (monthStartOf newYork2026 2026 2 <= 1772947800000
      <= monthEndOf newYork2026 2026 2)
  /\ List.length
       (List.filter (fun w => between (fst w) (snd w) 1772947800000)
                    (monthWeeks newYork2026 2026 2)) = 1%nat.
Proof.
  assert (H : monthStartOf newYork2026 2026 2 <= 1772947800000
              <= monthEndOf newYork2026 2026 2)
    by (vm_compute; split; discriminate).
  split; [exact newYork2026_wholeDays |]. split; [exact H |].
  exact (proj2 (month_weeks_cover_the_month_once newYork2026 2026 2
                  1772947800000 newYork2026_wholeDays) H).
Defined.

Section Summaries.

Variable tz : TimeZone.
Variable employees : list TCEmployee.
Variable entries : list TCTimeEntry.
Variable overtime : TCOvertimeSettings.
Variable now : Z.

(** X12. The weekly and the monthly summary have one row for each active
    employee, in the order of the employee list, and none for an inactive
    one; a weekly row has seven days, and all monthly rows have one column
    for each week of the month (the admin page takes the number of columns
    from the first row). *)
Theorem summaries_have_a_row_per_active_employee (weekStart year month : Z) :
  let weekly := getWeeklySummary tz employees entries overtime now weekStart in
  let monthly := getMonthlySummary tz employees entries now year month in
  List.map ws_employee weekly = List.filter is_active employees
  /\ List.map ms_employee monthly = List.filter is_active employees
  /\ (forall row, List.In row weekly ->
        List.length (dailyHours row) = 7%nat
        /\ List.length (dailyOvertimeFlags row) = 7%nat)
  /\ (forall row, List.In row monthly ->
        List.length (weeklyHours row)
        = List.length (monthWeeks tz year month)).
Proof.
  intros weekly monthly. subst weekly monthly.
  unfold getWeeklySummary, getMonthlySummary.
  destruct (getWeekRange tz weekStart) as [st en].
  rewrite !List.map_map. cbn [ws_employee weeklyRow ms_employee monthlyRow].
  rewrite !List.map_id.
  split; [reflexivity |]. split; [reflexivity |]. split.
  - intros row Hrow. apply List.in_map_iff in Hrow as (employee & <- & _).
    split; reflexivity.
  - intros row Hrow. apply List.in_map_iff in Hrow as (employee & <- & _).
    cbn [weeklyHours monthlyRow]. apply List.length_map.
Qed.

Lemma find_existsb {A : Type} (p : A -> bool) (l : list A) :
  List.existsb p l = match List.find p l with Some _ => true | None => false end.
Proof.
  induction l as [| x l IH]; simpl; [reflexivity |].
  destruct (p x); [reflexivity | exact IH].
Qed.

Hypothesis Hwhole : wholeDays tz.

Lemma between_same_day (t c : Z) :
  between (startOfDay tz t) (endOfDay tz t) c
  = (localDay tz c =? localDay tz t).
Proof.
  unfold startOfDay, endOfDay. rewrite (between_local_days tz Hwhole).
  destruct (Z.leb_spec (localDay tz t) (localDay tz c));
    destruct (Z.leb_spec (localDay tz c) (localDay tz t));
    destruct (Z.eqb_spec (localDay tz c) (localDay tz t));
    cbn [andb]; try reflexivity; lia.
Qed.

(** X13. In a time zone whose clock changes do not touch midnight, the
    daily log lists, in the order of the entries, the entries clocked in on
    the local day of the date whose employee is on the employee list, active
    or not; a row carries the hours (the double that [getHours] returns) and
    the stale flag of its entry. *)
Theorem daily_log_lists_the_entries_of_the_day (date : Z) :
  let rows := getDailyEntries tz employees entries overtime now date in
  List.map de_entry rows
  = List.filter (fun e => (localDay tz (clock_in e) =? localDay tz date)
                          && knownEmployee employees e) entries
  /\ forall row, List.In row rows ->
       List.In (de_employee row) employees
       /\ de_hours row = getHoursNumber now (de_entry row)
       /\ de_isStale row = isStale now (de_entry row).
Proof.
  intros rows. subst rows. unfold getDailyEntries. split.
  - generalize entries at 2 3. intros l.
    induction l as [| e l IH]; [reflexivity |].
    cbn [List.filter]. rewrite between_same_day.
    destruct (localDay tz (clock_in e) =? localDay tz date);
      cbn [andb]; [| exact IH].
    cbn [List.flat_map]. unfold knownEmployee at 1. rewrite find_existsb.
    destruct (List.find _ employees); cbn [List.app List.map de_entry];
      [f_equal |]; exact IH.
  - intros row H. apply List.in_flat_map in H as (entry & _ & H).
    destruct (List.find _ employees) as [employee |] eqn:E; [| destruct H].
    destruct H as [<- | []]. cbn [de_employee de_entry de_hours de_isStale].
    apply List.find_some in E as (Hin & _). auto.
Qed.

End Summaries.

Lemma summaries_rows_witness :
  let row :=
    weeklyRow utc fiveShifts defaultOvertime 0
      (fst (getWeekRange utc aWednesday)) (snd (getWeekRange utc aWednesday))
      ann in
  List.In row
    (getWeeklySummary utc [ann] fiveShifts defaultOvertime 0 aWednesday)
  /\ List.length (dailyHours row) = 7%nat.
Proof.
  intros row.
  assert (Hin : List.In row
    (getWeeklySummary utc [ann] fiveShifts defaultOvertime 0 aWednesday))
    by (left; reflexivity).
  split; [exact Hin |].
  exact (proj1 (proj1 (proj2 (proj2
           (summaries_have_a_row_per_active_employee utc [ann] fiveShifts
              defaultOvertime 0 aWednesday 2026 1))) row Hin)).
Defined.

Lemma daily_log_witness :
  wholeDays newYork2026
  /\ exists row,
       List.In row (getDailyEntries newYork2026 [ann] marchSunday
                      defaultOvertime 0 1772980200000)
       /\ de_hours row = Number.ofZ 9
       /\ List.In (de_employee row) [ann].
Proof.
  split; [exact newYork2026_wholeDays |].
  eexists.
  assert (Hin : List.In _ (getDailyEntries newYork2026 [ann] marchSunday
                             defaultOvertime 0 1772980200000))
    by (left; reflexivity).
  split; [exact Hin |]. split; [reflexivity |].
  exact (proj1 (proj2 (daily_log_lists_the_entries_of_the_day newYork2026
                         [ann] marchSunday defaultOvertime 0
                         newYork2026_wholeDays 1772980200000) _ Hin)).
Defined.

End TimeClockCalendarFacts.

(** ** The route: answers, calls and the cache *)

Module CommissionRouteCallsFacts.

Import JS Phorest CommissionRoute CommissionRouteSpec CommissionRouteCalls.
Import CommissionRouteFacts PhorestFacts.

Section Calls.

Variable isSupabaseConfigured : bool.
Variable fetchBranches : Outcome (list PhorestBranch).
Variable fetchStaff : string -> Outcome (list PhorestStaff).
Variable fetchAppointments :
  string -> string -> string -> Outcome (list PhorestAppointment).
Variable fetchClientsBatch : list string -> Outcome (list PhorestClient).
Variable calculateCommissions :
  list BranchData -> list PhorestClient -> string -> string ->
  CommissionResult.
Variable clock : nat -> Z.
Variable tz : JSDate.TimeZone.

Local Abbreviation post' :=
  (post isSupabaseConfigured fetchBranches fetchStaff fetchAppointments
        fetchClientsBatch calculateCommissions clock tz).
Local Abbreviation computeAndCache' :=
  (computeAndCache isSupabaseConfigured fetchBranches fetchStaff
                   fetchAppointments fetchClientsBatch calculateCommissions
                   clock tz).
Local Abbreviation checkCache' := (checkCache isSupabaseConfigured clock).
Local Abbreviation fetchBranchData' :=
  (fetchBranchData fetchStaff fetchAppointments).

Lemma addEvents_nil (w : World) : addEvents w [] = w.
Proof. destruct w. unfold addEvents. simpl. now rewrite app_nil_r. Qed.

(** The loop over the branches: when it resolves, it has made the two calls
    of every branch, and each element holds what the calls returned. *)
Lemma fetchBranchData_resolved (bs : list PhorestBranch) (s e : string)
    (w w1 : World) (bdl : list BranchData) :
  fetchBranchData' bs s e w = (Resolved bdl, w1) ->
  w1 = addEvents w (branchCalls s e bs)
  /\ List.map branch bdl = bs
  /\ (forall bd, List.In bd bdl ->
        fetchStaff (branchId (branch bd)) = Resolved (staff bd)
        /\ fetchAppointments (branchId (branch bd)) s e
           = Resolved (appointments bd)).
Proof.
  revert w bdl. induction bs as [| b bs IH]; intros w bdl H.
  - simpl in H. injection H as <- <-.
    split; [symmetry; apply addEvents_nil |]. split; [reflexivity |].
    intros bd [].
  - cbn [fetchBranchData] in H.
    apply bind_resolved in H as (sa & wa & Ha & H).
    apply bind_resolved in H as (more & wb & Hb & H).
    injection H as <- <-.
    unfold fetchStaffAndAppointments, bind, emit in Ha. cbn in Ha.
    destruct (fetchStaff (branchId b)) as [st | msg] eqn:Est;
      [| discriminate].
    destruct (fetchAppointments (branchId b) s e) as [ap | msg] eqn:Eap;
      [| discriminate].
    injection Ha as <- <-.
    destruct (IH _ _ Hb) as (-> & Hmap & Hall).
    split.
    + unfold addEvents. cbn. f_equal. rewrite <- !app_assoc. reflexivity.
    + split; [cbn; now rewrite Hmap |].
      intros bd [<- | Hin]; [cbn; split; assumption | now apply Hall].
Qed.

(** The loop never touches the cache or the clock. *)
Lemma fetchBranchData_world (bs : list PhorestBranch) (s e : string)
    (w : World) :
  cache (snd (fetchBranchData' bs s e w)) = cache w
  /\ clockReads (snd (fetchBranchData' bs s e w)) = clockReads w.
Proof.
  destruct (apiOnly_fetchBranchData fetchStaff fetchAppointments bs s e w)
    as (H1 & H2 & _).
  now split.
Qed.

(** What [computeAndCache] does, outcome by outcome: a rejection leaves the
    cache as it was; an answer is a 200 with the result calculated from the
    data fetched, after one call for the branches, two for each branch and
    one for the clients, and a cache write when Supabase is configured. *)
Lemma computeAndCache_run (s e k : string) (w : World) :
  match computeAndCache' s e k w with
  | (Rejected _, w1) => cache w1 = cache w
  | (Resolved resp, w1) =>
      exists bs bdl cl,
        fetchBranches = Resolved bs
        /\ List.map branch bdl = bs
        /\ (forall bd, List.In bd bdl ->
              fetchStaff (branchId (branch bd)) = Resolved (staff bd)
              /\ fetchAppointments (branchId (branch bd)) s e
                 = Resolved (appointments bd))
        /\ fetchClientsBatch (collectClientIds bdl) = Resolved cl
        /\ resp = json (ResultBody (calculateCommissions bdl cl s e)) 200
        /\ trace w1
           = (trace w
              ++ FetchBranches :: branchCalls s e bs
              ++ FetchClientsBatch (collectClientIds bdl)
                 :: (if isSupabaseConfigured then [CacheUpsert k] else []))%list
        /\ (forall k', k' <> k -> cache w1 !! k' = cache w !! k')
        /\ (isSupabaseConfigured = false -> cache w1 = cache w)
  end.
Proof.
  unfold computeAndCache.
  unfold bind at 1, call, bind at 1, emit. cbv beta iota.
  destruct fetchBranches as [bs | msg]; [| reflexivity].
  set (w0 := {| cache := cache w; clockReads := clockReads w;
                trace := (trace w ++ [FetchBranches])%list |}).
  unfold bind at 1.
  pose proof (fetchBranchData_world bs s e w0) as (Hc & _).
  destruct (fetchBranchData' bs s e w0) as [[bdl | msg] wb] eqn:Hb;
    [| exact Hc].
  apply fetchBranchData_resolved in Hb as (-> & Hmap & Hall).
  clear Hc.
  unfold bind at 1, bind at 1, emit. cbv beta iota.
  destruct (fetchClientsBatch (collectClientIds bdl)) as [cl | msg] eqn:Hcl;
    [| reflexivity].
  destruct isSupabaseConfigured.
  - unfold bind, newDate, cacheUpsert, emit, ret. cbn.
    exists bs, bdl, cl. repeat split; try assumption.
    + now apply Hall.
    + now apply Hall.
    + rewrite <- !app_assoc. reflexivity.
    + intros k' Hk'. now rewrite lookup_insert_ne.
    + discriminate.
  - unfold bind, ret. cbn.
    exists bs, bdl, cl. repeat split; try assumption.
    + now apply Hall.
    + now apply Hall.
    + rewrite <- !app_assoc. reflexivity.
Qed.

(** The cache check always resolves; it leaves the cache as it is, reads it
    exactly when Supabase is configured and no refresh is forced, and finds
    nothing when the row is missing or expired. *)
Lemma checkCache_run (k : string) (force : bool) (w : World) :
  exists hit w1,
    checkCache' k force w = (Resolved hit, w1)
    /\ cache w1 = cache w
    /\ trace w1
       = (trace w ++ (if isSupabaseConfigured && negb force
                      then [CacheSelect k] else []))%list
    /\ (force = true
        \/ match cache w !! k with
           | None => True
           | Some row => expires_at row <= clock (clockReads w)
           end ->
        hit = None).
Proof.
  destruct (isSupabaseConfigured && negb force) eqn:Hc.
  - pose proof (checkCache_looked_up isSupabaseConfigured clock k force w Hc)
      as Hlook. cbv zeta in Hlook. rewrite Hlook.
    destruct (cache w !! k) as [row |] eqn:Hrow.
    + eexists _, _. split; [reflexivity |]. cbn.
      split; [reflexivity |]. split; [reflexivity |].
      intros [-> | Hexp]; [rewrite andb_false_r in Hc; discriminate |].
      destruct (Z.ltb_spec (clock (clockReads w)) (expires_at row));
        [lia | reflexivity].
    + eexists _, _. split; [reflexivity |]. cbn. auto.
  - rewrite (checkCache_bypassed isSupabaseConfigured clock k force w Hc).
    eexists _, _. split; [reflexivity |]. rewrite app_nil_r. auto.
Qed.

(** The handler, case by case. *)
Lemma post_run (request : Outcome Body) (w : World) :
  exists resp w1,
    post' request w = (Resolved resp, w1)
    /\ ((status resp = 400 /\ w1 = w)
        \/ (status resp = 500 /\ cache w1 = cache w
            /\ forall msg, request = Rejected msg ->
                           resp = json (ErrorBody msg) 500 /\ w1 = w)
        \/ (status resp = 200
            /\ exists body,
                 request = Resolved body
                 /\ (forall k', k' <> dateRangeKeyOf (text (startDate body))
                                                     (text (endDate body)) ->
                                cache w1 !! k' = cache w !! k')
                 /\ (isSupabaseConfigured = false -> cache w1 = cache w))).
Proof.
  unfold post, POST, tryCatch.
  destruct request as [body | msg].
  2:{ eexists _, _. split; [reflexivity |]. right; left. cbn.
      split; [reflexivity |]. split; [reflexivity |].
      intros msg' H. injection H as <-. now split. }
  destruct (negb (present (startDate body)) || negb (present (endDate body))).
  { eexists _, _. split; [reflexivity |]. left. now split. }
  destruct (negb (dateRegex_test (text (startDate body)))
            || negb (dateRegex_test (text (endDate body)))).
  { eexists _, _. split; [reflexivity |]. left. now split. }
  destruct (str_gt (text (startDate body)) (text (endDate body))).
  { eexists _, _. split; [reflexivity |]. left. now split. }
  set (s := text (startDate body)). set (e := text (endDate body)).
  cbv zeta. unfold bind at 1.
  destruct (checkCache_run (dateRangeKeyOf s e) (forceRefresh body) w)
    as (hit & w0 & -> & Hcache & _ & _).
  destruct hit as [r |].
  { eexists _, _. split; [reflexivity |]. right; right.
    split; [reflexivity |]. exists body. split; [reflexivity |].
    split; [intros k' _; now rewrite Hcache | intros _; exact Hcache]. }
  pose proof (computeAndCache_run s e (dateRangeKeyOf s e) w0) as Hrun.
  destruct (computeAndCache' s e (dateRangeKeyOf s e) w0) as [[resp | msg] w1].
  - destruct Hrun as (bs & bdl & cl & _ & _ & _ & _ & -> & _ & Hk & Hn).
    eexists _, _. split; [reflexivity |]. right; right.
    split; [reflexivity |]. exists body. split; [reflexivity |].
    split.
    + intros k' Hk'. rewrite (Hk k' Hk'). now rewrite Hcache.
    + intros Hcfg. rewrite (Hn Hcfg). exact Hcache.
  - eexists _, _. split; [reflexivity |]. right; left.
    split; [reflexivity |]. split; [congruence |]. discriminate.
Qed.

(** X14. The handler answers every request: whatever the body, the cache
    and the API calls do, the promise resolves with a response of status
    200, 400 or 500.  When the body cannot be read the answer is a 500 with
    the message of the failure and nothing else has happened. *)
Theorem post_always_answers (request : Outcome Body) (w : World) :
  exists resp w1,
    post' request w = (Resolved resp, w1)
    /\ (status resp = 200 \/ status resp = 400 \/ status resp = 500)
    /\ (forall msg, request = Rejected msg ->
                    resp = json (ErrorBody msg) 500 /\ w1 = w).
Proof.
  destruct (post_run request w) as (resp & w1 & Hrun & Hcase).
  exists resp, w1. split; [exact Hrun |].
  destruct Hcase as [(H4 & _) | [(H5 & _ & Hmsg) | (H2 & body & -> & _)]].
  - split; [auto |]. intros msg ->.
    unfold post, POST, tryCatch in Hrun. cbn in Hrun.
    injection Hrun as <- <-. now split.
  - split; [auto | exact Hmsg].
  - split; [auto | discriminate].
Qed.

(** X15. The cache is written only by an answer 200: after a 400 or a 500
    the cache table is what it was, whichever call failed.  No request
    changes a row other than the one of its own date range, and without
    Supabase configured the cache is never changed. *)
Theorem cache_is_written_only_by_an_answer (request : Outcome Body)
    (w : World) :
  let out := post' request w in
  (forall resp, fst out = Resolved resp -> status resp <> 200 ->
                cache (snd out) = cache w)
  /\ (isSupabaseConfigured = false -> cache (snd out) = cache w)
  /\ (forall body k',
        request = Resolved body ->
        k' <> dateRangeKeyOf (text (startDate body)) (text (endDate body)) ->
        cache (snd out) !! k' = cache w !! k').
Proof.
  intros out. subst out.
  destruct (post_run request w) as (resp & w1 & -> & Hcase). cbn [fst snd].
  destruct Hcase as [(H4 & ->) | [(H5 & Hc & _) | (H2 & body & -> & Hk & Hn)]].
  - repeat split; auto.
  - repeat split; auto. intros; now rewrite Hc.
  - split; [| split].
    + intros resp' H Hne. injection H as <-. contradiction.
    + exact Hn.
    + intros body' k' H. injection H as <-. apply Hk.
Qed.

(** X16. An answer that is computed (a refresh is forced, or the cache has
    no row for the range, or its row has expired) takes one call for the
    branches, then the staff call and the appointments call of every branch
    in the order of the branches, then one call for all clients; the answer
    is what the calculator makes of the data these calls returned; the cache
    is read first exactly when Supabase is configured and no refresh is
    forced, and written last exactly when Supabase is configured. *)
Theorem computed_answer_calls_each_branch_once (s e : string) (force : bool)
    (w w1 : World) (resp : Response) :
  validRange s e ->
  notCached clock w s e force ->
  post' (requestFor s e force) w = (Resolved resp, w1) ->
  status resp = 200 ->
  exists bs bdl cl,
    fetchBranches = Resolved bs
    /\ List.map branch bdl = bs
    /\ (forall bd, List.In bd bdl ->
          fetchStaff (branchId (branch bd)) = Resolved (staff bd)
          /\ fetchAppointments (branchId (branch bd)) s e
             = Resolved (appointments bd))
    /\ fetchClientsBatch (collectClientIds bdl) = Resolved cl
    /\ resp = json (ResultBody (calculateCommissions bdl cl s e)) 200
    /\ trace w1
       = (trace w
          ++ (if isSupabaseConfigured && negb force
              then [CacheSelect (dateRangeKeyOf s e)] else [])
          ++ FetchBranches :: branchCalls s e bs
          ++ FetchClientsBatch (collectClientIds bdl)
             :: (if isSupabaseConfigured
                 then [CacheUpsert (dateRangeKeyOf s e)] else []))%list.
Proof.
  intros Hv Hmiss Hpost H200.
  rewrite (post_valid isSupabaseConfigured fetchBranches fetchStaff
             fetchAppointments fetchClientsBatch calculateCommissions clock
             tz s e force w Hv) in Hpost.
  unfold afterValidation, tryCatch in Hpost. unfold bind at 1 in Hpost.
  destruct (checkCache_run (dateRangeKeyOf s e) force w)
    as (hit & w0 & Hcheck & _ & Htrace & Hnone).
  rewrite Hcheck in Hpost. rewrite (Hnone Hmiss) in Hpost.
  pose proof (computeAndCache_run s e (dateRangeKeyOf s e) w0) as Hrun.
  destruct (computeAndCache' s e (dateRangeKeyOf s e) w0) as [[resp' | msg] w2].
  - injection Hpost as <- <-.
    destruct Hrun as (bs & bdl & cl & H1 & H2 & H3 & H4 & H5 & H6 & _).
    exists bs, bdl, cl. repeat split; try assumption.
    + now apply H3.
    + now apply H3.
    + rewrite H6, Htrace, <- app_assoc. reflexivity.
  - unfold ret in Hpost. injection Hpost as <- <-. discriminate.
Qed.

(** X17. The client ids sent to the batch call: every non-empty client id
    of an appointment of some branch, each exactly once, and nothing
    else. *)
Theorem client_ids_are_collected_once (bdl : list BranchData) :
  List.NoDup (collectClientIds bdl)
  /\ forall id,
       List.In id (collectClientIds bdl)
       <-> id <> ""
           /\ exists bd a, List.In bd bdl /\ List.In a (appointments bd)
                           /\ appt_clientId a = id.
Proof.
  unfold collectClientIds. split; [apply dedup_NoDup |].
  intros id. rewrite dedup_In, List.filter_In, List.in_flat_map.
  unfold truthy. rewrite negb_true_iff. split.
  - intros ((bd & Hbd & Hin) & Hne).
    apply List.in_map_iff in Hin as (a & Ha & Hin).
    split; [now apply String.eqb_neq |]. now exists bd, a.
  - intros (Hne & bd & a & Hbd & Ha & Hid). split.
    + exists bd. split; [exact Hbd |]. apply List.in_map_iff. now exists a.
    + now apply String.eqb_neq.
Qed.

End Calls.

Lemma isDigit_bounds (c : ascii) :
  isDigit c = true -> (48 <= N_of_ascii c <= 57)%N.
Proof.
  unfold isDigit. intros H. apply andb_true_iff in H as (H1 & H2).
  apply N.leb_le in H1, H2. now split.
Qed.

Lemma isHyphen_eq (c : ascii) : isHyphen c = true -> c = "-"%char.
Proof. unfold isHyphen. apply Ascii.eqb_eq. Qed.

(** X18. On strings of the form YYYY-MM-DD the order of strings is the
    order of the dates by year, then month, then day: comparing two such
    strings gives what comparing the numbers YYYYMMDD gives.  So the check
    [startDate > endDate] rejects exactly the ranges whose start date comes
    after the end date. *)
Theorem string_order_of_dates_is_calendar_order (s e : string) :
  dateRegex_test s = true -> dateRegex_test e = true ->
  String.compare s e = Z.compare (dateNumber s) (dateNumber e)
  /\ (str_gt s e = true <-> dateNumber e < dateNumber s).
Proof.
  intros Hs He.
  assert (Hcmp : String.compare s e = Z.compare (dateNumber s) (dateNumber e)).
  { unfold dateRegex_test, dateNumber in *.
    rewrite <- (string_of_list_ascii_of_string s) at 1.
    rewrite <- (string_of_list_ascii_of_string e) at 1.
    destruct (list_ascii_of_string s)
      as [| a1 [| a2 [| a3 [| a4 [| a5 [| a6 [| a7 [| a8 [| a9 [| a10 [| ? ?]]]]]]]]]]];
      try discriminate Hs.
    destruct (list_ascii_of_string e)
      as [| b1 [| b2 [| b3 [| b4 [| b5 [| b6 [| b7 [| b8 [| b9 [| b10 [| ? ?]]]]]]]]]]];
      try discriminate He.
    repeat (apply andb_true_iff in Hs as (Hs & ?)).
    repeat (apply andb_true_iff in He as (He & ?)).
    repeat match goal with
    | H : isHyphen _ = true |- _ => apply isHyphen_eq in H; subst
    | H : isDigit _ = true |- _ => apply isDigit_bounds in H
    end.
    cbn [string_of_list_ascii String.compare]. unfold Ascii.compare.
    change (N_of_ascii "-" ?= N_of_ascii "-")%N with Eq.
    unfold digitValue.
    repeat match goal with
    | |- context [(N_of_ascii ?a ?= N_of_ascii ?b)%N] =>
        destruct (N.compare_spec (N_of_ascii a) (N_of_ascii b))
    end;
    symmetry;
    first [ apply Z.compare_eq_iff; lia
          | apply Z.compare_lt_iff; lia
          | apply Z.compare_gt_iff; lia ]. }
  split; [exact Hcmp |].
  unfold str_gt. rewrite Hcmp.
  destruct (Z.compare_spec (dateNumber s) (dateNumber e)); split;
    intros; try discriminate; try reflexivity; lia.
Qed.

Lemma string_order_of_dates_witness :
  (dateRegex_test "2026-02-01" = true /\ dateRegex_test "2026-01-31" = true)
  /\ str_gt "2026-02-01" "2026-01-31" = true
  /\ dateNumber "2026-01-31" < dateNumber "2026-02-01".
Proof.
  split; [split; reflexivity |]. split; [reflexivity |].
  exact (proj1 (proj2 (string_order_of_dates_is_calendar_order
                         "2026-02-01" "2026-01-31" eq_refl eq_refl))
               eq_refl).
Defined.

Lemma post_always_answers_witness :
  exists resp w1,
    samplePost true (Rejected "Unexpected end of JSON input") emptyWorld
    = (Resolved resp, w1)
    /\ resp = json (ErrorBody "Unexpected end of JSON input") 500
    /\ w1 = emptyWorld.
Proof.
  destruct (post_always_answers true (Resolved [sampleBranch])
              (fun _ => Resolved [sampleStaff])
              (fun _ _ _ => Resolved sampleAppointments)
              (fun _ => Resolved sampleClients)
              (Phorest.calculateCommissions "2026-01-01T00:00:00.000Z")
              sampleClock JSDate.newYork2026 (Rejected "Unexpected end of JSON input")
              emptyWorld) as (resp & w1 & Hrun & _ & Hmsg).
  exists resp, w1. split; [exact Hrun |]. exact (Hmsg _ eq_refl).
Defined.

(** A deployment whose appointments call fails. *)
Lemma cache_written_only_by_an_answer_witness :
  let out :=
    post true (Resolved [sampleBranch]) (fun _ => Resolved [sampleStaff])
         (fun _ _ _ => Rejected "Phorest API error: 503")
         (fun _ => Resolved sampleClients)
         (Phorest.calculateCommissions "2026-01-01T00:00:00.000Z")
         sampleClock JSDate.newYork2026 (requestFor "2026-01-01" "2026-01-31" true) emptyWorld in
  fst out = Resolved (json (ErrorBody "Phorest API error: 503") 500)
  /\ cache (snd out) = cache emptyWorld.
Proof.
  intros out. split; [reflexivity |].
  refine (proj1 (cache_is_written_only_by_an_answer true
                   (Resolved [sampleBranch]) (fun _ => Resolved [sampleStaff])
                   (fun _ _ _ => Rejected "Phorest API error: 503")
                   (fun _ => Resolved sampleClients)
                   (Phorest.calculateCommissions "2026-01-01T00:00:00.000Z")
                   sampleClock JSDate.newYork2026 (requestFor "2026-01-01" "2026-01-31" true)
                   emptyWorld)
                (json (ErrorBody "Phorest API error: 503") 500) eq_refl _).
  discriminate.
Defined.

Lemma computed_answer_calls_witness :
  validRange "2026-01-01" "2026-01-31"
  /\ trace (snd (samplePost true (requestFor "2026-01-01" "2026-01-31" true)
                   emptyWorld))
     = [ FetchBranches; FetchStaff "b1";
         FetchAppointments "b1" "2026-01-01" "2026-01-31";
         FetchClientsBatch ["c1"; "c2"; "c3"];
         CacheUpsert "2026-01-01_2026-01-31" ].
Proof.
  assert (Hv : validRange "2026-01-01" "2026-01-31")
    by (repeat split; reflexivity).
  split; [exact Hv |].
  destruct (computed_answer_calls_each_branch_once true
              (Resolved [sampleBranch]) (fun _ => Resolved [sampleStaff])
              (fun _ _ _ => Resolved sampleAppointments)
              (fun _ => Resolved sampleClients)
              (Phorest.calculateCommissions "2026-01-01T00:00:00.000Z")
              sampleClock JSDate.newYork2026 "2026-01-01" "2026-01-31" true emptyWorld
              (snd (samplePost true
                      (requestFor "2026-01-01" "2026-01-31" true) emptyWorld))
              (json (ResultBody sampleResult) 200) Hv
              (or_introl eq_refl) eq_refl eq_refl)
    as (bs & bdl & cl & Hbs & Hmap & Hall & Hcl & Hresp & Htrace).
  injection Hbs as <-.
  destruct bdl as [| bd [| bd' bdl]]; try discriminate Hmap.
  injection Hmap as Hb.
  destruct (Hall bd (or_introl eq_refl)) as (_ & Hap).
  injection Hap as Hap.
  rewrite Htrace. unfold collectClientIds. cbn [List.flat_map List.app].
  rewrite <- Hap. reflexivity.
Defined.

End CommissionRouteCallsFacts.

(** ** The signing page *)

Module SigningViewFieldsFacts.

Import JS SignedToSealed SignedToSealedSpec SigningViewFields.

Lemma length_filter_split {A : Type} (p : A -> bool) (l : list A) :
  (List.length (List.filter p l)
   + List.length (List.filter (fun x => negb (p x)) l)
   = List.length l)%nat.
Proof.
  induction l as [| x l IH]; simpl; [reflexivity |].
  destruct (p x); simpl; lia.
Qed.

Lemma unfilledRequired_eq (s : Session) (fv : gmap string string) :
  unfilledRequired s fv
  = List.filter (fun f => negb (filled fv f)) (requiredFields s).
Proof. reflexivity. Qed.

(** The progress in terms of the two counts. *)
Lemma progress_cases (s : Session) (fv : gmap string string) :
  let r := List.length (requiredFields s) in
  let u := List.length (unfilledRequired s fv) in
  (u <= r)%nat
  /\ (progress s fv * inject_Z (Z.of_nat r)
      == 100 * inject_Z (Z.of_nat (r - u)))%Q
  /\ (r = 0%nat -> progress s fv = 100%Q).
Proof.
  intros r u.
  pose proof (length_filter_split (filled fv) (requiredFields s)) as Hsplit.
  rewrite <- unfilledRequired_eq in Hsplit. fold u r in Hsplit.
  fold (filledRequired s fv) in Hsplit.
  split; [lia |].
  unfold progress, count. fold r.
  destruct (Nat.ltb_spec 0 r) as [Hpos | Hzero].
  - split; [| lia].
    replace (List.length (filledRequired s fv)) with (r - u)%nat by lia.
    field. intros H. unfold Qeq in H. simpl in H. lia.
  - split; [| reflexivity].
    assert (r = 0%nat) by lia. assert (u = 0%nat) by lia.
    replace r with 0%nat by lia. replace u with 0%nat by lia. reflexivity.
Qed.

(** X19. The progress of a signing page is 100 exactly when no required
    field of the signer is empty, and below 100 otherwise; so the Finish
    button is enabled exactly when the check that [handleSubmit] makes
    itself passes. *)
Theorem finish_button_agrees_with_submit_check (s : Session)
    (fv : gmap string string) :
  ((progress s fv == 100)%Q <-> unfilledRequired s fv = [])
  /\ ((progress s fv < 100)%Q <-> unfilledRequired s fv <> [])
  /\ (0 <= progress s fv <= 100)%Q
  /\ (finishDisabled false s fv = false
      <-> forall confirmed, submits s fv confirmed = confirmed).
Proof.
  destruct (progress_cases s fv) as (Hle & Hprog & Hzero).
  cbv zeta in *.
  set (r := List.length (requiredFields s)) in *.
  set (u := List.length (unfilledRequired s fv)) in *.
  assert (Hnil : unfilledRequired s fv = [] <-> u = 0%nat).
  { subst u. destruct (unfilledRequired s fv); simpl; split;
      intros H; try reflexivity; discriminate. }
  assert (Hcmp : (u = 0%nat -> (progress s fv == 100)%Q)
                 /\ (u <> 0%nat -> (progress s fv < 100)%Q)
                 /\ (0 <= progress s fv)%Q).
  { destruct (Nat.eq_dec r 0%nat) as [Hr0 | Hr0].
    - rewrite (Hzero Hr0). repeat split; try lia; try reflexivity.
      discriminate.
    - assert (Hrpos : (0 < inject_Z (Z.of_nat r))%Q).
      { change 0%Q with (inject_Z 0). rewrite <- Zlt_Qlt. lia. }
      assert (Hru : (inject_Z (Z.of_nat (r - u))
                     == inject_Z (Z.of_nat r) - inject_Z (Z.of_nat u))%Q).
      { rewrite Nat2Z.inj_sub by lia. unfold Z.sub.
        rewrite inject_Z_plus, inject_Z_opp. ring. }
      rewrite Hru in Hprog.
      assert (Hu0 : (0 <= inject_Z (Z.of_nat u))%Q).
      { change 0%Q with (inject_Z 0). rewrite <- Zle_Qle. lia. }
      assert (Hur : (inject_Z (Z.of_nat u) <= inject_Z (Z.of_nat r))%Q).
      { rewrite <- Zle_Qle. lia. }
      repeat split.
      + intros Hu. rewrite Hu in Hprog. change (inject_Z (Z.of_nat 0)) with 0%Q in Hprog.
        nra.
      + intros Hu.
        assert (Hupos : (0 < inject_Z (Z.of_nat u))%Q).
        { change 0%Q with (inject_Z 0). rewrite <- Zlt_Qlt. lia. }
        nra.
      + nra. }
  destruct Hcmp as (Heq & Hlt & Hnn).
  assert (Hle100 : (progress s fv <= 100)%Q).
  { destruct (Nat.eq_dec u 0%nat) as [E | E].
    - rewrite (Heq E). apply Qle_refl.
    - apply Qlt_le_weak. now apply Hlt. }
  split; [| split; [| split]].
  - rewrite Hnil. split; [| exact Heq].
    intros H. destruct (Nat.eq_dec u 0%nat) as [E | E]; [exact E |].
    apply Hlt in E. rewrite H in E. now apply Qlt_irrefl in E.
  - rewrite Hnil. split; [| exact Hlt].
    intros H E. apply Heq in E. rewrite E in H. now apply Qlt_irrefl in H.
  - now split.
  - unfold finishDisabled, submits. fold u. cbn [orb].
    rewrite negb_false_iff, Qle_bool_iff. split.
    + intros H confirmed.
      assert (E : u = 0%nat).
      { destruct (Nat.eq_dec u 0%nat) as [E | E]; [exact E |].
        apply Hlt in E. exfalso. exact (Qlt_not_le _ _ E H). }
      rewrite E. reflexivity.
    + intros H. specialize (H true).
      apply andb_true_iff in H as (H & _). apply Nat.eqb_eq in H.
      rewrite (Heq H). apply Qle_refl.
Qed.

(** X20. A click on a field of another recipient changes nothing, and a
    click or a saved signature changes no value other than the one of the
    field clicked (for a signature, the field whose modal is open).  A
    signature saved after the click on a signature or initials field of the
    signer is stored under that field. *)
Theorem field_click_changes_only_the_clicked_field (recipient : STSRecipient)
    (field : FieldView) (today : string) (answer : option string)
    (dataUrl : string) (ui : SigningUI) :
  let clicked := handleFieldClick recipient field today answer ui in
  let id := field_id (fv_field field) in
  (recipient_id (fv_field field) <> rec_id recipient -> clicked = ui)
  /\ (forall other, other <> id ->
        fieldValues clicked !! other = fieldValues ui !! other)
  /\ (forall other, activeFieldId ui <> Some other ->
        fieldValues (handleSignatureSave dataUrl ui) !! other
        = fieldValues ui !! other)
  /\ (recipient_id (fv_field field) = rec_id recipient ->
      field_type field = ft_signature \/ field_type field = ft_initials ->
      truthy id = true ->
      fieldValues (handleSignatureSave dataUrl clicked) !! id = Some dataUrl).
Proof.
  intros clicked id. subst clicked. unfold handleFieldClick. fold id.
  split; [| split; [| split]].
  - intros Hne. apply String.eqb_neq in Hne. now rewrite Hne.
  - intros other Hother.
    destruct (String.eqb (recipient_id (fv_field field)) (rec_id recipient));
      cbn [negb]; [| reflexivity].
    destruct (field_type field); cbn [fieldValues setValue];
      try reflexivity;
      try (now rewrite lookup_insert_ne);
      try (destruct answer; cbn [fieldValues setValue];
           [now rewrite lookup_insert_ne | reflexivity]).
    destruct (0 <? List.length (dropdown_options field))%nat; [| reflexivity].
    destruct answer; cbn [fieldValues setValue];
      [now rewrite lookup_insert_ne | reflexivity].
  - intros other Hother. unfold handleSignatureSave.
    destruct (activeFieldId ui) as [a |]; [| reflexivity].
    destruct (truthy a); [| reflexivity]. cbn [fieldValues].
    rewrite lookup_insert_ne; [reflexivity | congruence].
  - intros Hmine Htype Hid. apply String.eqb_eq in Hmine. rewrite Hmine.
    cbn [negb]. unfold handleSignatureSave.
    destruct Htype as [-> | ->]; cbn [activeFieldId]; rewrite Hid;
      cbn [fieldValues]; apply lookup_insert_eq.
Qed.

(** X21. A checkbox of the signer holds "true" after a click unless it
    held "true" before, and then holds "false"; either value is a non-empty
    text, so after one click, and after any further click, the checkbox
    counts as a filled field. *)
Theorem clicked_checkbox_counts_as_filled (recipient : STSRecipient)
    (field : FieldView) (today : string) (answer : option string)
    (ui : SigningUI) :
  recipient_id (fv_field field) = rec_id recipient ->
  field_type field = ft_checkbox ->
  let id := field_id (fv_field field) in
  let once := handleFieldClick recipient field today answer ui in
  let twice := handleFieldClick recipient field today answer once in
  fieldValues once !! id
  = Some (if decide (fieldValues ui !! id = Some "true")
          then "false" else "true")
  /\ fieldValues twice !! id
     = Some (if decide (fieldValues ui !! id = Some "true")
             then "true" else "false")
  /\ filled (fieldValues once) (fv_field field) = true
  /\ filled (fieldValues twice) (fv_field field) = true.
Proof.
  intros Hmine Htype id once twice.
  apply String.eqb_eq in Hmine.
  assert (Hclick : forall u,
             fieldValues (handleFieldClick recipient field today answer u)
               !! id
             = Some (match fieldValues u !! id with
                     | Some v => if String.eqb v "true" then "false" else "true"
                     | None => "true"
                     end)).
  { intros u. unfold handleFieldClick. rewrite Hmine, Htype. cbn [negb].
    cbn [fieldValues setValue]. apply lookup_insert_eq. }
  assert (Honce : fieldValues once !! id
                  = Some (if decide (fieldValues ui !! id = Some "true")
                          then "false" else "true")).
  { subst once. rewrite Hclick.
    destruct (fieldValues ui !! id) as [v |] eqn:E.
    - destruct (String.eqb_spec v "true") as [-> | Hv].
      + now rewrite decide_True.
      + rewrite decide_False; [reflexivity | congruence].
    - now rewrite decide_False. }
  assert (Htwice : fieldValues twice !! id
                   = Some (if decide (fieldValues ui !! id = Some "true")
                           then "true" else "false")).
  { subst twice. rewrite Hclick, Honce.
    destruct (decide (fieldValues ui !! id = Some "true")); reflexivity. }
  split; [exact Honce |]. split; [exact Htwice |].
  unfold filled. fold id. rewrite Honce, Htwice.
  destruct (decide (fieldValues ui !! id = Some "true")); split; reflexivity.
Qed.

Lemma updateFieldValue_map (fv : gmap string string) (i x : string)
    (fs : list STSField) :
  fv !! i = None ->
  updateFieldValue i x (List.map (savedField fv) fs)
  = List.map (savedField (<[i := x]> fv)) fs.
Proof.
  intros Hi. unfold updateFieldValue. rewrite List.map_map.
  apply List.map_ext. intros f.
  assert (Hid : field_id (savedField fv f) = field_id f).
  { unfold savedField. destruct (fv !! field_id f); reflexivity. }
  rewrite Hid.
  destruct (String.eqb_spec (field_id f) i) as [E | E].
  - unfold savedField. rewrite E, Hi, lookup_insert_eq. rewrite <- E.
    reflexivity.
  - unfold savedField. rewrite lookup_insert_ne by congruence. reflexivity.
Qed.

Lemma saved_fields (fv : gmap string string) (fs : list STSField) :
  map_fold (fun fieldId value fs => updateFieldValue fieldId value fs) fs fv
  = List.map (savedField fv) fs.
Proof.
  apply (map_fold_weak_ind
           (fun r m => r = List.map (savedField m) fs)).
  - unfold savedField. symmetry. erewrite List.map_ext; [apply List.map_id |].
    intros f. now rewrite lookup_empty.
  - intros i x m r Hi ->. now apply updateFieldValue_map.
Qed.

(** X22. A submission that is carried out saves exactly the values of the
    page: every field whose id has a value on the page gets that value,
    whatever the order in which the entries are written, and every other
    field of the table keeps its row; a submission that is not carried out
    changes no field. *)
Theorem submission_saves_the_values_of_the_page (s : Session)
    (fv : gmap string string) (confirmed : bool) (now : Z) (d : DB) :
  sts_fields (handleSubmit s fv confirmed now d)
  = if submits s fv confirmed
    then List.map (savedField fv) (sts_fields d)
    else sts_fields d.
Proof.
  rewrite SignedToSealedFacts.handleSubmit_unfold.
  destruct (submits s fv confirmed); cbn [negb]; [| reflexivity].
  cbv zeta. rewrite <- saved_fields.
  destruct (allSignedAfter _ _ _); reflexivity.
Qed.

Lemma field_click_witness :
  let field := {| fv_field :=
                    {| field_id := "f-1"; field_envelope_id := "env-1";
                       document_id := "doc-1"; recipient_id := "r-a";
                       is_required := true; field_value := None |};
                  field_type := ft_signature; dropdown_options := [] |} in
  let ui := {| fieldValues := ∅; activeFieldId := None;
               showSignatureModal := false |} in
  fieldValues
    (handleSignatureSave "data:image/png;base64,AAAA"
       (handleFieldClick (sampleRecipient "r-a" "tok-a" pending) field
          "January 5, 2026" None ui)) !! "f-1"
  = Some "data:image/png;base64,AAAA".
Proof.
  intros field ui.
  refine (proj2 (proj2 (proj2
            (field_click_changes_only_the_clicked_field
               (sampleRecipient "r-a" "tok-a" pending) field "January 5, 2026"
               None "data:image/png;base64,AAAA" ui))) _ _ _).
  - reflexivity.
  - left. reflexivity.
  - reflexivity.
Defined.

Lemma clicked_checkbox_witness :
  let field := {| fv_field :=
                    {| field_id := "f-2"; field_envelope_id := "env-1";
                       document_id := "doc-1"; recipient_id := "r-a";
                       is_required := true; field_value := None |};
                  field_type := ft_checkbox; dropdown_options := [] |} in
  let ui := {| fieldValues := ∅; activeFieldId := None;
               showSignatureModal := false |} in
  let once := handleFieldClick (sampleRecipient "r-a" "tok-a" pending) field
                "January 5, 2026" None ui in
  let twice := handleFieldClick (sampleRecipient "r-a" "tok-a" pending) field
                 "January 5, 2026" None once in
  fieldValues twice !! "f-2" = Some "false"
  /\ filled (fieldValues twice) (fv_field field) = true.
Proof.
  intros field ui once twice.
  destruct (clicked_checkbox_counts_as_filled
              (sampleRecipient "r-a" "tok-a" pending) field "January 5, 2026"
              None ui eq_refl eq_refl) as (_ & H2 & _ & H4).
  split; [exact H2 | exact H4].
Defined.

End SigningViewFieldsFacts.

(** ** The audit log, the dashboard and the wizard *)

Module SignedToSealedAdminFacts.

Import JS SignedToSealed SignedToSealedSpec SignedToSealedAdmin.
Import SignedToSealedFacts.














Lemma statusName_inj (a b : EnvelopeStatus) :
  statusName a = statusName b -> a = b.
Proof. destruct a, b; simpl; intros H; try reflexivity; discriminate. Qed.

Lemma statusName_not_all (a : EnvelopeStatus) : statusName a <> "all".
Proof. destruct a; discriminate. Qed.

Lemma status_eqb_eq (a b : EnvelopeStatus) : status_eqb a b = true <-> a = b.
Proof. destruct a, b; simpl; split; intros H; try reflexivity; discriminate. Qed.

(** The loop of [stats] from any object [counts]. *)
Lemma stats_loop (l : list STSEnvelope) (counts : gmap string Z) :
  let counts' :=
    List.fold_left (fun counts e =>
      <[statusName (env_status e) :=
          default 0 (counts !! statusName (env_status e)) + 1]> counts)
      l counts in
  counts' !! "all" = counts !! "all"
  /\ forall s,
       default 0 (counts' !! statusName s)
       = default 0 (counts !! statusName s)
         + Z.of_nat (List.length
                       (List.filter (fun e => status_eqb (env_status e) s) l)).
Proof.
  revert counts. induction l as [| e l IH]; intros counts; cbn [List.fold_left].
  - split; [reflexivity |]. intros s. simpl. lia.
  - destruct (IH (<[statusName (env_status e) :=
                      default 0 (counts !! statusName (env_status e)) + 1]>
                    counts)) as (Hall & Hs).
    split.
    + rewrite Hall. apply lookup_insert_ne, statusName_not_all.
    + intros s. rewrite Hs. cbn [List.filter].
      destruct (status_eqb (env_status e) s) eqn:E.
      * apply status_eqb_eq in E. subst s. rewrite lookup_insert_eq.
        cbn [default List.length]. unfold id. lia.
      * rewrite lookup_insert_ne; [reflexivity |].
        intros H. apply statusName_inj in H.
        apply status_eqb_eq in H. congruence.
Qed.

Lemma length_by_status (l : list STSEnvelope) :
  (List.length (List.filter (fun e => status_eqb (env_status e) draft) l)
   + List.length (List.filter (fun e => status_eqb (env_status e) sent) l)
   + List.length (List.filter (fun e => status_eqb (env_status e) in_progress) l)
   + List.length (List.filter (fun e => status_eqb (env_status e) completed) l)
   + List.length (List.filter (fun e => status_eqb (env_status e) voided) l)
   = List.length l)%nat.
Proof.
  induction l as [| e l IH]; [reflexivity |].
  cbn [List.filter]. destruct (env_status e); cbn [status_eqb List.length]; lia.
Qed.

Lemma length_filter_le {A : Type} (p : A -> bool) (l : list A) :
  (List.length (List.filter p l) <= List.length l)%nat.
Proof.
  induction l as [| x l IH]; simpl; [lia |]. destruct (p x); simpl; lia.
Qed.

(** X24. The dashboard.  The number on the card of a status is the number
    of envelopes with that status, the five cards add up to the number of
    all envelopes (the entry "all"), and a tab lists as many envelopes as its
    card says when the search box is blank, and never more. *)
Theorem dashboard_cards_count_the_tabs (envelopes : list STSEnvelope) :
  (forall s,
      card envelopes s
      = Z.of_nat (List.length
                    (List.filter (fun e => status_eqb (env_status e) s)
                                 envelopes)))
  /\ stats envelopes !! "all" = Some (Z.of_nat (List.length envelopes))
  /\ card envelopes draft + card envelopes sent + card envelopes in_progress
     + card envelopes completed + card envelopes voided
     = Z.of_nat (List.length envelopes)
  /\ (forall includesLower toLowerCase s search,
        let rows :=
          filtered includesLower toLowerCase envelopes (TabStatus s) search in
        Z.of_nat (List.length rows) <= card envelopes s
        /\ (isBlank search = true ->
            Z.of_nat (List.length rows) = card envelopes s)).
Proof.
  pose proof (stats_loop envelopes
                {["all" := Z.of_nat (List.length envelopes)]}) as (Hall & Hs).
  fold (stats envelopes) in Hall, Hs.
  assert (Hcard : forall s,
             card envelopes s
             = Z.of_nat (List.length
                           (List.filter (fun e => status_eqb (env_status e) s)
                                        envelopes))).
  { intros s. unfold card. rewrite Hs.
    rewrite lookup_singleton_ne by (intros H; now apply (statusName_not_all s)).
    cbn [default]. lia. }
  split; [exact Hcard |]. split.
  { rewrite Hall. apply lookup_singleton_eq. }
  split.
  { rewrite !Hcard. pose proof (length_by_status envelopes). lia. }
  intros includesLower toLowerCase s search rows. subst rows.
  unfold filtered. rewrite Hcard.
  destruct (isBlank search); cbn [negb].
  - split; [lia | reflexivity].
  - split; [| discriminate].
    apply inj_le, length_filter_le.
Qed.

Lemma dashboard_cards_witness :
  isBlank "  " = true
  /\ Z.of_nat (List.length
                 (filtered (fun _ _ => false) (fun q => q)
                    (sts_envelopes sentToTwo) (TabStatus sent) "  "))
     = card (sts_envelopes sentToTwo) sent.
Proof.
  split; [reflexivity |].
  exact (proj2 (proj2 (proj2 (proj2 (dashboard_cards_count_the_tabs
                                       (sts_envelopes sentToTwo))))
                  (fun _ _ => false) (fun q => q) sent "  ")
               eq_refl).
Defined.

Lemma truthy_nonempty (s : string) : truthy s = true -> s <> "".
Proof.
  unfold truthy. rewrite negb_true_iff. apply String.eqb_neq.
Qed.

(** X25. The Send of the wizard is carried out exactly when the hooks hold
    at least one signer and at least one field, the conditions that let the
    wizard proceed from its recipients step and its fields step; otherwise
    nothing is written.  When it is carried out, the envelope gets the
    status sent whatever its status was, a non-empty title, the message of
    the form and the time of sending; no other envelope changes its status,
    and one entry envelope_sent by "Admin" is added to the audit log. *)
Theorem wizard_sends_with_a_signer_and_a_field (id title' message : string)
    (documents : list STSDocument) (recipients : list STSRecipient)
    (fields : list STSField) (now : Z) (d : DB) :
  truthy id = true ->
  let d' := wizardSend (Some id) title' message recipients fields now d in
  let ready := canProceed 1 documents recipients fields
               && canProceed 2 documents recipients fields in
  (ready = false -> d' = d)
  /\ (ready = true ->
      (forall id',
          statusOf d' id'
          = if String.eqb id' id
            then option_map (fun _ => sent) (statusOf d id')
            else statusOf d id')
      /\ sts_audit_log d'
         = (sts_audit_log d
            ++ [{| audit_envelope_id := id; event_type := "envelope_sent";
                   actor_name := "Admin"; actor_email := "";
                   audit_recipient_id := None |}])%list
      /\ (forall e, List.In e (sts_envelopes d') -> env_id e = id ->
            title e <> "" /\ env_message e = message
            /\ sent_at e = Some now /\ env_status e = sent)).
Proof.
  intros Hid d' ready. subst d' ready.
  unfold wizardSend, canProceed. rewrite Hid. cbn [negb Z.eqb].
  destruct (List.length (signersOf recipients)) as [| ns];
    [split; [reflexivity | discriminate] |].
  destruct (List.length fields) as [| nf];
    [split; [reflexivity | discriminate] |].
  cbn [Nat.eqb Nat.ltb Nat.leb andb].
  split; [discriminate |]. intros _.
  unfold saveMetadata. rewrite Hid. unfold sendEnvelope.
  split; [| split].
  - intros id'.
    change (statusOf (logEvent ?a ?x) id') with (statusOf x id').
    rewrite !statusOf_updateEnvelope.
    destruct (String.eqb id' id); [| reflexivity].
    cbn [u_status orElse]. destruct (statusOf d id'); reflexivity.
  - reflexivity.
  - intros e Hin He. cbn in Hin. rewrite List.map_map in Hin.
    apply List.in_map_iff in Hin as (e0 & <- & _).
    destruct (String.eqb_spec (env_id e0) id) as [E | E].
    + cbn [env_id applyUpdate]. rewrite E, String.eqb_refl.
      cbn [title env_message sent_at env_status applyUpdate orElse orKeep
           u_title u_message u_sent_at u_status].
      repeat split.
      destruct (truthy title') eqn:Ht; [now apply truthy_nonempty |].
      discriminate.
    + destruct (String.eqb_spec (env_id e0) id) as [E' | _];
        [contradiction | contradiction].
Qed.

Lemma wizard_send_witness :
  let d' := wizardSend (Some "env-1") "" "Please sign"
              (sts_recipients sentToTwo)
              [{| field_id := "f-1"; field_envelope_id := "env-1";
                  document_id := "doc-1"; recipient_id := "r-a";
                  is_required := true; field_value := None |}]
              7 (db (after openThenVoid)) in
  truthy "env-1" = true
  /\ statusOf (db (after openThenVoid)) "env-1" = Some voided
  /\ statusOf d' "env-1" = Some sent.
Proof.
  intros d'. split; [reflexivity |]. split; [reflexivity |].
  destruct (wizard_sends_with_a_signer_and_a_field "env-1" "" "Please sign"
              [] (sts_recipients sentToTwo)
              [{| field_id := "f-1"; field_envelope_id := "env-1";
                  document_id := "doc-1"; recipient_id := "r-a";
                  is_required := true; field_value := None |}]
              7 (db (after openThenVoid)) eq_refl) as (_ & H).
  destruct (H eq_refl) as (Hstatus & _).
  fold d' in Hstatus. rewrite (Hstatus "env-1"). reflexivity.
Defined.

End SignedToSealedAdminFacts.

(** ** The automatic employee number *)

Module TimeClockNumbersFacts.

Import JS TimeClock TimeClockNumbers CommissionRoute CommissionRouteCalls.
Import CommissionRouteCallsFacts TimeClockSamples TimeClockAdminSamples.

Lemma parseDigits_acc (d : Decimal.uint) (acc : positive) :
  parseDigits (Z.pos acc) (NilEmpty.string_of_uint d)
  = Z.pos (Pos.of_uint_acc d acc).
Proof.
  revert acc. induction d; intros acc; cbn [NilEmpty.string_of_uint];
    [reflexivity | ..];
    cbn [parseDigits Pos.of_uint_acc];
    match goal with
    | |- context [isDigit ?c] => change (isDigit c) with true
    end; cbv iota; rewrite <- IHd; f_equal; unfold digitValue; simpl; lia.
Qed.

Lemma parseDigits_uint (d : Decimal.uint) :
  parseDigits 0 (NilEmpty.string_of_uint d) = Z.of_N (Pos.of_uint d).
Proof.
  induction d; cbn [NilEmpty.string_of_uint]; [reflexivity | ..];
    cbn [parseDigits Pos.of_uint];
    match goal with
    | |- context [isDigit ?c] => change (isDigit c) with true
    end; cbv iota;
    first [ exact IHd
          | match goal with
            | |- parseDigits ?a _ = _ =>
                let v := eval vm_compute in a in change a with v
            end; apply parseDigits_acc ].
Qed.

Lemma trimStart_digit (s : string) : startsWithDigit s = true -> trimStart s = s.
Proof.
  destruct s as [| c s]; [reflexivity |]. cbn [startsWithDigit]. intros H.
  unfold isDigit in H.
  apply andb_true_iff in H as (H1 & H2). apply N.leb_le in H1, H2.
  cbn [trimStart]. unfold isWhitespace, isNoBreakSpace, isWideSpace.
  destruct (N.eqb_spec (N_of_ascii c) 32); [lia |].
  destruct (N.leb_spec 9 (N_of_ascii c));
    destruct (N.leb_spec (N_of_ascii c) 13); try lia; cbn [andb orb];
    (destruct s as [| c2 s]; [reflexivity |]);
    (destruct (N.eqb_spec (N_of_ascii c) 194); [lia |]); cbn [andb];
    (destruct s as [| c3 s]; [reflexivity |]);
    (destruct (N.eqb_spec (N_of_ascii c) 225); [lia |]);
    (destruct (N.eqb_spec (N_of_ascii c) 226); [lia |]);
    (destruct (N.eqb_spec (N_of_ascii c) 227); [lia |]);
    (destruct (N.eqb_spec (N_of_ascii c) 239); [lia |]);
    reflexivity.
Qed.

(** Reading a string of digits. *)
Lemma parseInt10_digits (s : string) :
  startsWithDigit s = true -> parseInt10 s = Some (parseDigits 0 s).
Proof.
  intros H. unfold parseInt10. rewrite (trimStart_digit s H).
  destruct s as [| c s]; [discriminate |].
  assert (Hc : c <> "-"%char /\ c <> "+"%char).
  { simpl in H. split; intros ->; discriminate. }
  destruct Hc as (Hm & Hp).
  destruct c as [[] [] [] [] [] [] [] []]; try (now elim Hm); try (now elim Hp);
    rewrite H; reflexivity.
Qed.

(** Printing a natural number and reading it gives the number. *)
Lemma parseInt10_decimal (n : Z) :
  0 <= n -> parseInt10 (Number.decimal n) = Some n.
Proof.
  intros Hn. unfold Number.decimal.
  destruct n as [| p | p]; [reflexivity | | lia].
  cbn [Z.to_int NilZero.string_of_int].
  pose proof (DecimalZ.of_to (Z.pos p)) as Hof.
  cbn [Z.to_int Z.of_int] in Hof. unfold Z.of_uint in Hof.
  destruct (Pos.to_uint p) eqn:E; [discriminate Hof | ..];
    unfold NilZero.string_of_uint;
    (rewrite parseInt10_digits; [| reflexivity]);
    rewrite <- E at 1; rewrite E; rewrite parseDigits_uint; now rewrite Hof.
Qed.

(** Below 2^53 the next number is the next integer. *)
Lemma String_of_next_exact (n : Z) :
  0 <= n < 2 ^ 53 -> String_of_next n = Number.decimal (n + 1).
Proof.
  intros Hn. unfold String_of_next.
  destruct (Z.ltb_spec (Z.abs n) (2 ^ 53)); [reflexivity | lia].
Qed.

(** At sample integers below 2^53 the sum and the numeral of the doubles
    are those of the integers. *)
Lemma doubles_are_integers_below_2_53 :
  List.Forall
    (fun n => Number.toString (Number.add (Number.ofZ n) (Number.ofZ 1))
              = Number.decimal (n + 1))
    [-1000; -1; 0; 1000; 9999; 10 ^ 15 - 1; 10 ^ 15; 2 ^ 53 - 2; 2 ^ 53 - 1].
Proof. repeat constructor; vm_compute; reflexivity. Qed.

Lemma digitValue_bounds (c : ascii) :
  isDigit c = true -> 0 <= digitValue c <= 9.
Proof.
  intros H. apply isDigit_bounds in H. unfold digitValue. lia.
Qed.

Lemma numeral_cons (w : nat) (c : ascii) (s : string) :
  numeral w (String c s)
  <-> isDigit c = true /\ exists w', w = S w' /\ numeral w' s.
Proof.
  unfold numeral. cbn [String.length list_ascii_of_string List.forallb].
  rewrite andb_true_iff. split.
  - intros (Hlen & Hc & Hs). split; [exact Hc |].
    exists (String.length s). now split.
  - intros (Hc & w' & -> & Hlen & Hs). split; [now rewrite Hlen | now split].
Qed.

(** The digits read after [a] put [a] in front of their own value. *)
Lemma parseDigits_shift (w : nat) (s : string) (a : Z) :
  numeral w s ->
  parseDigits a s = a * 10 ^ Z.of_nat w + parseDigits 0 s
  /\ 0 <= parseDigits 0 s < 10 ^ Z.of_nat w.
Proof.
  revert w a. induction s as [| c s IH]; intros w a H.
  - destruct H as (<- & _). simpl. lia.
  - apply numeral_cons in H as (Hc & w' & -> & Hs).
    cbn [parseDigits]. rewrite Hc.
    pose proof (digitValue_bounds c Hc) as Hd.
    destruct (IH w' (a * 10 + digitValue c) Hs) as (E1 & _).
    destruct (IH w' (0 * 10 + digitValue c) Hs) as (E2 & Hb).
    rewrite E1, E2. rewrite Nat2Z.inj_succ, Z.pow_succ_r by lia.
    set (P := 10 ^ Z.of_nat w') in *. split; nia.
Qed.

(** Numerals of the same width are ordered as strings like their values. *)
Lemma compare_numerals (w : nat) (s t : string) (a : Z) :
  numeral w s -> numeral w t ->
  String.compare s t = Z.compare (parseDigits a s) (parseDigits a t).
Proof.
  revert w t a. induction s as [| c s IH]; intros w t a Hs Ht.
  - destruct Hs as (<- & _). destruct t as [| c' t];
      [simpl; now rewrite Z.compare_refl | destruct Ht; discriminate].
  - apply numeral_cons in Hs as (Hc & w' & -> & Hs).
    destruct t as [| c' t]; [destruct Ht; discriminate |].
    apply numeral_cons in Ht as (Hc' & w'' & E & Ht).
    injection E as <-.
    cbn [String.compare parseDigits]. rewrite Hc, Hc'.
    unfold Ascii.compare.
    pose proof (isDigit_bounds c Hc) as Hb.
    pose proof (isDigit_bounds c' Hc') as Hb'.
    destruct (parseDigits_shift w' s (a * 10 + digitValue c) Hs) as (E1 & B1).
    destruct (parseDigits_shift w' t (a * 10 + digitValue c') Ht) as (E2 & B2).
    destruct (N.compare_spec (N_of_ascii c) (N_of_ascii c')) as [E | L | G].
    + assert (Hd : digitValue c = digitValue c') by (unfold digitValue; lia).
      rewrite Hd. now apply (IH w').
    + symmetry. apply Z.compare_lt_iff. rewrite E1, E2.
      assert (digitValue c + 1 <= digitValue c') by (unfold digitValue; lia).
      set (P := 10 ^ Z.of_nat w') in *. nia.
    + symmetry. apply Z.compare_gt_iff. rewrite E1, E2.
      assert (digitValue c' + 1 <= digitValue c) by (unfold digitValue; lia).
      set (P := 10 ^ Z.of_nat w') in *. nia.
Qed.

Lemma numeral_parseInt10 (w : nat) (s : string) :
  (0 < w)%nat -> numeral w s ->
  parseInt10 s = Some (parseDigits 0 s) /\ 0 <= parseDigits 0 s.
Proof.
  intros Hw Hs. split.
  - apply parseInt10_digits. destruct s as [| c s].
    + destruct Hs as (E & _). simpl in E. lia.
    + now apply numeral_cons in Hs as (Hc & _).
  - now destruct (parseDigits_shift w s 0 Hs) as (_ & H & _).
Qed.

(** The loop of [maxRow], from a best row so far. *)
Lemma maxRow_loop (w : nat) (table : list TCEmployee) (m : string) :
  numeral w m ->
  (forall e, List.In e table -> numeral w (employee_number e)) ->
  exists m',
    List.fold_left (fun best e =>
      match best with
      | None => Some (employee_number e)
      | Some m => if str_gt (employee_number e) m
                  then Some (employee_number e) else Some m
      end) table (Some m) = Some m'
    /\ numeral w m'
    /\ (m' = m \/ exists e, List.In e table /\ employee_number e = m')
    /\ parseDigits 0 m <= parseDigits 0 m'
    /\ forall e, List.In e table ->
                 parseDigits 0 (employee_number e) <= parseDigits 0 m'.
Proof.
  revert m. induction table as [| e table IH]; intros m Hm Hall.
  - exists m. split; [reflexivity |]. split; [exact Hm |].
    split; [now left |]. split; [lia |]. intros e [].
  - cbn [List.fold_left].
    assert (He : numeral w (employee_number e)) by (apply Hall; now left).
    assert (Hrest : forall e', List.In e' table ->
                               numeral w (employee_number e'))
      by (intros e' H; apply Hall; now right).
    unfold str_gt.
    rewrite (compare_numerals w (employee_number e) m 0 He Hm).
    destruct (Z.compare_spec (parseDigits 0 (employee_number e))
                             (parseDigits 0 m)) as [E | L | G].
    + destruct (IH m Hm Hrest) as (m' & Hf & Hn & Hor & Hge & Hmax).
      exists m'. split; [exact Hf |]. split; [exact Hn |]. split.
      * destruct Hor as [-> | (e' & Hin & <-)]; [now left |].
        right. exists e'. split; [now right | reflexivity].
      * split; [exact Hge |]. intros e' [<- | Hin]; [lia | now apply Hmax].
    + destruct (IH m Hm Hrest) as (m' & Hf & Hn & Hor & Hge & Hmax).
      exists m'. split; [exact Hf |]. split; [exact Hn |]. split.
      * destruct Hor as [-> | (e' & Hin & <-)]; [now left |].
        right. exists e'. split; [now right | reflexivity].
      * split; [exact Hge |]. intros e' [<- | Hin]; [lia | now apply Hmax].
    + destruct (IH (employee_number e) He Hrest)
        as (m' & Hf & Hn & Hor & Hge & Hmax).
      exists m'. split; [exact Hf |]. split; [exact Hn |]. split.
      * right. destruct Hor as [-> | (e' & Hin & <-)].
        -- exists e. split; [now left | reflexivity].
        -- exists e'. split; [now right | reflexivity].
      * split; [lia |]. intros e' [<- | Hin]; [exact Hge | now apply Hmax].
Qed.

(** X26. The automatic employee number.  When the employee numbers of the
    table are numerals of one width of at most 15 digits (as the numbers
    1001 to 9999 that the function hands out are), every number in play is
    at most 10^15, below 2^53, so the doubles of the code are the integers;
    the next number reads as a number above every number of the table, by
    one above the greatest, so it is not taken and the insert succeeds with
    an active employee carrying it; on an empty table the number is "1001".
    The greatest number is found in the order of strings: with the numbers
    "999" and "1000" in the table the row found is "999", the next number is
    "1000", and the insert fails.  From sixteen digits on the doubles are no
    longer the integers: with the numbers 2^53 and 2^53 + 1 in the table the
    next number is 2^53 again, and the insert fails. *)
Theorem next_employee_number_is_not_taken (w : nat) (table : list TCEmployee)
    (newId firstName lastName : string) :
  (0 < w <= 15)%nat ->
  (forall e, List.In e table -> numeral w (employee_number e)) ->
  (exists n,
      parseInt10 (nextEmployeeNumber table) = Some n
      /\ n <= 10 ^ 15 < 2 ^ 53
      /\ (forall e, List.In e table ->
            exists k, parseInt10 (employee_number e) = Some k /\ k < n)
      /\ (table <> [] ->
          exists e, List.In e table
                    /\ parseInt10 (employee_number e) = Some (n - 1)))
  /\ addEmployee table newId firstName lastName
     = Some (table ++ [{| emp_id := newId;
                          employee_number := nextEmployeeNumber table;
                          first_name := firstName; last_name := lastName;
                          is_active := true |}])%list
  /\ nextEmployeeNumber [] = "1001"
  /\ (nextEmployeeNumber mixedWidths = "1000"
      /\ addEmployee mixedWidths newId firstName lastName = None)
  /\ (nextEmployeeNumber sixteenDigits = "9007199254740992"
      /\ addEmployee sixteenDigits newId firstName lastName = None).
Proof.
  intros (Hw & Hw15) Hall.
  assert (Hnext : exists n,
             parseInt10 (nextEmployeeNumber table) = Some n
             /\ n <= 10 ^ 15 < 2 ^ 53
             /\ (forall e, List.In e table ->
                   exists k, parseInt10 (employee_number e) = Some k /\ k < n)
             /\ (table <> [] ->
                 exists e, List.In e table
                           /\ parseInt10 (employee_number e) = Some (n - 1))).
  { destruct table as [| e0 table].
    - exists 1001. split; [reflexivity |].
      split; [split; [discriminate | reflexivity] |].
      split; [intros e [] |]. intros H. now elim H.
    - unfold nextEmployeeNumber, maxRow. cbn [List.fold_left].
      assert (H0 : numeral w (employee_number e0)) by (apply Hall; now left).
      destruct (maxRow_loop w table (employee_number e0) H0)
        as (m & -> & Hm & Hor & Hge & Hmax).
      { intros e H. apply Hall. now right. }
      destruct (numeral_parseInt10 w m Hw Hm) as (-> & Hpos).
      exists (parseDigits 0 m + 1).
      destruct (parseDigits_shift w m 0 Hm) as (_ & _ & Hlt).
      assert (Hpow : 10 ^ Z.of_nat w <= 10 ^ 15)
        by (apply Z.pow_le_mono_r; lia).
      assert (Hsafe : 10 ^ 15 < 2 ^ 53) by reflexivity.
      rewrite String_of_next_exact by lia.
      split; [apply parseInt10_decimal; lia |].
      split; [split; [lia | reflexivity] |].
      split.
      + intros e Hin.
        destruct (numeral_parseInt10 w (employee_number e) Hw (Hall e Hin))
          as (-> & _).
        eexists. split; [reflexivity |].
        destruct Hin as [<- | Hin]; [lia |]. specialize (Hmax e Hin). lia.
      + intros _. replace (parseDigits 0 m + 1 - 1) with (parseDigits 0 m)
          by lia.
        destruct Hor as [-> | (e & Hin & <-)].
        * exists e0. split; [now left |].
          now destruct (numeral_parseInt10 w (employee_number e0) Hw H0).
        * exists e. split; [now right |].
          now destruct (numeral_parseInt10 w (employee_number e) Hw Hm). }
  split; [exact Hnext |].
  split; [| split; [reflexivity |];
            split; split; vm_compute; reflexivity].
  destruct Hnext as (n & Hn & _ & Hless & _).
  unfold addEmployee.
  destruct (List.existsb _ table) eqn:Hex; [| reflexivity].
  apply List.existsb_exists in Hex as (e & Hin & Heq).
  apply String.eqb_eq in Heq.
  destruct (Hless e Hin) as (k & Hk & Hlt).
  rewrite Heq, Hn in Hk. injection Hk as ->. lia.
Qed.

Lemma next_employee_number_witness :
  (0 < 4 <= 15)%nat
  /\ (forall e, List.In e fourDigits -> numeral 4 (employee_number e))
  /\ nextEmployeeNumber fourDigits = "1010"
  /\ addEmployee fourDigits "e3" "Cy" "Doe"
     = Some (fourDigits ++ [{| emp_id := "e3"; employee_number := "1010";
                               first_name := "Cy"; last_name := "Doe";
                               is_active := true |}])%list.
Proof.
  assert (H : forall e, List.In e fourDigits -> numeral 4 (employee_number e)).
  { intros e [<- | [<- | []]]; split; reflexivity. }
  split; [lia |]. split; [exact H |]. split; [reflexivity |].
  exact (proj1 (proj2 (next_employee_number_is_not_taken 4 fourDigits
                         "e3" "Cy" "Doe" ltac:(lia) H))).
Defined.

End TimeClockNumbersFacts.

(** ** An envelope without signers *)

Module SignedToSealedNoSignerFacts.

Import JS SignedToSealed SignedToSealedSpec SignedToSealedAdmin.
Import SignedToSealedSamples SignedToSealedFacts.

Lemma filter_map_same {A : Type} (p : A -> bool) (f : A -> A) (l : list A) :
  (forall x, p (f x) = p x) ->
  List.filter p (List.map f l) = List.map f (List.filter p l).
Proof.
  intros H. induction l as [| x l IH]; simpl; [reflexivity |].
  rewrite H. destruct (p x); simpl; now rewrite IH.
Qed.

(** The detail page after an update of its envelope and a log entry. *)
Lemma loadDetail_updateEnvelope (d : DB) (id : string)
    (det : STSEnvelopeDetail) (u : STSEnvelopeUpdate) (a : STSAuditInsert) :
  loadDetail d id = Some det ->
  loadDetail (logEvent a (updateEnvelope id u d)) id
  = Some {| envelope := applyUpdate u (envelope det);
            documents := documents det; recipients := recipients det;
            fields := fields det |}.
Proof.
  unfold loadDetail, envelopeRow.
  destruct (single (List.filter (fun e => String.eqb (env_id e) id)
                                (sts_envelopes d))) as [env |] eqn:E;
    [| discriminate].
  intros H. injection H as <-. apply single_some in E.
  cbn [sts_envelopes logEvent updateEnvelope setEnvelopes].
  rewrite filter_map_same.
  - rewrite E. cbn [List.map single].
    assert (Hid : String.eqb (env_id env) id = true).
    { assert (Hin : List.In env [env]) by now left.
      rewrite <- E in Hin. now apply List.filter_In in Hin as (_ & Hp). }
    rewrite Hid. reflexivity.
  - intros e. destruct (String.eqb (env_id e) id) eqn:He; [| now rewrite He].
    cbn [applyUpdate env_id]. exact He.
Qed.

(** X27. An envelope whose recipients include no signer.  The Send of the
    detail page asks for a recipient, not for a signer: such a draft with a
    recipient in copy is sent, Mark Complete is offered at once, since no
    signer is left to sign, and it completes the envelope without any
    signature; the recipients are left as they were. *)
Theorem envelope_without_signers_completes_unsigned (sys : System)
    (id : string) (det : STSEnvelopeDetail) (t1 t2 : Z) :
  loadDetail (db sys) id = Some det ->
  env_status (envelope det) = draft ->
  recipients det <> [] ->
  (forall r, List.In r (recipients det) -> role r <> signer) ->
  exists sys1 sys2,
    exec t1 (OpSend id true) sys = Some sys1
    /\ statusOf (db sys1) id = Some sent
    /\ exec t2 (OpMarkComplete id) sys1 = Some sys2
    /\ statusOf (db sys2) id = Some completed
    /\ sts_recipients (db sys2) = sts_recipients (db sys).
Proof.
  intros Hload Hdraft Hrec Hnone.
  destruct (statusOf_loadDetail _ _ _ Hload) as (Hst & Hid & _).
  assert (Hlen : (List.length (recipients det) =? 0)%nat = false).
  { destruct (recipients det); [now elim Hrec | reflexivity]. }
  assert (Hall : allSigned det = true).
  { apply allSigned_iff. intros r Hin Hrole. now elim (Hnone r Hin). }
  subst id. set (id := env_id (envelope det)) in *.
  set (d1 := handleSend det true t1 (db sys)).
  set (d2 := handleMarkComplete
               {| envelope := applyUpdate
                    {| u_title := None; u_message := None;
                       u_status := Some sent; u_sent_at := Some t1;
                       u_completed_at := None; u_voided_at := None;
                       u_void_reason := None |} (envelope det);
                  documents := documents det; recipients := recipients det;
                  fields := fields det |} t2 d1).
  exists {| db := d1; sessions := sessions sys; details := details sys |},
         {| db := d2; sessions := sessions sys; details := details sys |}.
  assert (Hd1 : d1 = logEvent
                      {| audit_envelope_id := id; event_type := "envelope_sent";
                         actor_name := adminActor det; actor_email := "";
                         audit_recipient_id := None |}
                      (sendEnvelope id t1 (db sys))).
  { subst d1. unfold handleSend. rewrite Hlen. reflexivity. }
  split.
  { cbn [exec]. unfold withDetail. rewrite Hload.
    unfold sendOffered. rewrite Hdraft. reflexivity. }
  cbn [db].
  assert (Hs1 : statusOf d1 id = Some sent).
  { rewrite Hd1. unfold sendEnvelope.
    change (statusOf (logEvent ?a ?x) id) with (statusOf x id).
    rewrite statusOf_updateEnvelope, String.eqb_refl, Hst. reflexivity. }
  split; [exact Hs1 |].
  split.
  { cbn [exec]. unfold withDetail. cbn [db]. rewrite Hd1. unfold sendEnvelope.
    rewrite (loadDetail_updateEnvelope _ _ _ _ _ Hload).
    unfold canComplete. cbn [envelope applyUpdate env_status u_status orElse].
    cbn [sentOrInProgress andb].
    unfold allSigned in *. cbn [recipients]. rewrite Hall.
    subst d2. rewrite Hd1. reflexivity. }
  split.
  - subst d2. unfold handleMarkComplete. cbn [envelope applyUpdate env_id].
    fold id.
    change (statusOf (logEvent ?a ?x) id) with (statusOf x id).
    rewrite statusOf_updateEnvelope, String.eqb_refl, Hs1. reflexivity.
  - subst d2 d1. unfold handleSend. rewrite Hlen. reflexivity.
Qed.

Lemma envelope_without_signers_witness :
  loadDetail draftInCopy "env-2"
  = Some {| envelope := draftEnvelope; documents := [];
            recipients := [inCopy]; fields := [] |}
  /\ exists sys1 sys2,
       exec 1 (OpSend "env-2" true)
            {| db := draftInCopy; sessions := []; details := [] |}
       = Some sys1
       /\ statusOf (db sys1) "env-2" = Some sent
       /\ exec 2 (OpMarkComplete "env-2") sys1 = Some sys2
       /\ statusOf (db sys2) "env-2" = Some completed
       /\ sts_recipients (db sys2) = sts_recipients draftInCopy.
Proof.
  assert (H : loadDetail draftInCopy "env-2"
              = Some {| envelope := draftEnvelope; documents := [];
                        recipients := [inCopy]; fields := [] |})
    by reflexivity.
  split; [exact H |].
  apply (envelope_without_signers_completes_unsigned
           {| db := draftInCopy; sessions := []; details := [] |}
           "env-2" _ 1 2 H).
  - reflexivity.
  - discriminate.
  - intros r [<- | []]. discriminate.
Defined.

End SignedToSealedNoSignerFacts.

(** ** The kiosk: one clock action per confirmation, and the entries kept *)

Module TimeClockKioskFlowFacts.

Import JS TimeClock TimeClockKiosk TimeClockKioskEntries.
Import TimeClockSamples TimeClockAdminSamples TimeClockKioskFacts.

(** X28. One clock action per confirmation keeps the convention.  When
    every employee has at most one open entry and the Yes button is
    pressed, the action that follows (Clock In, Clock Out, Cancel or a
    timer) leaves every employee with at most one open entry: the snapshot
    that decides between Clock In and Clock Out is current at that
    moment. *)
Theorem first_action_after_yes_keeps_one_open_entry (a : Action)
    (k k1 k2 : Kiosk) :
  atMostOneOpen (entries k) ->
  step ClickYes k = Some k1 ->
  step a k1 = Some k2 ->
  screen k1 = ScreenAction
  /\ snapshotCurrent k1
  /\ atMostOneOpen (entries k2).
Proof.
  intros Hinv Hyes Hact.
  unfold step in Hyes. destruct (offered ClickYes k) eqn:Hoff; [| discriminate].
  injection Hyes as <-. cbn [handle] in *.
  assert (Hcur : snapshotCurrent (handleConfirmYes k))
    by apply confirmYes_snapshot_current.
  assert (Hent : entries (handleConfirmYes k) = entries k).
  { unfold handleConfirmYes. destruct (matchedEmployee k); reflexivity. }
  split; [| split; [exact Hcur |]].
  - unfold offered in Hoff. destruct (screen k); try discriminate.
    unfold handleConfirmYes.
    destruct (matchedEmployee k); [reflexivity | discriminate].
  - apply (step_keeps_convention_when_current a (handleConfirmYes k) k2);
      [now rewrite Hent | exact Hcur | exact Hact].
Qed.

Lemma keeps_refl (e : TCTimeEntry) : keeps e e.
Proof. unfold keeps. auto. Qed.

Lemma keeps_trans (a b c : TCTimeEntry) : keeps a b -> keeps b c -> keeps a c.
Proof.
  unfold keeps. intros (A1 & A2 & A3 & A4 & A5) (B1 & B2 & B3 & B4 & B5).
  repeat split; try congruence. auto.
Qed.

Lemma keptIn_refl (es : list TCTimeEntry) : keptIn es es.
Proof.
  split; [lia |]. intros e H. exists e. split; [exact H | apply keeps_refl].
Qed.

Lemma keptIn_trans (a b c : list TCTimeEntry) :
  keptIn a b -> keptIn b c -> keptIn a c.
Proof.
  intros (L1 & H1) (L2 & H2). split; [lia |].
  intros e Hin. destruct (H1 e Hin) as (e1 & Hin1 & K1).
  destruct (H2 e1 Hin1) as (e2 & Hin2 & K2).
  exists e2. split; [exact Hin2 | exact (keeps_trans _ _ _ K1 K2)].
Qed.

Lemma keptIn_clockIn (es : list TCTimeEntry) (newId emp : string) (now : Z) :
  keptIn es (clockIn es newId emp now).
Proof.
  split; [simpl; lia |]. intros e H. exists e.
  split; [now right | apply keeps_refl].
Qed.

Lemma keptIn_clockOut (es : list TCTimeEntry) (entryId : string) (now : Z) :
  keptIn es (clockOut es entryId now).
Proof.
  unfold clockOut. split; [now rewrite List.length_map |].
  intros e H. eexists. split; [apply List.in_map; exact H |].
  cbv beta. destruct (String.eqb (entry_id e) entryId); [| apply keeps_refl].
  unfold keeps. cbn. repeat split. discriminate.
Qed.

Lemma keptIn_handle (a : Action) (k : Kiosk) :
  keptIn (entries k) (entries (handle a k))
  /\ employees (handle a k) = employees k.
Proof.
  destruct a as [key | | | | newId now | now | | |]; cbn [handle].
  - unfold handleKeyPress. destruct key as [d | |];
      [destruct (String.length (employeeNumber k) <? 4)%nat | |];
      (split; [cbn; apply keptIn_refl | reflexivity]).
  - unfold handleSubmitNumber.
    destruct (findByNumber _ _);
      (split; [cbn; apply keptIn_refl | reflexivity]).
  - unfold handleConfirmYes.
    destruct (matchedEmployee k);
      (split; [cbn; apply keptIn_refl | reflexivity]).
  - split; [cbn; apply keptIn_refl | reflexivity].
  - unfold handleClockIn.
    destruct (matchedEmployee k);
      [split; [cbn; apply keptIn_clockIn | reflexivity]
      | split; [apply keptIn_refl | reflexivity]].
  - unfold handleClockOut.
    destruct (openEntry k);
      [split; [cbn; apply keptIn_clockOut | reflexivity]
      | split; [apply keptIn_refl | reflexivity]].
  - split; [cbn; apply keptIn_refl | reflexivity].
  - split; [cbn; apply keptIn_refl | reflexivity].
  - split; [cbn; apply keptIn_refl | reflexivity].
Qed.

(** X29. The kiosk never loses an entry.  After any run of the kiosk the
    list of entries is at least as long as before, and every entry that was
    there is still there with its id, its employee, its clock-in time and
    its notes; an entry that was closed is still closed.  The employee list
    is not changed by the kiosk. *)
Theorem kiosk_keeps_every_entry (acts : list Action) (k k' : Kiosk) :
  run acts k = Some k' ->
  keptIn (entries k) (entries k') /\ employees k' = employees k.
Proof.
  revert k. induction acts as [| a acts IH]; intros k Hrun; simpl in Hrun.
  - injection Hrun as <-. split; [apply keptIn_refl | reflexivity].
  - unfold step in Hrun. destruct (offered a k); [| discriminate].
    destruct (IH _ Hrun) as (Hk & He).
    destruct (keptIn_handle a k) as (Hk0 & He0).
    split; [exact (keptIn_trans _ _ _ Hk0 Hk) | congruence].
Qed.

Lemma first_action_after_yes_witness :
  exists k1 k2,
    atMostOneOpen (entries typedKiosk)
    /\ step ClickYes typedKiosk = Some k1
    /\ step (ClickClockIn "entry-1" 1767600000000) k1 = Some k2
    /\ atMostOneOpen (entries k2).
Proof.
  assert (Hinv : atMostOneOpen (entries typedKiosk)).
  { intros emp. unfold openCount, typedKiosk. simpl. lia. }
  eexists _, _. split; [exact Hinv |].
  assert (H1 : step ClickYes typedKiosk = Some (handle ClickYes typedKiosk))
    by reflexivity.
  assert (H2 : step (ClickClockIn "entry-1" 1767600000000)
                 (handle ClickYes typedKiosk)
               = Some (handle (ClickClockIn "entry-1" 1767600000000)
                         (handle ClickYes typedKiosk))) by reflexivity.
  split; [exact H1 |]. split; [exact H2 |].
  exact (proj2 (proj2 (first_action_after_yes_keeps_one_open_entry _ _ _ _
                         Hinv H1 H2))).
Defined.

Lemma kiosk_keeps_every_entry_witness :
  exists k,
    run doubleClockIn idleKiosk = Some k
    /\ keptIn (entries idleKiosk) (entries k).
Proof.
  eexists.
  assert (H : run doubleClockIn idleKiosk = Some _)
    by (vm_compute; reflexivity).
  split; [exact H |].
  exact (proj1 (kiosk_keeps_every_entry _ _ _ H)).
Defined.

End TimeClockKioskFlowFacts.

(** ** The signing page: the values it starts with *)

Module SigningViewInitialFacts.

Import JS SignedToSealed SignedToSealedSpec SigningViewFields.
Import SigningViewSamples SigningViewFieldsFacts.

(** The loop that builds the initial values, from any object [initial]. *)
Lemma initial_loop (l : list STSField) (m : gmap string string) (id : string) :
  List.NoDup (List.map field_id l) ->
  List.fold_left (fun initial f =>
    match field_value f with
    | Some v => if truthy v then <[field_id f := v]> initial else initial
    | None => initial
    end) l m !! id
  = match List.find (fun f => String.eqb (field_id f) id) l with
    | Some f =>
        match field_value f with
        | Some v => if truthy v then Some v else m !! id
        | None => m !! id
        end
    | None => m !! id
    end.
Proof.
  revert m. induction l as [| f l IH]; intros m Hnd; [reflexivity |].
  cbn [List.map] in Hnd. apply List.NoDup_cons_iff in Hnd as (Hnotin & Hnd).
  cbn [List.fold_left List.find]. rewrite (IH _ Hnd).
  destruct (String.eqb_spec (field_id f) id) as [E | E].
  - assert (Hnone : List.find (fun g => String.eqb (field_id g) id) l = None).
    { destruct (List.find _ l) as [g |] eqn:Hg; [| reflexivity].
      apply List.find_some in Hg as (Hin & Hid). apply String.eqb_eq in Hid.
      elim Hnotin. rewrite E, <- Hid. now apply List.in_map. }
    rewrite Hnone. destruct (field_value f) as [v |]; [| reflexivity].
    destruct (truthy v); [| reflexivity]. rewrite E. apply lookup_insert_eq.
  - assert (Hm : match field_value f with
                 | Some v => if truthy v then <[field_id f := v]> m else m
                 | None => m
                 end !! id = m !! id).
    { destruct (field_value f) as [v |]; [| reflexivity].
      destruct (truthy v); [| reflexivity]. now apply lookup_insert_ne. }
    rewrite Hm. reflexivity.
Qed.

Lemma find_by_id (l : list STSField) (f : STSField) :
  List.NoDup (List.map field_id l) -> List.In f l ->
  List.find (fun g => String.eqb (field_id g) (field_id f)) l = Some f.
Proof.
  induction l as [| g l IH]; intros Hnd Hin; [destruct Hin |].
  cbn [List.map] in Hnd. apply List.NoDup_cons_iff in Hnd as (Hnotin & Hnd).
  cbn [List.find].
  destruct Hin as [-> | Hin]; [now rewrite String.eqb_refl |].
  destruct (String.eqb_spec (field_id g) (field_id f)) as [E | E].
  - elim Hnotin. rewrite E. now apply List.in_map.
  - now apply IH.
Qed.

(** X10. The values a signing page starts with.  When the ids of the
    fields are distinct, the page holds for each field of the envelope its
    stored value if that is a non-empty text, and nothing otherwise, so a
    field counts as filled at the start exactly when it has a non-empty
    stored value.  A signer who submits such a page without having changed
    a value leaves every row of the field table as it was. *)
Theorem page_starts_with_the_stored_values (s : Session) (now : Z) (d : DB) :
  List.NoDup (List.map field_id (sts_fields d)) ->
  (forall f, List.In f (fields (s_envelope s)) -> List.In f (sts_fields d)) ->
  List.NoDup (List.map field_id (fields (s_envelope s))) ->
  let start := initialFieldValues (fields (s_envelope s)) in
  (forall f, List.In f (fields (s_envelope s)) ->
     start !! field_id f
     = match field_value f with
       | Some v => if truthy v then Some v else None
       | None => None
       end)
  /\ (forall f, List.In f (fields (s_envelope s)) ->
        filled start f
        = match field_value f with Some v => truthy v | None => false end)
  /\ (submits s start true = true ->
      sts_fields (handleSubmit s start true now d) = sts_fields d).
Proof.
  intros Hnd Hincl Hnds start.
  assert (Hstart : forall f, List.In f (fields (s_envelope s)) ->
             start !! field_id f
             = match field_value f with
               | Some v => if truthy v then Some v else None
               | None => None
               end).
  { intros f Hin. subst start. unfold initialFieldValues.
    rewrite (initial_loop _ ∅ (field_id f) Hnds).
    rewrite (find_by_id _ f Hnds Hin), lookup_empty. reflexivity. }
  split; [exact Hstart |]. split.
  - intros f Hin. unfold filled. rewrite (Hstart f Hin).
    destruct (field_value f) as [v |]; [| reflexivity].
    destruct (truthy v) eqn:E; [exact E | reflexivity].
  - intros Hsub.
    transitivity (List.map (savedField start) (sts_fields d)).
    { rewrite SignedToSealedFacts.handleSubmit_unfold, Hsub. cbn [negb].
      cbv zeta. rewrite <- saved_fields.
      destruct (allSignedAfter _ _ _); reflexivity. }
    erewrite List.map_ext_in; [apply List.map_id |].
    intros f Hin. unfold savedField.
    destruct (start !! field_id f) as [v |] eqn:Hv; [| reflexivity].
    subst start. unfold initialFieldValues in Hv.
    rewrite (initial_loop _ ∅ (field_id f) Hnds), lookup_empty in Hv.
    destruct (List.find _ (fields (s_envelope s))) as [g |] eqn:Hg;
      [| discriminate].
    apply List.find_some in Hg as (Hgin & Hgid). apply String.eqb_eq in Hgid.
    assert (Hgf : g = f).
    { pose proof (find_by_id _ g Hnd (Hincl g Hgin)) as H1.
      pose proof (find_by_id _ f Hnd Hin) as H2.
      rewrite Hgid in H1. congruence. }
    subst g. destruct f as [fid fenv fdoc frec freq fval]. cbn in *.
    destruct fval as [v' |]; [| discriminate].
    destruct (truthy v'); [| discriminate]. now injection Hv as ->.
Qed.

Lemma page_starts_witness :
  let s := {| s_envelope :=
                {| envelope := SignedToSealedSamples.draftEnvelope;
                   documents := []; recipients := [];
                   fields := sts_fields storedFields |};
              s_recipient := sampleRecipient "r-a" "tok-a" pending |} in
  submits s (initialFieldValues (sts_fields storedFields)) true = true
  /\ sts_fields (handleSubmit s (initialFieldValues (sts_fields storedFields))
                   true 9 storedFields)
     = sts_fields storedFields.
Proof.
  intros s.
  assert (Hsub : submits s (initialFieldValues (sts_fields storedFields)) true
                 = true) by reflexivity.
  split; [exact Hsub |].
  refine (proj2 (proj2 (page_starts_with_the_stored_values s 9 storedFields
                          _ _ _)) Hsub).
  - repeat constructor; simpl; intuition discriminate.
  - intros f H. exact H.
  - repeat constructor; simpl; intuition discriminate.
Defined.

End SigningViewInitialFacts.
